(** * MSChallenger: a shallow embedding of the synchronisation core

    The Python sources embedded here are
      - [services.py]: the snapshot selector, the staleness check, the
        single writer of [update_characters], the profile upsert, the
        availability rule and the incremental list sync;
      - [tools_basic_backfill.py] and [tools_light_daemon.py]: the profile
        upserts of [write_basic_results] and of the bootstrap;
      - [nexon_api.py]: the API client;
      - [blacklist_fetcher.py] and [app.py]: the classification of list
        records;
    and, beyond these, the functions around them: the chunking and the
    retry wrapper, the application of a block list to the database, the
    guild expansion and the check of the character list of
    [services.py], the paging fetch and the name extraction of
    [blacklist_fetcher.py], and the pending list and the list deletion
    of [tools_basic_backfill.py].

    Conventions.  A Python [str] is a [string] holding its UTF-8 bytes: the
    byte order is the code point order, and a search for a well-formed
    needle finds the same occurrences in both readings.  A [date] that is
    only compared and shifted by whole days is carried as its proleptic
    Gregorian ordinal ([date.toordinal()]); a date parsed from text is a
    civil year/month/day triple.  Exceptions are explicit: a fallible step
    returns [option] or a result type with a raising constructor. *)

From Stdlib Require Import ZArith QArith String Ascii List Lia Bool.
From Stdlib Require Import DecimalString Lqa.
From stdpp Require Import base option list gmap strings sorting.

Set Warnings "-register-all".

Local Open Scope Z_scope.

(* ===================================================================== *)
(** * Python string primitives *)
(* ===================================================================== *)

Module PyStr.

(** [str.isspace] on one-byte characters. *)
Definition is_space1 (c : ascii) : bool :=
  match c with
  | "009" | "010" | "011" | "012" | "013"
  | "028" | "029" | "030" | "031" | " " => true
  | _ => false
  end%char.

(** The two-byte white space characters U+0085 and U+00A0. *)
Definition is_space2 (c1 c2 : ascii) : bool :=
  match c1, c2 with
  | "194", "133" | "194", "160" => true
  | _, _ => false
  end%char.

(** The three-byte white space characters U+1680, U+2000..U+200A, U+2028,
    U+2029, U+202F, U+205F and U+3000. *)
Definition is_space3 (c1 c2 c3 : ascii) : bool :=
  match c1, c2, c3 with
  | "225", "154", "128" => true
  | "226", "128", c =>
      let n := N_of_ascii c in
      ((128 <=? n) && (n <=? 138) || (n =? 168) || (n =? 169) || (n =? 175))%N
  | "226", "129", "159" => true
  | "227", "128", "128" => true
  | _, _, _ => false
  end%char.

(** [str.lstrip()]. *)
Fixpoint lstrip (s : string) : string :=
  match s with
  | String c1 s1 =>
      if is_space1 c1 then lstrip s1
      else match s1 with
           | String c2 s2 =>
               if is_space2 c1 c2 then lstrip s2
               else match s2 with
                    | String c3 s3 =>
                        if is_space3 c1 c2 c3 then lstrip s3 else s
                    | EmptyString => s
                    end
           | EmptyString => s
           end
  | EmptyString => s
  end.

(** [lstrip] on the reversed string: the bytes of a character arrive last
    byte first. *)
Fixpoint lstrip_rev (s : string) : string :=
  match s with
  | String c1 s1 =>
      if is_space1 c1 then lstrip_rev s1
      else match s1 with
           | String c2 s2 =>
               if is_space2 c2 c1 then lstrip_rev s2
               else match s2 with
                    | String c3 s3 =>
                        if is_space3 c3 c2 c1 then lstrip_rev s3 else s
                    | EmptyString => s
                    end
           | EmptyString => s
           end
  | EmptyString => s
  end.

(** [str.rstrip()] and [str.strip()]. *)
Definition rstrip (s : string) : string := String.rev (lstrip_rev (String.rev s)).
Definition strip (s : string) : string := lstrip (rstrip s).

(** [str.lower()] on the ASCII letters. *)
Definition lower_char (c : ascii) : ascii :=
  let n := N_of_ascii c in
  if ((65 <=? n) && (n <=? 90))%N then ascii_of_N (n + 32) else c.

Fixpoint lower (s : string) : string :=
  match s with
  | EmptyString => EmptyString
  | String c s' => String (lower_char c) (lower s')
  end.

(** [s.replace(old, new)] for a one-character [old]. *)
Fixpoint replace_char (old : ascii) (new : string) (s : string) : string :=
  match s with
  | EmptyString => EmptyString
  | String c s' =>
      if Ascii.eqb c old then new +:+ replace_char old new s'
      else String c (replace_char old new s')
  end.

(** [c in s] for a one-character [c]. *)
Fixpoint contains_char (c : ascii) (s : string) : bool :=
  match s with
  | EmptyString => false
  | String c' s' => Ascii.eqb c c' || contains_char c s'
  end.

(** [str.count(sub)]: the occurrences of [sub] counted from the left
    without overlap.  [skip] is the number of bytes still covered by the
    occurrence found last. *)
Fixpoint count_from (sub : string) (skip : nat) (s : string) : Z :=
  match s with
  | EmptyString => 0
  | String _ s' =>
      match skip with
      | S k => count_from sub k s'
      | O =>
          if String.prefix sub s
          then 1 + count_from sub (Nat.pred (String.length sub)) s'
          else count_from sub O s'
      end
  end.

Definition count (sub s : string) : Z := count_from sub O s.

(** A decimal digit and its value. *)
Definition is_digit (c : ascii) : bool :=
  let n := N_of_ascii c in ((48 <=? n) && (n <=? 57))%N.

Definition digit_val (c : ascii) : Z := Z.of_N (N_of_ascii c) - 48.

(** [str(n)] for an [int]. *)
Definition of_int (z : Z) : string := NilZero.string_of_int (Z.to_int z).

End PyStr.

(* ===================================================================== *)
(** * The proleptic Gregorian calendar of [datetime] *)
(* ===================================================================== *)

Module Cal.

(** A civil date, as [datetime.date] holds it. *)
Record date : Type := mk_date { year : Z; month : Z; day : Z }.

Definition MINYEAR : Z := 1.
Definition MAXYEAR : Z := 9999.

Definition _is_leap (y : Z) : bool :=
  (y mod 4 =? 0) && (negb (y mod 100 =? 0) || (y mod 400 =? 0)).

Definition _DAYS_IN_MONTH : list Z :=
  [-1; 31; 28; 31; 30; 31; 30; 31; 31; 30; 31; 30; 31].

Definition _DAYS_BEFORE_MONTH : list Z :=
  [-1; 0; 31; 59; 90; 120; 151; 181; 212; 243; 273; 304; 334].

Definition _days_before_year (y : Z) : Z :=
  let y := y - 1 in y * 365 + y / 4 - y / 100 + y / 400.

Definition _days_in_month (y m : Z) : Z :=
  if (m =? 2) && _is_leap y then 29
  else nth (Z.to_nat m) _DAYS_IN_MONTH (-1).

Definition _days_before_month (y m : Z) : Z :=
  nth (Z.to_nat m) _DAYS_BEFORE_MONTH (-1)
  + (if (2 <? m) && _is_leap y then 1 else 0).

Definition _ymd2ord (y m d : Z) : Z :=
  _days_before_year y + _days_before_month y m + d.

(** The constructor [date(y, m, d)]; [None] stands for its [ValueError]. *)
Definition make_date (y m d : Z) : option date :=
  if (MINYEAR <=? y) && (y <=? MAXYEAR)
     && (1 <=? m) && (m <=? 12)
     && (1 <=? d) && (d <=? _days_in_month y m)
  then Some (mk_date y m d) else None.

Definition toordinal (d : date) : Z := _ymd2ord (year d) (month d) (day d).

(** [(a - b).days]. *)
Definition days_between (a b : date) : Z := toordinal a - toordinal b.

End Cal.

(* ===================================================================== *)
(** * The availability rule (06:00 cutover) *)
(* ===================================================================== *)

Module Clock.

(** A naive [datetime]: the ordinal of its date and its time of day. *)
Record datetime : Type := mk_datetime {
  dt_date : Z;
  dt_hour : N;
  dt_minute : N;
  dt_second : N;
  dt_microsecond : N
}.

(** [datetime.time(h, m, s)]. *)
Record dtime : Type := mk_dtime { t_hour : N; t_minute : N; t_second : N }.

(** [datetime.combine(d, t)]. *)
Definition combine (d : Z) (t : dtime) : datetime :=
  mk_datetime d (t_hour t) (t_minute t) (t_second t) 0.

(** [a < b] on naive datetimes: lexicographic on the fields. *)
Definition datetime_ltb (a b : datetime) : bool :=
  (dt_date a <? dt_date b)
  || ((dt_date a =? dt_date b)
      && ((dt_hour a <? dt_hour b)%N
          || ((dt_hour a =? dt_hour b)%N
              && ((dt_minute a <? dt_minute b)%N
                  || ((dt_minute a =? dt_minute b)%N
                      && ((dt_second a <? dt_second b)%N
                          || ((dt_second a =? dt_second b)%N
                              && (dt_microsecond a <? dt_microsecond b)%N))))))).

(** [services._latest_available_block_date], with [datetime.now()] passed
    in. *)
Definition _latest_available_block_date (now : datetime) : Z :=
  let cutoff := combine (dt_date now) (mk_dtime 6 0 0) in
  if datetime_ltb now cutoff then dt_date now - 2
  else dt_date now - 1.

(** [app.latest_available_blacklist_date]. *)
Definition latest_available_blacklist_date (now : datetime) : Z :=
  let cutoff := combine (dt_date now) (mk_dtime 6 0 0) in
  if datetime_ltb now cutoff then dt_date now - 2
  else dt_date now - 1.

End Clock.

(* ===================================================================== *)
(** * Classification of list records *)
(* ===================================================================== *)

Module Blacklist.

Import PyStr.

(** Exactly [n] decimal digits, read as a number. *)
Fixpoint take_digits (n : nat) (acc : Z) (s : string) : option (Z * string) :=
  match n with
  | O => Some (acc, s)
  | S n' =>
      match s with
      | String c s' =>
          if is_digit c then take_digits n' (10 * acc + digit_val c) s'
          else None
      | EmptyString => None
      end
  end.

(** The greedy group [(\d{1,2})]. *)
Definition take_digits_1_2 (s : string) : option (Z * string) :=
  match take_digits 2 0 s with
  | Some r => Some r
  | None => take_digits 1 0 s
  end.

(** One literal character. *)
Definition expect (c : ascii) (s : string) : option string :=
  match s with
  | String c' s' => if Ascii.eqb c c' then Some s' else None
  | EmptyString => None
  end.

(** [re.match(r"^\s*(\d{4})/(\d{1,2})/(\d{1,2})\s*$", s)], giving the
    three groups as numbers.  Each group is followed by a character that is
    no digit, so the greedy reading is the only one that can succeed.  The
    listing writes its dates in ASCII, and [\d] is read as an ASCII
    digit. *)
Definition match_ymd (s : string) : option (Z * Z * Z) :=
  '(y, s1) ← take_digits 4 0 (lstrip s);
  s2 ← expect "/" s1;
  '(m, s3) ← take_digits_1_2 s2;
  s4 ← expect "/" s3;
  '(d, s5) ← take_digits_1_2 s4;
  if decide (lstrip s5 = "") then Some (y, m, d) else None.

(** [blacklist_fetcher._is_permanent_unblock_date]. *)
Definition _is_permanent_unblock_date (unblocked_date_text : string) : bool :=
  let s := strip unblocked_date_text in
  if decide (s = "") then false
  else match match_ymd s with
       | None => false
       | Some (y, _, _) => bool_decide (2079 <= y)
       end.

(** A digit from 1 to 9. *)
Definition is_digit_1_9 (c : ascii) : bool :=
  is_digit c && negb (Ascii.eqb c "0").

(** The directive [%m] of [strptime]: [1[0-2]|0[1-9]|[1-9]]. *)
Definition take_month (s : string) : option (Z * string) :=
  match s with
  | String a r =>
      let one := if is_digit_1_9 a then Some (digit_val a, r) else None in
      match r with
      | String b r' =>
          if Ascii.eqb a "1" && is_digit b && (digit_val b <=? 2)
          then Some (10 + digit_val b, r')
          else if Ascii.eqb a "0" && is_digit_1_9 b
          then Some (digit_val b, r')
          else one
      | EmptyString => one
      end
  | EmptyString => None
  end.

(** The directive [%d] of [strptime]:
    [3[0-1]|[1-2]\d|0[1-9]|[1-9]| [1-9]], the alternatives tried in this
    order. *)
Definition take_day (s : string) : option (Z * string) :=
  match s with
  | String a r =>
      let one := if is_digit_1_9 a then Some (digit_val a, r) else None in
      match r with
      | String b r' =>
          if Ascii.eqb a "3" && is_digit b && (digit_val b <=? 1)
          then Some (30 + digit_val b, r')
          else if (Ascii.eqb a "1" || Ascii.eqb a "2") && is_digit b
          then Some (10 * digit_val a + digit_val b, r')
          else if Ascii.eqb a "0" && is_digit_1_9 b
          then Some (digit_val b, r')
          else if is_digit_1_9 a
          then Some (digit_val a, r)
          else if Ascii.eqb a " " && is_digit_1_9 b
          then Some (digit_val b, r')
          else None
      | EmptyString => one
      end
  | EmptyString => None
  end.

(** [datetime.strptime(s, "%Y/%m/%d").date()]: the format must consume
    the whole string, and the fields must form a date. *)
Definition strptime_ymd (s : string) : option Cal.date :=
  '(y, s1) ← take_digits 4 0 s;
  s2 ← expect "/" s1;
  '(m, s3) ← take_month s2;
  s4 ← expect "/" s3;
  '(d, s5) ← take_day s4;
  if decide (s5 = "") then Cal.make_date y m d else None.

Section WithIsoParser.

(** [date.fromisoformat] of the interpreter, [None] for its
    [ValueError]: the accepted formats differ between Python versions,
    and nothing below depends on them. *)
Variable date_fromisoformat : string -> option Cal.date.

(** [app.parse_ymd]. *)
Definition parse_ymd (s : string) : option Cal.date :=
  if decide (s = "") then None
  else
    let s := strip s in
    if contains_char "/" s then strptime_ymd s
    else date_fromisoformat s.

(** [app.is_permanent_unblock_date]. *)
Definition is_permanent_unblock_date (unblocked : string) : bool :=
  match parse_ymd unblocked with
  | None => false
  | Some d => bool_decide (2079 <= Cal.year d)
  end.

(** [app.is_7day_lock]. *)
Definition is_7day_lock (blocked unblocked : string) : bool :=
  match parse_ymd blocked, parse_ymd unblocked with
  | Some bd, Some ud =>
      bool_decide (Cal.days_between ud bd <= 7)
      && bool_decide (Cal.days_between ud bd >= 1)
      && bool_decide (Cal.year ud < 2079)
  | _, _ => false
  end.

(** The three classes of a list record. *)
Inductive lock_type : Type := Permanent | Temporary | Other.

(** A list record, its date fields as the listing gives them. *)
Record list_record : Type := mk_record {
  characterName : string;
  reason : string;
  blockDate : string;
  unBlockedDate : string
}.

(** [_classify] of [app.py]: permanent by the unblock year, else
    temporary by the span, else other. *)
Definition _classify (row : list_record) : lock_type :=
  let bd := blockDate row in
  let ud := unBlockedDate row in
  if is_permanent_unblock_date ud then Permanent
  else if is_7day_lock bd ud then Temporary
  else Other.

End WithIsoParser.

End Blacklist.

(* ===================================================================== *)
(** * JSON values and [json.dumps] *)
(* ===================================================================== *)

Module Json.

Import PyStr.

(** A Python [float], by what the code observes of it: its truth value
    and its printed forms. *)
Inductive pyfloat : Type :=
| FNan
| FInf (negative : bool)
| FFinite (nonzero : bool) (repr : string).

(** A decoded JSON document; an object keeps its keys in insertion order,
    as a Python [dict] does. *)
Inductive t : Type :=
| JNull
| JBool (b : bool)
| JInt (z : Z)
| JFloat (f : pyfloat)
| JStr (s : string)
| JArr (items : list t)
| JObj (fields : list (string * t)).

(** A Python [dict] with [str] keys, in insertion order; the keys are
    distinct. *)
Definition pydict : Type := list (string * t).

(** [d.get(k)]. *)
Fixpoint dict_get (k : string) (d : pydict) : option t :=
  match d with
  | [] => None
  | (k', v) :: d' => if decide (k = k') then Some v else dict_get k d'
  end.

(** [d[k] = v]: a key already present keeps its place. *)
Fixpoint dict_set (k : string) (v : t) (d : pydict) : pydict :=
  match d with
  | [] => [(k, v)]
  | (k', v') :: d' =>
      if decide (k = k') then (k, v) :: d' else (k', v') :: dict_set k v d'
  end.

(** [d.pop(k, None)], the popped value dropped. *)
Fixpoint dict_pop (k : string) (d : pydict) : pydict :=
  match d with
  | [] => []
  | (k', v') :: d' =>
      if decide (k = k') then d' else (k', v') :: dict_pop k d'
  end.

(** [d.keys()]. *)
Definition dict_keys (d : pydict) : list string := map fst d.

(** [bool(x)]. *)
Definition truthy (x : t) : bool :=
  match x with
  | JNull => false
  | JBool b => b
  | JInt z => negb (z =? 0)
  | JFloat FNan => true
  | JFloat (FInf _) => true
  | JFloat (FFinite nz _) => nz
  | JStr s => negb (bool_decide (s = ""))
  | JArr l => negb (bool_decide (l = []))
  | JObj kv => negb (bool_decide (kv = []))
  end.

(** [a or b]. *)
Definition py_or (a b : t) : t := if truthy a then a else b.

(** [float.__repr__]. *)
Definition float_str (f : pyfloat) : string :=
  match f with
  | FNan => "nan"
  | FInf false => "inf"
  | FInf true => "-inf"
  | FFinite _ r => r
  end.

(** The number text of [json.dumps] for a [float]. *)
Definition float_json (f : pyfloat) : string :=
  match f with
  | FNan => "NaN"
  | FInf false => "Infinity"
  | FInf true => "-Infinity"
  | FFinite _ r => r
  end.

Definition hex_digit (n : N) : ascii :=
  if (n <? 10)%N then ascii_of_N (48 + n) else ascii_of_N (87 + n).

(** The characters [U+0022] (quotation mark) and [U+005C] (backslash). *)
Definition quote_char : ascii := ascii_of_N 34.
Definition backslash_char : ascii := ascii_of_N 92.

Definition escaped (c : ascii) : string := String backslash_char (String c "").

(** One character of a string literal under [ensure_ascii=False]: the
    quotation mark, the backslash and the control characters are
    escaped, the last as [\u00XX] when they have no short form. *)
Definition escape_char (c : ascii) : string :=
  let n := N_of_ascii c in
  if (n =? 34)%N then escaped quote_char
  else if (n =? 92)%N then escaped backslash_char
  else if (n =? 8)%N then escaped "b"
  else if (n =? 9)%N then escaped "t"
  else if (n =? 10)%N then escaped "n"
  else if (n =? 12)%N then escaped "f"
  else if (n =? 13)%N then escaped "r"
  else if (n <? 32)%N
  then escaped "u" +:+ "00"
       +:+ String (hex_digit (n / 16)) (String (hex_digit (n mod 16)) "")
  else String c "".

Fixpoint escape (s : string) : string :=
  match s with
  | EmptyString => ""
  | String c s' => escape_char c +:+ escape s'
  end.

Definition encode_str (s : string) : string :=
  String quote_char (escape s +:+ String quote_char "").

(** [json.dumps(x, ensure_ascii=False)] with the default separators. *)
Fixpoint dumps (x : t) : string :=
  match x with
  | JNull => "null"
  | JBool true => "true"
  | JBool false => "false"
  | JInt z => of_int z
  | JFloat f => float_json f
  | JStr s => encode_str s
  | JArr l =>
      "[" +:+
      (fix items (l : list t) : string :=
         match l with
         | [] => ""
         | [y] => dumps y
         | y :: l' => dumps y +:+ ", " +:+ items l'
         end) l
      +:+ "]"
  | JObj kv =>
      "{" +:+
      (fix fields (kv : list (string * t)) : string :=
         match kv with
         | [] => ""
         | [(k, v)] => encode_str k +:+ ": " +:+ dumps v
         | (k, v) :: kv' => encode_str k +:+ ": " +:+ dumps v +:+ ", " +:+ fields kv'
         end) kv
      +:+ "}"
  end.

End Json.

(* ===================================================================== *)
(** * The snapshot selector *)
(* ===================================================================== *)

Module Selector.

Import PyStr Json.

(** The disfavoured marker token. *)
Definition DROP_RATE : string := "道具掉落率".

(** [services.count_drop_rate_mentions]. *)
Definition count_drop_rate_mentions (raw_json_text : string) : Z :=
  if decide (raw_json_text = "") then 0
  else count DROP_RATE raw_json_text.

Definition preset_keys : list (Z * string) :=
  [ (1, "item_equipment_preset_1");
    (2, "item_equipment_preset_2");
    (3, "item_equipment_preset_3") ].

(** The sort key of a candidate: [(drop_cnt, prefer2_flag, preset_no)],
    compared as Python compares tuples. *)
Definition key_le (a b : Z * Z * Z) : Prop :=
  a.1.1 < b.1.1
  ∨ (a.1.1 = b.1.1 ∧ (a.1.2 < b.1.2 ∨ (a.1.2 = b.1.2 ∧ a.2 <= b.2))).

(** A candidate: [(drop_cnt, prefer2_flag, preset_no, merged_items)]. *)
Definition candidate : Type := Z * Z * Z * list Json.t.

Definition cand_key (c : candidate) : Z * Z * Z := c.1.
Definition cand_cnt (c : candidate) : Z := c.1.1.1.
Definition cand_flag (c : candidate) : Z := c.1.1.2.
Definition cand_no (c : candidate) : Z := c.1.2.
Definition cand_items (c : candidate) : list Json.t := c.2.

Definition cand_le (x y : candidate) : Prop := key_le (cand_key x) (cand_key y).

#[global] Instance key_le_dec : RelDecision key_le.
Proof. intros a b. unfold key_le. apply _. Defined.

#[global] Instance cand_le_dec : RelDecision cand_le.
Proof. intros a b. unfold cand_le. apply _. Defined.

Section WithRepr.

(** [str(x)] of a list or a dict, for which Python prints the [repr] of
    the elements; the selector only strips and compares the text. *)
Variable container_str : Json.t -> string.

(** [str(x)]. *)
Definition py_str (x : Json.t) : string :=
  match x with
  | JNull => "None"
  | JBool true => "True"
  | JBool false => "False"
  | JInt z => of_int z
  | JFloat f => float_str f
  | JStr s => s
  | JArr _ | JObj _ => container_str x
  end.

(** [it.get(k)], [None] for a missing key. *)
Definition get_or_none (k : string) (it : pydict) : Json.t :=
  default JNull (dict_get k it).

(** [_slot_key]: the slot, else the part, else the empty string. *)
Definition _slot_key (it : pydict) : string :=
  strip (py_str (py_or (py_or (get_or_none "item_equipment_slot" it)
                              (get_or_none "item_equipment_part" it))
                       (JStr ""))).

(** One turn of either loop of [_merge_items]: what is no [dict] or has
    no slot key is passed over. *)
Definition put_item (merged : pydict) (it : Json.t) : pydict :=
  match it with
  | JObj fields =>
      let k := _slot_key fields in
      if decide (k = "") then merged else dict_set k it merged
  | _ => merged
  end.

(** [sorted(keys)]: Python's sort on a list of distinct strings, the
    order being the code point order. *)
Definition sorted (keys : list string) : list string :=
  merge_sort String.le keys.

(** [_merge_items]: the base first, the preset over it, the output in
    the order of the slot keys. *)
Definition _merge_items (base preset : list Json.t) : list Json.t :=
  let merged := foldl put_item [] base in
  let merged := foldl put_item merged preset in
  omap (fun k => dict_get k merged) (sorted (dict_keys merged)).

(** The body of the loop over [preset_keys] for one preset. *)
Definition candidate_of (equip_json : pydict) (base_items : list Json.t)
    (p : Z * string) : option candidate :=
  match dict_get p.2 equip_json with
  | Some (JArr (it :: rest)) =>
      let merged_items := _merge_items base_items (it :: rest) in
      let raw := dumps (JArr merged_items) in
      let cnt := count_drop_rate_mentions raw in
      Some (cnt, (if decide (p.1 = 2) then 0 else 1), p.1, merged_items)
  | _ => None
  end.

(** [base_items]: the list under [item_equipment], else the empty list. *)
Definition base_items_of (equip_json : pydict) : list Json.t :=
  match dict_get "item_equipment" equip_json with
  | Some (JArr l) => l
  | _ => []
  end.

Definition candidates_of (equip_json : pydict) : list candidate :=
  omap (candidate_of equip_json (base_items_of equip_json)) preset_keys.

(** [candidates.sort(key=lambda x: (x[0], x[1], x[2]))]; the keys of
    two candidates differ in the preset number at least. *)
Definition sort_candidates (cs : list candidate) : list candidate :=
  merge_sort cand_le cs.

(** [services.pick_best_preset_by_lowest_drop_rate]. *)
Definition pick_best_preset_by_lowest_drop_rate (equip_json : pydict) : pydict :=
  if decide (equip_json = []) then equip_json
  else
    match sort_candidates (candidates_of equip_json) with
    | [] => equip_json
    | best :: _ =>
        let trimmed := foldl (fun d p => dict_pop p.2 d) equip_json preset_keys in
        let trimmed := dict_set "preset_no" (JInt (cand_no best)) trimmed in
        dict_set "item_equipment" (JArr (cand_items best)) trimmed
    end.

(** ** Vocabulary of the statements about the selector *)

(** The dictionary that [_merge_items] builds. *)
Definition merged_of (base preset : list Json.t) : pydict :=
  foldl put_item (foldl put_item [] base) preset.

(** The slot key under which [_merge_items] files an item: none for
    what is no [dict] and for a [dict] whose key is empty. *)
Definition item_key (it : Json.t) : option string :=
  match it with
  | JObj fields =>
      let k := _slot_key fields in
      if decide (k = "") then None else Some k
  | _ => None
  end.

(** The last item of a list filed under [k]. *)
Definition last_with_key (k : string) (l : list Json.t) : option Json.t :=
  last (filter (fun it => item_key it = Some k) l).

(** The union by slot key: the item of the candidate where it has one,
    else the item of the base. *)
Definition slot_union (base preset : list Json.t) (k : string) : option Json.t :=
  match last_with_key k preset with
  | Some it => Some it
  | None => last_with_key k base
  end.

(** Strictly ascending slot keys. *)
Definition slot_lt (a b : string) : Prop := String.le a b /\ a <> b.

Definition items_lt (a b : Json.t) : Prop :=
  exists ka kb, item_key a = Some ka /\ item_key b = Some kb /\ slot_lt ka kb.

(** The candidate that wins against [c]: fewer marker occurrences, or
    as many and preset 2, or as many, neither being preset 2, and the
    lower preset number. *)
Definition beats_or_ties (best c : candidate) : Prop :=
  cand_cnt best < cand_cnt c
  \/ (cand_cnt best = cand_cnt c
      /\ (cand_no best = 2 \/ (cand_no c <> 2 /\ cand_no best <= cand_no c))).

(** The record rewritten for a winner. *)
Definition rewritten (equip_json : pydict) (best : candidate) : pydict :=
  dict_set "item_equipment" (JArr (cand_items best))
    (dict_set "preset_no" (JInt (cand_no best))
       (dict_pop "item_equipment_preset_3"
          (dict_pop "item_equipment_preset_2"
             (dict_pop "item_equipment_preset_1" equip_json)))).

(** The candidate built from preset [no] when [equip_json] holds a
    non-empty list [preset] under its key. *)
Definition candidate_for (equip_json : pydict) (no : Z) (preset : list Json.t)
    : candidate :=
  let merged_items := _merge_items (base_items_of equip_json) preset in
  (count_drop_rate_mentions (dumps (JArr merged_items)),
   (if decide (no = 2) then 0 else 1), no, merged_items).

End WithRepr.

End Selector.

(* ===================================================================== *)
(** * The API client *)
(* ===================================================================== *)

Module Nexon.

Import PyStr Json.

(** An exception of class [Exception] or below (time-out, connection
    failure, decoding failure), with its message. *)
Inductive exn : Type := Exception (class_name message : string).

Definition exn_str (e : exn) : string :=
  match e with Exception _ m => m end.

(** The outcome of a step that may raise. *)
Inductive result (A : Type) : Type :=
| Ok (a : A)
| Raised (e : exn).
Arguments Ok {A} a.
Arguments Raised {A} e.

Definition bind {A B : Type} (r : result A) (k : A -> result B) : result B :=
  match r with
  | Ok a => k a
  | Raised e => Raised e
  end.

(** [try: body  except Exception as e: handler(e)]. *)
Definition try_except {A : Type} (body : result A) (handler : exn -> result A)
    : result A :=
  match body with
  | Ok a => Ok a
  | Raised e => handler e
  end.

(** What the client reads of an HTTP response: the status, and what
    awaiting the text and the decoded JSON body gives. *)
Record response : Type := mk_response {
  status : Z;
  text : result string;
  json : result Json.t
}.

(** [session.get(url, headers=...)]: the request may raise instead of
    responding. *)
Definition session : Type := string -> list (string * string) -> result response.

(** The diagnostic of [_get_json]. *)
Record diagnostic : Type := mk_diagnostic {
  diag_status : Z + string;
  diag_body : string;
  diag_url : string
}.

Definition BASE_URL : string := "https://open.api.nexon.com/maplestorytw/v1".

(** [urllib.parse.quote(s)]: the letters, the digits and [_.-~/] stay, any
    other byte becomes [%XX]. *)
Definition is_unreserved (c : ascii) : bool :=
  let n := N_of_ascii c in
  ((65 <=? n) && (n <=? 90) || (97 <=? n) && (n <=? 122)
   || (48 <=? n) && (n <=? 57)
   || (n =? 95) || (n =? 46) || (n =? 45) || (n =? 126) || (n =? 47))%N.

Definition upper_hex_digit (n : N) : ascii :=
  if (n <? 10)%N then ascii_of_N (48 + n) else ascii_of_N (55 + n).

Fixpoint quote (s : string) : string :=
  match s with
  | EmptyString => ""
  | String c s' =>
      if is_unreserved c then String c (quote s')
      else
        let n := N_of_ascii c in
        String "%" (String (upper_hex_digit (n / 16))
                      (String (upper_hex_digit (n mod 16)) (quote s')))
  end.

Section Client.

(** [self.api_key]. *)
Variable api_key : string.

Definition _headers : list (string * string) :=
  [("x-nxopen-api-key", api_key)].

(** [NexonClient._get_json]: the pair [(data, err)], [JNull] for
    [None]. *)
Definition _get_json (sess : session) (url : string)
    : result (Json.t * option diagnostic) :=
  try_except
    (bind (sess url _headers) (fun resp =>
       if negb (status resp =? 200) then
         bind (text resp) (fun body =>
           Ok (JNull, Some (mk_diagnostic (inl (status resp)) body url)))
       else
         bind (json resp) (fun data => Ok (data, None))))
    (fun e =>
       Ok (JNull, Some (mk_diagnostic (inr "exception") (exn_str e) url))).

(** The common tail [data if data else None]. *)
Definition data_or_none (r : result (Json.t * option diagnostic)) : result Json.t :=
  bind r (fun p => Ok (if truthy p.1 then p.1 else JNull)).

Definition get_ocid (sess : session) (character_name : string) : result Json.t :=
  let url := BASE_URL +:+ "/id?character_name=" +:+ quote character_name in
  data_or_none (_get_json sess url).

Definition get_basic (sess : session) (ocid : string) : result Json.t :=
  let url := BASE_URL +:+ "/character/basic?ocid=" +:+ quote ocid in
  data_or_none (_get_json sess url).

Definition get_stat (sess : session) (ocid : string) (date_str : option string)
    : result Json.t :=
  let url :=
    match date_str with
    | Some (String c d) =>
        BASE_URL +:+ "/character/stat?ocid=" +:+ quote ocid
        +:+ "&date=" +:+ quote (String c d)
    | _ => BASE_URL +:+ "/character/stat?ocid=" +:+ quote ocid
    end in
  data_or_none (_get_json sess url).

Definition get_guild_id (sess : session) (guild_name world : string) : result Json.t :=
  let url := BASE_URL +:+ "/guild/id?guild_name=" +:+ quote guild_name
             +:+ "&world_name=" +:+ quote world in
  data_or_none (_get_json sess url).

Definition get_guild_basic (sess : session) (oguild_id : string) : result Json.t :=
  let url := BASE_URL +:+ "/guild/basic?oguild_id=" +:+ quote oguild_id in
  data_or_none (_get_json sess url).

Definition get_item_equipment (sess : session) (ocid : string)
    (date_str : option string) : result Json.t :=
  let url :=
    match date_str with
    | Some (String c d) =>
        BASE_URL +:+ "/character/item-equipment?ocid=" +:+ quote ocid
        +:+ "&date=" +:+ quote (String c d)
    | _ => BASE_URL +:+ "/character/item-equipment?ocid=" +:+ quote ocid
    end in
  data_or_none (_get_json sess url).

(** The operations of the client and their arguments. *)
Inductive operation : Type :=
| GetOcid (character_name : string)
| GetBasic (ocid : string)
| GetStat (ocid : string) (date_str : option string)
| GetGuildId (guild_name world : string)
| GetGuildBasic (oguild_id : string)
| GetItemEquipment (ocid : string) (date_str : option string).

Definition call (sess : session) (op : operation) : result Json.t :=
  match op with
  | GetOcid n => get_ocid sess n
  | GetBasic o => get_basic sess o
  | GetStat o d => get_stat sess o d
  | GetGuildId g w => get_guild_id sess g w
  | GetGuildBasic g => get_guild_basic sess g
  | GetItemEquipment o d => get_item_equipment sess o d
  end.

(** The URL an operation requests. *)
Definition url_of (op : operation) : string :=
  match op with
  | GetOcid n => BASE_URL +:+ "/id?character_name=" +:+ quote n
  | GetBasic o => BASE_URL +:+ "/character/basic?ocid=" +:+ quote o
  | GetStat o (Some (String c d)) =>
      BASE_URL +:+ "/character/stat?ocid=" +:+ quote o
      +:+ "&date=" +:+ quote (String c d)
  | GetStat o _ => BASE_URL +:+ "/character/stat?ocid=" +:+ quote o
  | GetGuildId g w =>
      BASE_URL +:+ "/guild/id?guild_name=" +:+ quote g
      +:+ "&world_name=" +:+ quote w
  | GetGuildBasic g => BASE_URL +:+ "/guild/basic?oguild_id=" +:+ quote g
  | GetItemEquipment o (Some (String c d)) =>
      BASE_URL +:+ "/character/item-equipment?ocid=" +:+ quote o
      +:+ "&date=" +:+ quote (String c d)
  | GetItemEquipment o _ =>
      BASE_URL +:+ "/character/item-equipment?ocid=" +:+ quote o
  end.

End Client.

End Nexon.

(* ===================================================================== *)
(** * The stored profile and its upserts *)
(* ===================================================================== *)

Module Characters.

Import PyStr.

(** A row of the table [characters]; a column that is [NULL] is [None].
    The [REAL] column holds a rational. *)
Record row : Type := mk_row {
  ocid : string;
  character_name : option string;
  world_name : option string;
  character_gender : option string;
  character_class : option string;
  character_class_level : option Z;
  character_level : option Z;
  character_exp : option Z;
  character_exp_rate : option Q;
  character_guild_name : option string;
  character_image : option string;
  character_date_create : option string;
  liberation_quest_clear : option Z;
  access_flag : option Z;
  updated_at : option string
}.

(** The decoded profile of the API: a field that is missing or [null] is
    [None]; a numeric field holds the number that [int] or [float] reads
    from it. *)
Record basic : Type := mk_basic {
  b_character_name : option string;
  b_world_name : option string;
  b_character_gender : option string;
  b_character_class : option string;
  b_character_class_level : option Z;
  b_character_level : option Z;
  b_character_exp : option Z;
  b_character_exp_rate : option Q;
  b_character_guild_name : option string;
  b_character_image : option string;
  b_character_date_create : option string;
  b_liberation_quest_clear : option Z;
  b_access_flag : option string
}.

(** The table, keyed by its primary key [ocid]. *)
Abbreviation table := (gmap string row).

(** [x or d] for an optional string: the empty string is false too. *)
Definition str_or (x : option string) (d : string) : string :=
  match x with
  | Some (String c s) => String c s
  | _ => d
  end.

(** [int(x or 0)]. *)
Definition int_or_0 (x : option Z) : Z := default 0 x.

(** [float(x or 0)]. *)
Definition float_or_0 (x : option Q) : Q := default 0%Q x.

(** [services._as_access_flag]. *)
Definition _as_access_flag (v : option string) : Z :=
  let s := lower (strip (str_or v "")) in
  if decide (s = "true") then 1 else 0.

(** [tools_basic_backfill.safe_int] and [safe_float] on a decoded
    number. *)
Definition safe_int (v : option Z) (default : Z) : Z :=
  match v with
  | None => default
  | Some z => z
  end.

Definition safe_float (v : option Q) : option Q := v.

(** [tools_basic_backfill.to_int01]. *)
Definition to_int01 (v : option Z) : Z :=
  match v with
  | Some iv => if decide (iv = 1) then 1 else 0
  | None => 0
  end.

(** SQL [COALESCE(a, b)]. *)
Definition COALESCE {A : Type} (a b : option A) : option A :=
  match a with
  | Some x => Some x
  | None => b
  end.

(** [INSERT ... ON CONFLICT(ocid) DO UPDATE SET ...]: a row with a new key
    is inserted as given, a row with a stored key is replaced by what the
    [SET] clause computes from the stored row and the excluded one. *)
Definition upsert (set_clause : row -> row -> row) (excluded : row) (t : table) : table :=
  match t !! ocid excluded with
  | None => <[ocid excluded := excluded]> t
  | Some stored => <[ocid excluded := set_clause stored excluded]> t
  end.

(** ** [services.update_characters] *)

(** The bound parameters of the profile upsert of the worker. *)
Definition update_characters_params (ocid name world now : string) (b : basic) : row :=
  {| ocid := ocid;
     character_name := Some (str_or (b_character_name b) name);
     world_name := Some (str_or (b_world_name b) world);
     character_gender := b_character_gender b;
     character_class := b_character_class b;
     character_class_level := Some (int_or_0 (b_character_class_level b));
     character_level := Some (int_or_0 (b_character_level b));
     character_exp := Some (int_or_0 (b_character_exp b));
     character_exp_rate := Some (float_or_0 (b_character_exp_rate b));
     character_guild_name := b_character_guild_name b;
     character_image := b_character_image b;
     character_date_create := b_character_date_create b;
     liberation_quest_clear := Some (int_or_0 (b_liberation_quest_clear b));
     access_flag := Some (_as_access_flag (b_access_flag b));
     updated_at := Some now |}.

(** Its [DO UPDATE SET] clause: every column takes the excluded value. *)
Definition update_characters_set (stored excluded : row) : row :=
  {| ocid := ocid stored;
     character_name := character_name excluded;
     world_name := world_name excluded;
     character_gender := character_gender excluded;
     character_class := character_class excluded;
     character_class_level := character_class_level excluded;
     character_level := character_level excluded;
     character_exp := character_exp excluded;
     character_exp_rate := character_exp_rate excluded;
     character_guild_name := character_guild_name excluded;
     character_image := character_image excluded;
     character_date_create := character_date_create excluded;
     liberation_quest_clear := liberation_quest_clear excluded;
     access_flag := access_flag excluded;
     updated_at := updated_at excluded |}.

(** The write of one fetched profile by the worker of
    [update_characters], as the single writer applies it. *)
Definition update_characters_write (ocid name world now : string) (b : basic)
    (t : table) : table :=
  upsert update_characters_set (update_characters_params ocid name world now b) t.

(** ** [tools_basic_backfill.write_basic_results] *)

Definition write_basic_results_params (ocid list_name world now : string)
    (b : basic) : row :=
  {| ocid := ocid;
     character_name := Some (str_or (b_character_name b) list_name);
     world_name := Some world;
     character_gender := b_character_gender b;
     character_class := b_character_class b;
     character_class_level := Some (int_or_0 (b_character_class_level b));
     character_level := Some (int_or_0 (b_character_level b));
     character_exp := Some (int_or_0 (b_character_exp b));
     character_exp_rate := b_character_exp_rate b;
     character_guild_name := b_character_guild_name b;
     character_image := b_character_image b;
     character_date_create := b_character_date_create b;
     liberation_quest_clear := Some (to_int01 (b_liberation_quest_clear b));
     access_flag := Some (_as_access_flag (b_access_flag b));
     updated_at := Some now |}.

(** [CASE WHEN e IS NOT NULL AND e <> 0 THEN e ELSE s END]. *)
Definition case_nonzero (e s : option Z) : option Z :=
  match e with
  | Some x => if decide (x ≠ 0) then Some x else s
  | None => s
  end.

(** [CASE WHEN e IS NOT NULL AND e > COALESCE(s,0) THEN e
     ELSE COALESCE(s,0) END]. *)
Definition case_greater (e s : option Z) : option Z :=
  match e with
  | Some x => if decide (x > default 0 s) then Some x else Some (default 0 s)
  | None => Some (default 0 s)
  end.

Definition write_basic_results_set (stored excluded : row) : row :=
  {| ocid := ocid stored;
     character_name := character_name excluded;
     world_name := world_name excluded;
     character_gender := COALESCE (character_gender excluded) (character_gender stored);
     character_class := COALESCE (character_class excluded) (character_class stored);
     character_class_level :=
       case_nonzero (character_class_level excluded) (character_class_level stored);
     character_level := case_greater (character_level excluded) (character_level stored);
     character_exp := case_greater (character_exp excluded) (character_exp stored);
     character_exp_rate :=
       COALESCE (character_exp_rate excluded) (character_exp_rate stored);
     character_guild_name :=
       COALESCE (character_guild_name excluded) (character_guild_name stored);
     character_image := COALESCE (character_image excluded) (character_image stored);
     character_date_create :=
       COALESCE (character_date_create excluded) (character_date_create stored);
     liberation_quest_clear := liberation_quest_clear excluded;
     access_flag := access_flag excluded;
     updated_at := updated_at excluded |}.

(** The write of one fetched profile by [write_basic_results]. *)
Definition write_basic_results_write (ocid list_name world now : string) (b : basic)
    (t : table) : table :=
  upsert write_basic_results_set (write_basic_results_params ocid list_name world now b) t.

(** ** [tools_light_daemon.bootstrap_new_characters] *)

(** The bound parameters: the columns the statement does not name are
    [NULL] in a new row. *)
Definition bootstrap_params (ocid name world now : string) (b : basic) : row :=
  {| ocid := ocid;
     character_name := Some name;
     world_name := Some world;
     character_gender := None;
     character_class := b_character_class b;
     character_class_level := None;
     character_level := Some (int_or_0 (b_character_level b));
     character_exp := None;
     character_exp_rate := None;
     character_guild_name := None;
     character_image := None;
     character_date_create := None;
     liberation_quest_clear := None;
     access_flag := None;
     updated_at := Some now |}.

(** SQL [MAX(a, b)] of two values: [NULL] when either is. *)
Definition sql_max (a b : option Z) : option Z :=
  match a, b with
  | Some x, Some y => Some (Z.max x y)
  | _, _ => None
  end.

Definition bootstrap_set (stored excluded : row) : row :=
  {| ocid := ocid stored;
     character_name := character_name excluded;
     world_name := world_name excluded;
     character_gender := character_gender stored;
     character_class := COALESCE (character_class excluded) (character_class stored);
     character_class_level := character_class_level stored;
     character_level :=
       sql_max (COALESCE (character_level stored) (Some 0)) (character_level excluded);
     character_exp := character_exp stored;
     character_exp_rate := character_exp_rate stored;
     character_guild_name := character_guild_name stored;
     character_image := character_image stored;
     character_date_create := character_date_create stored;
     liberation_quest_clear := liberation_quest_clear stored;
     access_flag := access_flag stored;
     updated_at := updated_at excluded |}.

Definition bootstrap_write (ocid name world now : string) (b : basic)
    (t : table) : table :=
  upsert bootstrap_set (bootstrap_params ocid name world now b) t.

(** The stored level of an entity, [None] when no row or no level is
    stored. *)
Definition stored_level (t : table) (k : string) : option Z :=
  t !! k ≫= character_level.

End Characters.

(* ===================================================================== *)
(** * The single writer *)
(* ===================================================================== *)

Module Writer.

Section WithStore.

(** The storage state and the mutation intents ([(sql, params)]). *)
Variables (store intent : Type).

(** [db.execute(sql, params)]: the state after the statement, or [None]
    when it raises; a statement that raises changes nothing. *)
Variable execute : store -> intent -> option store.

(** A connection: what is committed, and what the open transaction has
    made of it. *)
Record connection : Type := mk_connection {
  committed : store;
  working : store
}.

(** [aiosqlite.connect(DB_PATH)]. *)
Definition connect (db : store) : connection := mk_connection db db.

(** [db.commit()]. *)
Definition commit (c : connection) : connection :=
  mk_connection (working c) (working c).

(** [try: await db.execute(sql, params)  except Exception: pass]. *)
Definition execute_or_skip (c : connection) (it : intent) : connection :=
  match execute (working c) it with
  | Some s => mk_connection (committed c) s
  | None => c
  end.

(** How the writer task ends on a given content of the queue: it stops
    after the sentinel, or it consumed every item and waits in
    [write_q.get()]. *)
Inductive writer_end : Type :=
| Stopped (c : connection)
| Waiting (c : connection) (pending : Z).

(** The loop of [writer_task] over the items the queue delivers, [None]
    being the sentinel. *)
Fixpoint writer_loop (db_batch : Z) (c : connection) (pending : Z)
    (queue : list (option intent)) : writer_end :=
  match queue with
  | [] => Waiting c pending
  | None :: _ =>
      Stopped (if decide (pending ≠ 0) then commit c else c)
  | Some it :: queue' =>
      let c := execute_or_skip c it in
      let pending := pending + 1 in
      if decide (pending >= db_batch)
      then writer_loop db_batch (commit c) 0 queue'
      else writer_loop db_batch c pending queue'
  end.

(** [writer_task] inside [update_characters]: [db_batch] is the
    argument of [update_characters], raised to 50 at least. *)
Definition writer_task (db_batch : Z) (db : store) (queue : list (option intent))
    : writer_end :=
  let db_batch := Z.max 50 db_batch in
  writer_loop db_batch (connect db) 0 queue.

(** The state after the intents of a list, each applied in turn and
    each failing one passed over. *)
Definition apply_all (db : store) (intents : list intent) : store :=
  foldl (fun s it => default s (execute s it)) db intents.

End WithStore.

Arguments committed {store}.
Arguments working {store}.
Arguments Stopped {store}.
Arguments Waiting {store}.

End Writer.

(* ===================================================================== *)
(** * The staleness check *)
(* ===================================================================== *)

Module Staleness.

Import PyStr.

Section WithClock.

(** [datetime.fromisoformat] of the interpreter ([None] for its
    [ValueError]), and [date.today()] as an ordinal. *)
Variable datetime_fromisoformat : string -> option Clock.datetime.
Variable today : Z.

(** [services._days_since]. *)
Definition _days_since (iso_dt : string) : Z :=
  match datetime_fromisoformat (replace_char "Z" "+00:00" iso_dt) with
  | Some dt => today - Clock.dt_date dt
  | None => 999999
  end.

(** [services._basic_updated_at]. *)
Definition _basic_updated_at (db : gmap string Characters.row) (ocid : string)
    : option string :=
  db !! ocid ≫= Characters.updated_at.

(** [services.should_refresh_character]. *)
Definition should_refresh_character (db : gmap string Characters.row)
    (ocid : string) (refresh_days : Z) : bool :=
  match _basic_updated_at db ocid with
  | None => true
  | Some EmptyString => true
  | Some updated_at => bool_decide (_days_since updated_at >= refresh_days)
  end.

End WithClock.

End Staleness.

(* ===================================================================== *)
(** * The incremental list sync *)
(* ===================================================================== *)

Module ListSync.

Import PyStr.

(** [blacklist_fetcher.extract_names]. *)
Definition extract_names (list_data : list Blacklist.list_record) : gset string :=
  foldl (fun names row =>
           let nm := strip (Blacklist.characterName row) in
           if decide (nm = "") then names else names ∪ {[ nm ]})
        ∅ list_data.

(** [blacklist_fetcher.extract_permanent_names]. *)
Definition extract_permanent_names (list_data : list Blacklist.list_record)
    : gset string :=
  foldl (fun names row =>
           let nm := strip (Blacklist.characterName row) in
           let ub := strip (Blacklist.unBlockedDate row) in
           if negb (bool_decide (nm = "")) && Blacklist._is_permanent_unblock_date ub
           then names ∪ {[ nm ]} else names)
        ∅ list_data.

(** What a run does to the outside, in the order it does it. *)
Inductive event : Type :=
| EvFetch (day : Z)
| EvApply (day : Z) (names : gset string)
| EvCursor (day : Z).

(** The report a run returns: [ran] false with its reason, or [ran] true
    with the span and the counters (the sample of matched names is left
    out). *)
Inductive report : Type :=
| NotRan (reason : string) (start latest : option Z)
| Ran (start end_day total_days : Z)
      (scanned_total_names scanned_effective_names applied_matched_total : Z).

Inductive outcome : Type :=
| Returned (r : report)
| Raises.

Section WithSite.

(** The entity store that [purge_or_skip_blacklisted] mutates. *)
Variable store : Type.

(** [BlacklistClient.init()]: the token and the partition identifier,
    [None] when it raises. *)
Variable init : option (string * string).

(** [cli.fetch_all_for_date(day)]: the records of a day, [None] when a
    request raises. *)
Variable fetch_all_for_date : Z -> option (list Blacklist.list_record).

(** [purge_or_skip_blacklisted] with the mode of the run: the store
    after it and the number of matched names, [None] when it raises. *)
Variable purge_or_skip_blacklisted : store -> gset string -> option (store * Z).

(** The state a run works on: the cursor table ([world_name] to
    [last_success_date]), the entity store, and the history of the
    run. *)
Record state : Type := mk_state {
  sync_log : gmap string Z;
  db : store;
  trace : list event
}.

Definition log (e : event) (st : state) : state :=
  mk_state (sync_log st) (db st) (trace st ++ [e]).

(** [services.get_blacklist_last_sync_date]. *)
Definition get_blacklist_last_sync_date (world : string) (st : state) : option Z :=
  sync_log st !! world.

(** [services.set_blacklist_last_sync_date]. *)
Definition set_blacklist_last_sync_date (world : string) (last_date : Z)
    (st : state) : state :=
  log (EvCursor last_date)
      (mk_state (<[world := last_date]> (sync_log st)) (db st) (trace st)).

(** The counters of the loop. *)
Record counters : Type := mk_counters {
  done_days : Z;
  scanned_total_names : Z;
  scanned_effective_names : Z;
  applied_matched_total : Z
}.

(** The [while cur_day <= latest] loop; [fuel] bounds the number of
    turns.  [None] in the first component: a step raised. *)
Fixpoint sync_days (fuel : nat) (world : string) (permanent_only : bool)
    (latest cur_day : Z) (acc : counters) (st : state)
    : option counters * state :=
  match fuel with
  | O => (Some acc, st)
  | S fuel' =>
      if decide (cur_day <= latest) then
        match fetch_all_for_date cur_day with
        | None => (None, st)
        | Some rows =>
            let st := log (EvFetch cur_day) st in
            let all_names := extract_names rows in
            let names :=
              if permanent_only then extract_permanent_names rows
              else all_names in
            let acc :=
              mk_counters (done_days acc + 1)
                (scanned_total_names acc + Z.of_nat (size all_names))
                (scanned_effective_names acc + Z.of_nat (size names))
                (applied_matched_total acc) in
            let applied :=
              if decide (names = ∅) then Some (acc, st)
              else
                match purge_or_skip_blacklisted (db st) names with
                | None => None
                | Some (db', matched) =>
                    Some (mk_counters (done_days acc) (scanned_total_names acc)
                            (scanned_effective_names acc)
                            (applied_matched_total acc + matched),
                          log (EvApply cur_day names)
                              (mk_state (sync_log st) db' (trace st)))
                end in
            match applied with
            | None => (None, st)
            | Some (acc, st) =>
                let st := set_blacklist_last_sync_date world cur_day st in
                sync_days fuel' world permanent_only latest (cur_day + 1) acc st
            end
        end
      else (Some acc, st)
  end.

(** [services.sync_blacklist_incremental], with [datetime.now()] passed
    in.  The fuel covers the days from [start] to [latest] and the
    turn that leaves the loop.  The guard around the import of the
    fetcher and the progress callback are left out. *)
Definition sync_blacklist_incremental (world : string) (first_start_date : Z)
    (permanent_only : bool) (now : Clock.datetime) (st : state)
    : outcome * state :=
  let latest := Clock._latest_available_block_date now in
  if decide (latest < first_start_date)
  then (Returned (NotRan "latest < first_start_date" None None), st)
  else
    let last := get_blacklist_last_sync_date world st in
    let start :=
      match last with
      | Some l => l + 1
      | None => first_start_date
      end in
    if decide (start > latest)
    then (Returned (NotRan "up-to-date" (Some start) (Some latest)), st)
    else
      match init with
      | None => (Raises, st)
      | Some (csrf, server_id) =>
          let total_days := latest - start + 1 in
          match sync_days (S (Z.to_nat total_days)) world permanent_only
                  latest start (mk_counters 0 0 0 0) st with
          | (None, st') => (Raises, st')
          | (Some acc, st') =>
              (Returned (Ran start latest total_days
                           (scanned_total_names acc)
                           (scanned_effective_names acc)
                           (applied_matched_total acc)),
               st')
          end
      end.

(** ** Vocabulary of the statements about a run *)

(** The names a day contributes. *)
Definition names_of (permanent_only : bool) (day : Z) : gset string :=
  match fetch_all_for_date day with
  | Some rows =>
      if permanent_only then extract_permanent_names rows
      else extract_names rows
  | None => ∅
  end.

(** The history of a day that is fully applied: fetched, applied when
    it contributes a name, then the cursor set to it. *)
Definition day_events (permanent_only : bool) (day : Z) : list event :=
  EvFetch day
  :: (if decide (names_of permanent_only day = ∅) then []
      else [EvApply day (names_of permanent_only day)])
  ++ [EvCursor day].

(** The values the cursor took, in order. *)
Definition cursor_writes (tr : list event) : list Z :=
  omap (fun e => match e with EvCursor d => Some d | _ => None end) tr.

(** The day a run starts at. *)
Definition start_day (world : string) (first_start_date : Z) (st : state) : Z :=
  match get_blacklist_last_sync_date world st with
  | Some l => l + 1
  | None => first_start_date
  end.

End WithSite.

Arguments sync_log {store}.
Arguments db {store}.
Arguments trace {store}.
Arguments mk_state {store}.

End ListSync.

(* ===================================================================== *)
(** * Concrete inputs *)
(* ===================================================================== *)

Module Samples.

Import Json.

(** ** The staleness check *)

(** A profile row whose timestamp is [ts]. *)
Definition row_updated_at (k ts : string) : Characters.row :=
  Characters.mk_row k None None None None None None None None None None None
    None None (Some ts).

(** A parser that knows one timestamp, 2025-12-01T08:00:00 (ordinal
    739586). *)
Definition one_timestamp (s : string) : option Clock.datetime :=
  if decide (s = "2025-12-01T08:00:00")
  then Some (Clock.mk_datetime 739586 8 0 0 0) else None.

(** ** The API client *)

(** A session that answers every request with status 200 and the given
    decoded body. *)
Definition answers (data : Json.t) : Nexon.session :=
  fun _ _ => Nexon.Ok (Nexon.mk_response 200 (Nexon.Ok "") (Nexon.Ok data)).

(** ** The stored profile *)

Import Characters.

(** A stored profile of level 200 with every optional field present. *)
Definition stored_200 : row :=
  {| ocid := "ocid-1";
     character_name := Some "Aria";
     world_name := Some "挑戰者";
     character_gender := Some "女";
     character_class := Some "英雄";
     character_class_level := Some 6;
     character_level := Some 200;
     character_exp := Some 1000;
     character_exp_rate := Some 12.5%Q;
     character_guild_name := Some "Guild";
     character_image := Some "https://example.invalid/a.png";
     character_date_create := Some "2024-01-01T00:00+08:00";
     liberation_quest_clear := Some 1;
     access_flag := Some 1;
     updated_at := Some "2025-12-01T08:00:00" |}.

(** An incoming profile of level 180 that lacks the optional fields. *)
Definition incoming_180 : basic :=
  {| b_character_name := Some "Aria";
     b_world_name := Some "挑戰者";
     b_character_gender := None;
     b_character_class := None;
     b_character_class_level := Some 6;
     b_character_level := Some 180;
     b_character_exp := Some 900;
     b_character_exp_rate := None;
     b_character_guild_name := None;
     b_character_image := None;
     b_character_date_create := None;
     b_liberation_quest_clear := Some 1;
     b_access_flag := Some "true" |}.

Definition table_200 : table := {[ "ocid-1" := stored_200 ]}.

(** ** The single writer *)

(** A store that sums what is applied to it; a negative intent raises. *)
Definition add_intent (s i : Z) : option Z :=
  if decide (i < 0) then None else Some (s + i).

(** ** The snapshot selector *)

(** An item of an equipment list. *)
Definition item (slot opt : string) : Json.t :=
  JObj [("item_equipment_slot", JStr slot); ("potential_option_1", JStr opt)].

Definition sample_base : list Json.t :=
  [item "帽子" "力量"; item "武器" "道具掉落率"; item "徽章" "敏捷"].

Definition sample_preset : list Json.t :=
  [item "武器" "攻擊力"; item "帽子" "道具掉落率"].

Definition sample_equip : pydict :=
  [ ("date", JNull);
    ("item_equipment", JArr sample_base);
    ("item_equipment_preset_1",
     JArr [item "武器" "道具掉落率"; item "帽子" "道具掉落率"]);
    ("item_equipment_preset_2", JArr sample_preset);
    ("item_equipment_preset_3",
     JArr [item "帽子" "智力"; item "武器" "道具掉落率"]) ].

(** ** The incremental list sync *)

(** A site that lists nobody, and an entity store that is not looked
    at. *)
Definition empty_site (day : Z) : option (list Blacklist.list_record) := Some [].
Definition no_purge (db : unit) (names : gset string) : option (unit * Z) :=
  Some (db, 0).

(** 2025-12-10 07:00:00, the cursor at 2025-11-15 (ordinal 739570), the
    configured first start date 2025-12-03 (ordinal 739588). *)
Definition sample_now : Clock.datetime := Clock.mk_datetime 739595 7 0 0 0.
Definition sample_state : ListSync.state unit :=
  ListSync.mk_state {[ "挑戰者" := 739570 ]} tt [].

End Samples.

(* ===================================================================== *)
(** * Chunked queries *)
(* ===================================================================== *)

Module Chunks.

(** [range(0, stop, step)] for a positive [step]: the multiples of [step]
    below [stop]. *)
Definition range_step (stop step : nat) : list nat :=
  (fun k => (k * step)%nat) <$> seq 0 ((stop + step - 1) / step)%nat.

(** [lst[i:i + n]]. *)
Definition slice {A : Type} (lst : list A) (i n : nat) : list A :=
  take n (drop i lst).

(** [services._chunked] (and [chunked] of the two tools), the generator
    read out as a list; [None] stands for the [ValueError] that [range]
    raises for a step of zero. *)
Definition _chunked {A : Type} (lst : list A) (n : nat) : option (list (list A)) :=
  match n with
  | O => None
  | S _ => Some ((fun i => slice lst i n) <$> range_step (length lst) n)
  end.

End Chunks.

(* ===================================================================== *)
(** * Retrying an API call *)
(* ===================================================================== *)

Module Retry.

Import Json.

(** What a call of the client hands back: plain data, or a tuple
    [(data, err, ...)]. *)
Inductive api_result : Type :=
| Plain (data : Json.t)
| Tuple (items : list Json.t).

(** [services._unpack_api_result], [JNull] for [None]. *)
Definition _unpack_api_result (result : api_result) : Json.t * Json.t :=
  match result with
  | Tuple items =>
      (match items with
       | d :: _ => d
       | [] => JNull
       end,
       match items with
       | _ :: e :: _ => e
       | _ => JNull
       end)
  | Plain data => (data, JNull)
  end.

(** What [_call_with_retry] did: what it returned ([None] for Python's
    [None]), how many times it called the factory, and the delays it slept,
    in order. *)
Record retry_run : Type := mk_retry_run {
  returned : option api_result;
  calls : nat;
  slept : list Q
}.

(** [min(delay * 2, 6.0)]. *)
Definition next_delay (delay : Q) : Q :=
  if Qle_bool (delay * 2) 6 then delay * 2 else 6.

Section WithFactory.

(** [coro_factory]: what awaiting its [k]-th coroutine gives (counting
    from zero), a result or an exception. *)
Variable coro_factory : nat -> Nexon.result api_result.

(** The [for] loop of [_call_with_retry] with [n] turns left. *)
Fixpoint retry_loop (n : nat) (k : nat) (delay : Q) (sleeps : list Q) : retry_run :=
  match n with
  | O => mk_retry_run None k sleeps
  | S n' =>
      let success :=
        match coro_factory k with
        | Nexon.Ok res =>
            match (_unpack_api_result res).1 with
            | JNull => None
            | _ => Some res
            end
        | Nexon.Raised _ => None
        end in
      match success with
      | Some res => mk_retry_run (Some res) (S k) sleeps
      | None =>
          retry_loop n' (S k) (next_delay delay) (sleeps ++ [delay])
      end
  end.

(** [services._call_with_retry]. *)
Definition _call_with_retry (retries : Z) (base_delay : Q) : retry_run :=
  retry_loop (Z.to_nat (Z.max 1 retries)) 0 base_delay [].

(** The delays of [i] failed attempts in a row, from [delay] on. *)
Fixpoint backoff (delay : Q) (i : nat) : list Q :=
  match i with
  | O => []
  | S i' => delay :: backoff (next_delay delay) i'
  end.

(** The [k]-th call gave data. *)
Definition succeeds (k : nat) : Prop :=
  exists res, coro_factory k = Nexon.Ok res /\ (_unpack_api_result res).1 <> JNull.

End WithFactory.

End Retry.

(* ===================================================================== *)
(** * Applying a block list to the database *)
(* ===================================================================== *)

Module Purge.

Import PyStr Chunks Nexon.

(** The order of [sorted] on [str]: by code points, which on UTF-8 text is
    the order of the bytes. *)
Definition str_le (a b : string) : Prop := String.leb a b = true.

#[global] Instance str_le_dec : RelDecision str_le.
Proof. intros a b. unfold str_le. apply _. Defined.

(** [sorted(set(...))]. *)
Definition sorted_set (s : gset string) : list string :=
  merge_sort str_le (elements s).

(** [_chunked(lst, 500)]. *)
Definition chunks_500 (lst : list string) : list (list string) :=
  default [] (_chunked lst 500).

(** [DELETE FROM t WHERE ocid IN (chunk)] on a table whose key holds the
    [ocid]. *)
Definition delete_ocids {K V : Type} `{Countable K} (ocid_of : K -> string)
    (chunk : list string) (t : gmap K V) : gmap K V :=
  filter (fun kv => ocid_of kv.1 ∉ chunk) t.

Section WithColumns.

(** The columns of the history tables beside their keys; the functions
    of this module never read them. *)
Variables stats_cols power_cols best_cols equip_cols items_cols : Type.

(** The tables of [db.init_db] that the list functions touch, each under
    its primary key: [character_list] under (character_name, world_name),
    [characters], [character_power_summary] and
    [character_item_equipment_best] under ocid, [character_stats] under
    (ocid, stat_date, stat_name), [character_item_equipment] under
    (ocid, equip_date), [character_equipment_items] under
    (ocid, item_equipment_part, item_equipment_slot, item_name). *)
Record database : Type := mk_database {
  character_list : gset (string * string);
  characters : Characters.table;
  character_stats : gmap (string * (string * string)) stats_cols;
  character_power_summary : gmap string power_cols;
  character_item_equipment_best : gmap string best_cols;
  character_item_equipment : gmap (string * string) equip_cols;
  character_equipment_items : gmap (string * (string * string * string)) items_cols
}.

(** The dict that [purge_or_skip_blacklisted] returns; [at_] is [None]
    where the dict has no key [at]. *)
Record purge_result : Type := mk_purge_result {
  r_world : string;
  matched : Z;
  r_mode : string;
  deleted : Z;
  skipped : Z;
  at_ : option string;
  matched_names_sample : list string
}.

(** [SELECT character_name FROM character_list WHERE world_name=? AND
    character_name IN (chunk)]; the rows come in the order of the chunk. *)
Definition select_listed (world : string) (db : database) (chunk : list string)
    : list string :=
  filter (fun nm => (nm, world) ∈ character_list db) chunk.

(** [SELECT ocid FROM characters WHERE world_name=? AND character_name IN
    (chunk)], with the filter [if r and r[0]] of the caller; a [NULL]
    column satisfies neither condition. *)
Definition select_ocids (world : string) (db : database) (chunk : list string)
    : list string :=
  omap (fun kv : string * Characters.row =>
          if bool_decide (Characters.world_name kv.2 = Some world)
             && match Characters.character_name kv.2 with
                | Some nm => bool_decide (nm ∈ chunk)
                | None => false
                end
             && negb (bool_decide (kv.1 = ""))
          then Some kv.1 else None)
       (map_to_list (characters db)).

(** The five [DELETE ... WHERE ocid IN (chunk)] statements of one turn of
    the last loop. *)
Definition delete_chunk (delete_equip_history : bool) (db : database)
    (chunk : list string) : database :=
  mk_database
    (character_list db)
    (delete_ocids id chunk (characters db))
    (delete_ocids fst chunk (character_stats db))
    (delete_ocids id chunk (character_power_summary db))
    (delete_ocids id chunk (character_item_equipment_best db))
    (if delete_equip_history
     then delete_ocids fst chunk (character_item_equipment db)
     else character_item_equipment db)
    (character_equipment_items db).

(** [services.purge_or_skip_blacklisted], with [now] for
    [datetime.now().isoformat()].  Every path that writes ends in a
    commit, so the database after the call is the one the statements
    left. *)
Definition purge_or_skip_blacklisted (now world : string)
    (blacklisted_names : gset string) (mode : string)
    (delete_equip_history : bool) (return_names_limit : Z) (db : database)
    : result (database * purge_result) :=
  let mode := lower (strip mode) in
  if negb (bool_decide (mode = "skip" \/ mode = "purge")) then
    Raised (Exception "ValueError" "mode must be 'skip' or 'purge'")
  else if decide (blacklisted_names = ∅) then
    Ok (db, mk_purge_result world 0 mode 0 0 None [])
  else
    let blacklisted_list :=
      sorted_set (filter (fun x => x <> "") (set_map strip blacklisted_names)) in
    match blacklisted_list with
    | [] => Ok (db, mk_purge_result world 0 mode 0 0 (Some now) [])
    | _ =>
        let matched_names :=
          sorted_set
            (list_to_set
               (concat (select_listed world db <$> chunks_500 blacklisted_list))) in
        match matched_names with
        | [] => Ok (db, mk_purge_result world 0 mode 0 0 (Some now) [])
        | _ =>
            let db :=
              mk_database
                (character_list db
                   ∖ list_to_set ((fun nm => (nm, world)) <$> matched_names))
                (characters db) (character_stats db)
                (character_power_summary db)
                (character_item_equipment_best db)
                (character_item_equipment db)
                (character_equipment_items db) in
            let sample :=
              take (Z.to_nat (Z.max 0 return_names_limit)) matched_names in
            let n := Z.of_nat (length matched_names) in
            if decide (mode = "skip") then
              Ok (db, mk_purge_result world n mode 0 n (Some now) sample)
            else
              let ocids :=
                sorted_set
                  (list_to_set
                     (concat (select_ocids world db <$> chunks_500 matched_names))) in
              let db :=
                foldl (delete_chunk delete_equip_history) db (chunks_500 ocids) in
              Ok (db, mk_purge_result world n mode n 0 (Some now) sample)
        end
    end.

(** The names that a call looks for: the stripped, non-empty names of
    the block list. *)
Definition wanted (blacklisted_names : gset string) (nm : string) : Prop :=
  nm <> "" /\ exists x, x ∈ blacklisted_names /\ nm = strip x.

(** The profiles that a purge deletes: those of the world whose name is
    wanted and on the character list, under a non-empty ocid. *)
Definition purged (world : string) (blacklisted_names : gset string)
    (db : database) (k : string) : Prop :=
  k <> ""
  /\ exists r nm,
       characters db !! k = Some r
       /\ Characters.world_name r = Some world
       /\ Characters.character_name r = Some nm
       /\ wanted blacklisted_names nm
       /\ (nm, world) ∈ character_list db.

End WithColumns.

Arguments character_list {_ _ _ _ _} _.
Arguments characters {_ _ _ _ _} _.
Arguments character_stats {_ _ _ _ _} _.
Arguments character_power_summary {_ _ _ _ _} _.
Arguments character_item_equipment_best {_ _ _ _ _} _.
Arguments character_item_equipment {_ _ _ _ _} _.
Arguments character_equipment_items {_ _ _ _ _} _.
Arguments mk_database {_ _ _ _ _} _ _ _ _ _ _ _.
Arguments purge_or_skip_blacklisted {_ _ _ _ _} _ _ _ _ _ _ _.
Arguments purged {_ _ _ _ _} _ _ _ _.

(** Table [t'] is table [t] without the rows whose ocid satisfies [P]. *)
Definition loses_rows {K V : Type} `{Countable K} (ocid_of : K -> string)
    (P : string -> Prop) (t t' : gmap K V) : Prop :=
  forall k, (P (ocid_of k) -> t' !! k = None)
            /\ (~ P (ocid_of k) -> t' !! k = t !! k).

(** The call of [sync_blacklist_incremental]: the database after it and
    [int(out.get("matched") or 0)], or nothing when it raises. *)
Definition apply_block_list {stats_cols power_cols best_cols equip_cols
    items_cols : Type} (now world mode : string) (delete_equip_history : bool)
    (return_names_limit : Z)
    (db : database stats_cols power_cols best_cols equip_cols items_cols)
    (names : gset string)
    : option (database stats_cols power_cols best_cols equip_cols items_cols * Z) :=
  match purge_or_skip_blacklisted now world names mode delete_equip_history
          return_names_limit db with
  | Ok (db', r) => Some (db', matched r)
  | Raised _ => None
  end.

End Purge.

(* ===================================================================== *)
(** * Expanding guilds into the character list *)
(* ===================================================================== *)

Module Guilds.

Import PyStr Json Nexon Retry.

(** [type(v).__name__] of a decoded JSON value. *)
Definition type_name (v : Json.t) : string :=
  match v with
  | JNull => "NoneType"
  | JBool _ => "bool"
  | JInt _ => "int"
  | JFloat _ => "float"
  | JStr _ => "str"
  | JArr _ => "list"
  | JObj _ => "dict"
  end.

(** [v.get(k)]: only a [dict] has the method. *)
Definition py_get (v : Json.t) (k : string) : result Json.t :=
  match v with
  | JObj d => Ok (default JNull (dict_get k d))
  | _ => Raised (Exception "AttributeError"
                   ("'" +:+ type_name v +:+ "' object has no attribute 'get'"))
  end.

(** A byte that continues a UTF-8 sequence. *)
Definition is_continuation (b : ascii) : bool :=
  ((128 <=? N_of_ascii b) && (N_of_ascii b <? 192))%N.

(** The characters of a [str], each as a [str] of its own: a sequence
    ends where the next byte starts one. *)
Fixpoint chars_from (cur : string) (s : string) : list string :=
  match s with
  | EmptyString => [cur]
  | String b s' =>
      if is_continuation b then chars_from (cur +:+ String b EmptyString) s'
      else cur :: chars_from (String b EmptyString) s'
  end.

Definition chars (s : string) : list string :=
  match s with
  | EmptyString => []
  | String b s' => chars_from (String b EmptyString) s'
  end.

(** [for x in v]: the items of a list, the keys of a dict, the
    characters of a str; nothing else iterates. *)
Definition iterate (v : Json.t) : result (list Json.t) :=
  match v with
  | JArr l => Ok l
  | JObj d => Ok (JStr <$> dict_keys d)
  | JStr s => Ok (JStr <$> chars s)
  | _ => Raised (Exception "TypeError"
                   ("'" +:+ type_name v +:+ "' object is not iterable"))
  end.

(** The dict that [expand_guilds_to_character_list] returns; an error is
    the guild name with its reason. *)
Record expand_report : Type := mk_expand_report {
  added : Z;
  errors : list (string * string)
}.

(** What the two lookups of one guild give. *)
Inductive guild_lookup : Type :=
| Members (members : list Json.t)
| Failed (reason : string).

Section WithClient.

Variable api_key : string.
Variable container_str : Json.t -> string.
Variable sess : session.

(** The head of the loop body, up to the member list. *)
Definition lookup_guild (guild_name world : string) : result guild_lookup :=
  bind (get_guild_id api_key sess guild_name world) (fun gid_res =>
  let gid := (_unpack_api_result (Plain gid_res)).1 in
  if negb (truthy gid) then Ok (Failed "無法取得 oguild_id")
  else
    bind (py_get gid "oguild_id") (fun oguild_id =>
    if negb (truthy oguild_id) then Ok (Failed "無法取得 oguild_id")
    else
      bind (match oguild_id with
            | JStr s => get_guild_basic api_key sess s
            | _ => Raised (Exception "TypeError"
                             "quote_from_bytes() expected bytes")
            end) (fun gb_res =>
      let gb := (_unpack_api_result (Plain gb_res)).1 in
      bind (py_get (py_or gb (JObj [])) "guild_member") (fun m =>
      let members := py_or m (JArr []) in
      if negb (truthy members) then Ok (Failed "無法取得公會成員清單")
      else bind (iterate members) (fun l => Ok (Members l)))))).

(** One member: [INSERT OR IGNORE] and the count of the rows it
    inserted. *)
Definition add_member (world : string) (st : gset (string * string) * Z)
    (name : Json.t) : gset (string * string) * Z :=
  let name := strip (Selector.py_str container_str (py_or name (JStr ""))) in
  if decide (name = "") then st
  else if decide ((name, world) ∈ st.1) then st
  else ({[ (name, world) ]} ∪ st.1, st.2 + 1).

(** The loop over the guilds, on the committed character list. *)
Fixpoint expand_loop (guild_names : list string) (world : string)
    (character_list : gset (string * string)) (total_added : Z)
    (errs : list (string * string))
    : gset (string * string) * result expand_report :=
  match guild_names with
  | [] => (character_list, Ok (mk_expand_report total_added errs))
  | guild_name :: rest =>
      match lookup_guild guild_name world with
      | Raised e => (character_list, Raised e)
      | Ok (Failed reason) =>
          expand_loop rest world character_list total_added
            (errs ++ [(guild_name, reason)])
      | Ok (Members members) =>
          let st := foldl (add_member world) (character_list, total_added)
                      members in
          expand_loop rest world st.1 st.2 errs
      end
  end.

(** [services.expand_guilds_to_character_list]: the character list it
    leaves committed, and what it returns or raises.  The progress
    callback is left out. *)
Definition expand_guilds_to_character_list (guild_names : list string)
    (world : string) (character_list : gset (string * string))
    : gset (string * string) * result expand_report :=
  expand_loop guild_names world character_list 0 [].

End WithClient.

(** ** Vocabulary of the statements about an expansion *)

(** The list after [st] grew out of the list before: it holds every old
    entry, each new entry is a non-empty name of the world, and the
    counter went up by the number of new entries. *)
Definition grown (world : string) (before after : gset (string * string) * Z)
    : Prop :=
  before.1 ⊆ after.1
  /\ (forall p, p ∈ after.1 -> p ∉ before.1 -> p.2 = world /\ p.1 <> "")
  /\ Z.of_nat (size after.1) - after.2 = Z.of_nat (size before.1) - before.2.

(** Two results that differ in the count at most. *)
Definition same_errors (o1 o2 : result expand_report) : Prop :=
  match o1, o2 with
  | Ok r1, Ok r2 => errors r1 = errors r2
  | Raised e1, Raised e2 => e1 = e2
  | _, _ => False
  end.

End Guilds.

(* ===================================================================== *)
(** * Fetching one day of the block list *)
(* ===================================================================== *)

Module Fetcher.

Import PyStr Json Nexon Chunks Guilds.

(** [v[0]] on a value that is true. *)
Definition py_first (v : Json.t) : result Json.t :=
  match v with
  | JArr (x :: _) => Ok x
  | JArr [] => Raised (Exception "IndexError" "list index out of range")
  | JStr s =>
      match chars s with
      | c :: _ => Ok (JStr c)
      | [] => Raised (Exception "IndexError" "string index out of range")
      end
  | JObj _ => Raised (Exception "KeyError" "0")
  | _ => Raised (Exception "TypeError"
                   ("'" +:+ type_name v +:+ "' object is not subscriptable"))
  end.

Section WithSite.

(** [int(s)] of a [str] and [int(f)] of a [float]. *)
Variable int_of_str : string -> result Z.
Variable int_of_float : pyfloat -> result Z.

(** [math.ceil(n / 100)] beyond the integers that a float holds
    exactly. *)
Variable ceil_div_100_big : Z -> result Z.

(** [BlacklistClient.init]: the token and the server id, both
    non-empty, or an exception. *)
Variable init : result (string * string).

(** [post(page)] of [fetch_all_for_date] under the tokens and the block
    date: the decoded body, or the exception of the request, of a status
    of 400 or more, or of the decoding. *)
Variable post : string * string -> string -> Z -> result Json.t.

(** [int(v)]. *)
Definition py_int (v : Json.t) : result Z :=
  match v with
  | JInt z => Ok z
  | JBool b => Ok (if b then 1 else 0)
  | JFloat f => int_of_float f
  | JStr s => int_of_str s
  | _ => Raised (Exception "TypeError"
                   ("int() argument must be a string, a bytes-like object "
                    +:+ "or a real number, not '" +:+ type_name v +:+ "'"))
  end.

(** [math.ceil(n / 100)]: the quotient is a float, and for an [n] that
    a float holds exactly its ceiling is the ceiling of the exact
    quotient. *)
Definition ceil_div_100 (n : Z) : result Z :=
  if decide (- 2 ^ 53 < n < 2 ^ 53) then Ok (- ((- n) / 100))
  else ceil_div_100_big n.

(** The loop over the pages from the second on. *)
Fixpoint fetch_pages (tokens : string * string) (block_date : string)
    (pages : list Z) (out : list Json.t) : result (list Json.t) :=
  match pages with
  | [] => Ok out
  | p :: rest =>
      bind (post tokens block_date p) (fun d =>
      bind (py_get d "listData") (fun v =>
      bind (iterate (py_or v (JArr []))) (fun l =>
      fetch_pages tokens block_date rest (out ++ l))))
  end.

(** [BlacklistClient.fetch_all_for_date] on the tokens the client holds
    ([None] before [init]): the tokens it holds afterwards and the rows
    or the exception.  The pause after each request is left out. *)
Definition fetch_all_for_date (tokens : option (string * string))
    (block_date : string)
    : option (string * string) * result (list Json.t) :=
  let ready :=
    match tokens with
    | Some t => Ok t
    | None => init
    end in
  match ready with
  | Raised e => (tokens, Raised e)
  | Ok t =>
      (Some t,
       bind (post t block_date 1) (fun first =>
       bind (py_get first "listData") (fun v =>
       let data := py_or v (JArr []) in
       if negb (truthy data) then Ok []
       else
         bind (py_first data) (fun row =>
         bind (py_get row "totalNum") (fun tn =>
         bind (py_int (py_or tn (JInt 0))) (fun total_num =>
         bind (ceil_div_100 total_num) (fun c =>
         let total_pages := Z.max 1 c in
         bind (iterate data) (fun out =>
         fetch_pages t block_date (seqZ 2 (total_pages - 1)) out))))))))
  end.

(** The site holds [rows] for the block date and serves them in pages
    of a hundred. *)
Definition serves (tokens : string * string) (block_date : string)
    (rows : list Json.t) : Prop :=
  forall p, 1 <= p ->
    exists d,
      post tokens block_date p = Ok (JObj d)
      /\ dict_get "listData" d
         = Some (JArr (slice rows (100 * Z.to_nat (p - 1)) 100)).

(** The first row announces the number of rows. *)
Definition announces_total (rows : list Json.t) : Prop :=
  match rows with
  | [] => True
  | JObj d :: _ => dict_get "totalNum" d = Some (JInt (Z.of_nat (length rows)))
  | _ => False
  end.

End WithSite.

End Fetcher.

(* ===================================================================== *)
(** * Checking the character list against the API *)
(* ===================================================================== *)

Module Validate.

Import PyStr Json Nexon Retry Guilds Purge.

(** An entry of the list [invalid]; [inv_ocid] is [None] where the dict
    has no key [ocid]. *)
Record invalid_entry : Type := mk_invalid_entry {
  inv_name : string;
  inv_ocid : option string;
  inv_reason : string
}.

(** An entry of the list [renamed]. *)
Record renamed_entry : Type := mk_renamed_entry {
  old_name : string;
  new_name : string;
  ren_ocid : string
}.

(** The dict that [validate_and_purge_character_list] returns. *)
Record validate_report : Type := mk_validate_report {
  v_world : string;
  v_dry_run : bool;
  total : Z;
  ok : Z;
  invalid_count : Z;
  renamed_count : Z;
  invalid : list invalid_entry;
  renamed : list renamed_entry;
  note : string
}.

Definition NOTE : string := "invalid/renamed 僅回傳前 5000 筆避免 UI 過大".

(** What the checks of one name give: an entry for [invalid], or the
    ocid and the stripped name of the profile. *)
Inductive verdict : Type :=
| Invalid (e : invalid_entry)
| Valid (ocid new_name : string).

(** [UPDATE characters SET character_name=?, world_name=?, updated_at=?
    WHERE ocid=?]. *)
Definition rename_profile (ocid name world now : string)
    (t : Characters.table) : Characters.table :=
  match t !! ocid with
  | None => t
  | Some r =>
      <[ocid :=
          Characters.mk_row (Characters.ocid r) (Some name) (Some world)
            (Characters.character_gender r) (Characters.character_class r)
            (Characters.character_class_level r) (Characters.character_level r)
            (Characters.character_exp r) (Characters.character_exp_rate r)
            (Characters.character_guild_name r) (Characters.character_image r)
            (Characters.character_date_create r)
            (Characters.liberation_quest_clear r) (Characters.access_flag r)
            (Some now)]> t
  end.

Section WithClient.

Variable api_key : string.
Variable container_str : Json.t -> string.
Variable sess : session.

(** [datetime.now().isoformat()] at the rename of the name at a
    position of the list. *)
Variable now_at : nat -> string.

Variables stats_cols power_cols best_cols equip_cols items_cols : Type.

Local Abbreviation database :=
  (database stats_cols power_cols best_cols equip_cols items_cols).

(** The checks of the loop body on one name. *)
Definition check_name (treat_access_flag_false_as_invalid : bool)
    (name : string) : result verdict :=
  bind (get_ocid api_key sess name) (fun ocid_res =>
  let '(ocid_json, err) := _unpack_api_result (Plain ocid_res) in
  let not_found :=
    Ok (Invalid (mk_invalid_entry name None
                   ("ocid_not_found:"
                    +:+ Selector.py_str container_str
                          (py_or err (JStr "unknown"))))) in
  if truthy err || negb (truthy ocid_json) then not_found
  else
    bind (py_get ocid_json "ocid") (fun ocid_v =>
    if negb (truthy ocid_v) then not_found
    else
      match ocid_v with
      | JStr ocid =>
          bind (get_basic api_key sess ocid) (fun basic_res =>
          let '(basic_json, errb) := _unpack_api_result (Plain basic_res) in
          if truthy errb || negb (truthy basic_json) then
            Ok (Invalid (mk_invalid_entry name (Some ocid)
                           ("basic_not_found:"
                            +:+ Selector.py_str container_str
                                  (py_or errb (JStr "unknown")))))
          else
            bind (py_get basic_json "access_flag") (fun flag_v =>
            let access_flag :=
              Characters._as_access_flag
                (Some (Selector.py_str container_str
                         (py_or flag_v (JStr "")))) in
            if treat_access_flag_false_as_invalid
               && negb (access_flag =? 1) then
              Ok (Invalid (mk_invalid_entry name (Some ocid)
                             "access_flag_false"))
            else
              bind (py_get basic_json "character_name") (fun name_v =>
              match py_or name_v (JStr "") with
              | JStr s => Ok (Valid ocid (strip s))
              | v => Raised (Exception "AttributeError"
                               ("'" +:+ type_name v
                                +:+ "' object has no attribute 'strip'"))
              end)))
      | _ => Raised (Exception "TypeError"
                       "quote_from_bytes() expected bytes")
      end)).

(** The three statements of a rename. *)
Definition apply_rename (world name new_name ocid now : string)
    (db : database) : database :=
  mk_database
    ({[ (new_name, world) ]} ∪ (character_list db ∖ {[ (name, world) ]}))
    (rename_profile ocid new_name world now (characters db))
    (character_stats db) (character_power_summary db)
    (character_item_equipment_best db) (character_item_equipment db)
    (character_equipment_items db).

(** The state of the loop: the open connection's view of the database
    and the three accumulators. *)
Record loop_state : Type := mk_loop_state {
  working : database;
  acc_invalid : list invalid_entry;
  acc_renamed : list renamed_entry;
  acc_ok : Z
}.

(** The loop over the names, from position [i] on. *)
Fixpoint check_names (dry_run treat_access_flag_false_as_invalid
    auto_fix_rename : bool) (world : string) (names : list string) (i : nat)
    (st : loop_state) : result loop_state :=
  match names with
  | [] => Ok st
  | name :: rest =>
      bind (check_name treat_access_flag_false_as_invalid name) (fun v =>
      let st :=
        match v with
        | Invalid e =>
            mk_loop_state (working st) (acc_invalid st ++ [e])
              (acc_renamed st) (acc_ok st)
        | Valid ocid new_name =>
            if auto_fix_rename
               && negb (bool_decide (new_name = ""))
               && negb (bool_decide (new_name = name))
            then
              mk_loop_state
                (if dry_run then working st
                 else apply_rename world name new_name ocid (now_at i)
                        (working st))
                (acc_invalid st)
                (acc_renamed st ++ [mk_renamed_entry name new_name ocid])
                (acc_ok st + 1)
            else
              mk_loop_state (working st) (acc_invalid st) (acc_renamed st)
                (acc_ok st + 1)
        end in
      check_names dry_run treat_access_flag_false_as_invalid auto_fix_rename
        world rest (S i) st)
  end.

(** The block after the loop, entered when the run is no dry run and a
    name is invalid. *)
Definition purge_invalid (purge_invalid_from_db delete_equip_history : bool)
    (world : string) (invalid : list invalid_entry) (db : database) : database :=
  let db :=
    mk_database
      (character_list db
         ∖ list_to_set ((fun x => (inv_name x, world)) <$> invalid))
      (characters db) (character_stats db) (character_power_summary db)
      (character_item_equipment_best db) (character_item_equipment db)
      (character_equipment_items db) in
  if purge_invalid_from_db then
    let ocids :=
      omap (fun x => match inv_ocid x with
                     | Some (String c s) => Some (String c s)
                     | _ => None
                     end) invalid in
    let missing_name :=
      omap (fun x => match inv_ocid x with
                     | Some (String _ _) => None
                     | _ => Some (inv_name x)
                     end) invalid in
    let ocids :=
      ocids ++ concat (select_ocids _ _ _ _ _ world db <$> chunks_500 missing_name) in
    let ocids :=
      sorted_set (list_to_set (filter (fun o => o <> "") ocids)) in
    foldl (delete_chunk _ _ _ _ _ delete_equip_history) db (chunks_500 ocids)
  else db.

(** [services.validate_and_purge_character_list]: the database that is
    committed when the call ends, and what it returns or raises.  The
    statements of the loop run on the second connection; only the block
    after the loop commits.  The progress callback is left out. *)
Definition validate_and_purge_character_list (world : string)
    (dry_run treat_access_flag_false_as_invalid auto_fix_rename
     purge_invalid_from_db delete_equip_history : bool) (db : database)
    : database * result validate_report :=
  let names :=
    sorted_set
      (list_to_set
         (omap (fun p : string * string =>
                  if decide (p.2 = world) then Some p.1 else None)
               (elements (character_list db)))) in
  match check_names dry_run treat_access_flag_false_as_invalid auto_fix_rename
          world names 0 (mk_loop_state db [] [] 0) with
  | Raised e => (db, Raised e)
  | Ok st =>
      let committed :=
        if negb dry_run && negb (bool_decide (acc_invalid st = [])) then
          purge_invalid purge_invalid_from_db delete_equip_history world
            (acc_invalid st) (working st)
        else db in
      (committed,
       Ok (mk_validate_report world dry_run (Z.of_nat (length names))
             (acc_ok st) (Z.of_nat (length (acc_invalid st)))
             (Z.of_nat (length (acc_renamed st)))
             (take 5000 (acc_invalid st)) (take 5000 (acc_renamed st)) NOTE))
  end.

End WithClient.

End Validate.

(* ===================================================================== *)
(** * The backfill tool *)
(* ===================================================================== *)

Module Backfill.

Import PyStr Json Nexon Chunks Guilds.

(** [tools_basic_backfill.delete_from_character_list]: the character
    list that is committed and the count that is returned. *)
Definition delete_from_character_list (world : string) (names : list string)
    (character_list : gset (string * string)) : gset (string * string) * Z :=
  match names with
  | [] => (character_list, 0)
  | _ =>
      foldl (fun (st : gset (string * string) * Z) ch =>
               (st.1 ∖ list_to_set ((fun nm => (nm, world)) <$> ch),
                st.2 + Z.of_nat (length ch)))
            (character_list, 0) (default [] (_chunked names 500))
  end.

(** ** The pending list *)

(** [(v or "").strip()]. *)
Definition strip_or_empty (v : Json.t) : result string :=
  match py_or v (JStr "") with
  | JStr s => Ok (strip s)
  | w => Raised (Exception "AttributeError"
                   ("'" +:+ type_name w +:+ "' object has no attribute 'strip'"))
  end.

(** An entry of the dict [m] of [merge_pending], by its five keys. *)
Record entry : Type := mk_entry {
  e_name : string;
  attempts : Z;
  last_reason : Json.t;
  last_error : Json.t;
  last_checked_at : Json.t
}.

Section WithInt.

(** [int(s)] of a [str] and [int(f)] of a [float]. *)
Variable int_of_str : string -> result Z.
Variable int_of_float : pyfloat -> result Z.

Local Abbreviation py_int := (Fetcher.py_int int_of_str int_of_float).

(** One turn of the first loop of [merge_pending]. *)
Definition put_old (m : gmap string entry) (it : Json.t)
    : result (gmap string entry) :=
  bind (py_get it "character_name") (fun v =>
  bind (strip_or_empty v) (fun nm =>
  if decide (nm = "") then Ok m
  else
    bind (py_get it "attempts") (fun a =>
    bind (py_int (py_or a (JInt 0))) (fun att =>
    bind (py_get it "last_reason") (fun r =>
    bind (py_get it "last_error") (fun er =>
    bind (py_get it "last_checked_at") (fun c =>
    Ok (<[nm := mk_entry nm att r er c]> m)))))))).

(** One turn of the second loop. *)
Definition put_update (m : gmap string entry) (ku : string * Json.t)
    : result (gmap string entry) :=
  let nm := strip ku.1 in
  if decide (nm = "") then Ok m
  else
    let e := default (mk_entry nm 0 JNull JNull JNull) (m !! nm) in
    bind (py_get ku.2 "attempts_inc") (fun i =>
    bind (py_int (py_or i (JInt 0))) (fun inc =>
    bind (py_get ku.2 "last_reason") (fun r =>
    bind (py_get ku.2 "last_error") (fun er =>
    bind (py_get ku.2 "last_checked_at") (fun c =>
    Ok (<[nm := mk_entry (e_name e) (attempts e + inc) r er c]> m)))))).

(** A loop that stops at the first turn that raises. *)
Fixpoint fold_result {A S : Type} (f : S -> A -> result S) (s : S)
    (l : list A) : result S :=
  match l with
  | [] => Ok s
  | x :: l' => bind (f s x) (fun s' => fold_result f s' l')
  end.

(** [sorted(m.values(), key=lambda x: x["character_name"])]: the keys
    of [m] are the names of its entries and differ from each other. *)
Definition sorted_entries (m : gmap string entry) : list entry :=
  omap (fun nm => m !! nm) (Purge.sorted_set (dom m)).

(** [tools_basic_backfill.merge_pending]; the dict [updates] is given
    by its items. *)
Definition merge_pending (old_items : list Json.t)
    (updates : list (string * Json.t)) : result (list entry) :=
  bind (fold_result put_old ∅ old_items) (fun m =>
  bind (fold_result put_update m updates) (fun m =>
  Ok (sorted_entries m))).

End WithInt.

(** The entry under a name in a list of entries. *)
Fixpoint entry_of (nm : string) (l : list entry) : option entry :=
  match l with
  | [] => None
  | e :: l' => if decide (e_name e = nm) then Some e else entry_of nm l'
  end.

(** The attempts counted so far under a name, 0 when it has no entry. *)
Definition attempts_of (nm : string) (l : list entry) : Z :=
  default 0 (attempts <$> entry_of nm l).

(** The keys of [m] are the names of its entries, none of them empty. *)
Definition keyed (m : gmap string entry) : Prop :=
  forall k e, m !! k = Some e -> e_name e = k /\ k <> "".

End Backfill.

(* ===================================================================== *)
(** * The requests of the client *)
(* ===================================================================== *)

Module Requests.

Import Nexon.

(** An operation as the client reads it: an empty date is no date
    ([if date_str]). *)
Definition effective (op : operation) : operation :=
  match op with
  | GetStat o (Some EmptyString) => GetStat o None
  | GetItemEquipment o (Some EmptyString) => GetItemEquipment o None
  | _ => op
  end.

(** The query of a request that takes an optional date, after the name
    of its first parameter. *)
Definition dated (ocid : string) (date_str : option string) : string :=
  match date_str with
  | Some (String c d) => quote ocid +:+ "&date=" +:+ quote (String c d)
  | _ => quote ocid
  end.

(** The characters that [quote] writes. *)
Definition url_safe (c : ascii) : Prop :=
  is_unreserved c = true \/ c = "%"%char.

End Requests.

(* ===================================================================== *)
(** * Further concrete inputs *)
(* ===================================================================== *)

Module Fixtures.

Import Json.

(** ** Retrying *)

(** A factory whose first two coroutines raise and whose later ones give
    data. *)
Definition flaky_factory (k : nat) : Nexon.result Retry.api_result :=
  if (k <? 2)%nat then Nexon.Raised (Nexon.Exception "TimeoutError" "")
  else Nexon.Ok (Retry.Plain (JInt 1)).

(** ** Freshness *)

(** A parser that knows one timestamp, 2025-12-10T08:00:00 (ordinal
    739595). *)
Definition today_timestamp (s : string) : option Clock.datetime :=
  if decide (s = "2025-12-10T08:00:00")
  then Some (Clock.mk_datetime 739595 8 0 0 0) else None.

(** ** The list sync *)

(** A site whose listing of 2025-12-09 (ordinal 739594) cannot be
    fetched. *)
Definition failing_site (day : Z) : option (list Blacklist.list_record) :=
  if decide (day = 739594) then None else Some [].

(** A site that lists one name every day, blocked for good. *)
Definition listing_site (day : Z) : option (list Blacklist.list_record) :=
  Some [Blacklist.mk_record " Bo " "bot" "2025/12/08" "2099/12/31"].

(** ** The database *)

(** A database with two listed characters of world [w], one of another
    world, and a profile with history for [Bo]; the history tables carry
    no further columns. *)
Definition sample_db : Purge.database unit unit unit unit unit :=
  Purge.mk_database
    {[ ("Aria", "w"); ("Bo", "w"); ("Bo", "v") ]}
    {[ "ocid-2" :=
         Characters.mk_row "ocid-2" (Some "Bo") (Some "w") None None None None
           None None None None None None None None ]}
    {[ ("ocid-2", ("2025-12-01", "戰鬥力")) := tt ]}
    {[ "ocid-2" := tt ]}
    {[ "ocid-2" := tt ]}
    {[ ("ocid-2", "2025-12-01") := tt ]}
    {[ ("ocid-2", ("帽子", "帽子", "Hat")) := tt ]}.

(** The state of a sync over this database, the cursor at 2025-12-07
    (ordinal 739592). *)
Definition sample_sync_state : ListSync.state (Purge.database unit unit unit unit unit) :=
  ListSync.mk_state {[ "w" := 739592 ]} sample_db [].

(** ** Guilds and the check of the list *)

(** What the API answers to every request: a body that serves as the
    guild id, the guild, the character id and the profile at once. *)
Definition one_body : Json.t :=
  JObj [ ("oguild_id", JStr "g-1");
         ("guild_member", JArr [JStr "Aria"; JStr " Cy "; JNull]);
         ("ocid", JStr "ocid-2");
         ("access_flag", JStr "true");
         ("character_name", JStr "Bo") ].

(** ** The pages of a day *)

(** Two rows that announce their number. *)
Definition sample_rows : list Json.t :=
  [ JObj [("totalNum", JInt 2); ("characterName", JStr "Bo")];
    JObj [("totalNum", JInt 2); ("characterName", JStr "Cy")] ].

(** A site that serves [sample_rows] in pages of a hundred. *)
Definition paging_site (tokens : string * string) (block_date : string)
    (page : Z) : Nexon.result Json.t :=
  Nexon.Ok (JObj [("listData",
                   JArr (Chunks.slice sample_rows
                           (100 * Z.to_nat (page - 1)) 100))]).

(** No parser of numbers is reached on these rows. *)
Definition no_int {A : Type} (x : A) : Nexon.result Z :=
  Nexon.Raised (Nexon.Exception "ValueError" "").

(** ** The snapshot selector *)

(** A record whose first preset shows no marker and whose second shows
    one; the badge is in the base list only. *)
Definition clean_first_equip : pydict :=
  [ ("item_equipment", JArr Samples.sample_base);
    ("item_equipment_preset_1",
     JArr [Samples.item "武器" "攻擊力"; Samples.item "帽子" "力量"]);
    ("item_equipment_preset_2",
     JArr [Samples.item "武器" "道具掉落率"; Samples.item "帽子" "力量"]) ].

(** ** The pending list *)

(** An old entry with two attempts, and an update of the same name. *)
Definition sample_pending : list Json.t :=
  [ JObj [("character_name", JStr " Bo "); ("attempts", JInt 2);
          ("last_reason", JStr "timeout")] ].

Definition sample_updates : list (string * Json.t) :=
  [ ("Bo", JObj [("attempts_inc", JInt 1);
                 ("last_reason", JStr "ocid_not_found")]) ].

End Fixtures.

(* ===================================================================== *)
(** * Properties of the availability rule *)
(* ===================================================================== *)

Module ClockSpec.

Import Clock.

(** Comparing a datetime with six o'clock of its own day only looks at
    the hour. *)
Lemma before_cutoff_iff_hour (now : datetime) :
  datetime_ltb now (combine (dt_date now) (mk_dtime 6 0 0)) = true
  <-> (dt_hour now < 6)%N.
Proof.
  unfold datetime_ltb, combine; cbn [dt_date dt_hour dt_minute dt_second
    dt_microsecond t_hour t_minute t_second].
  rewrite Z.ltb_irrefl, Z.eqb_refl; cbn [orb andb].
  destruct (N.ltb_spec (dt_hour now) 6) as [Hlt|Hge]; cbn [orb].
  - tauto.
  - split; [|lia].
    intros H. exfalso.
    apply andb_prop in H as [_ H].
    apply orb_prop in H as [H|H]; [apply N.ltb_lt in H; lia|].
    apply andb_prop in H as [_ H].
    apply orb_prop in H as [H|H]; [apply N.ltb_lt in H; lia|].
    apply andb_prop in H as [_ H].
    apply N.ltb_lt in H; lia.
Qed.

(** C8.  At an instant strictly before 06:00 local time the latest
    available listing day is today minus two days; at 06:00 or later it
    is today minus one day.  Both copies of the rule ([services] and
    [app]) agree. *)
Theorem latest_available_cutover (now : datetime) :
  ((dt_hour now < 6)%N ->
     _latest_available_block_date now = dt_date now - 2
     /\ latest_available_blacklist_date now = dt_date now - 2)
  /\ ((6 <= dt_hour now)%N ->
     _latest_available_block_date now = dt_date now - 1
     /\ latest_available_blacklist_date now = dt_date now - 1).
Proof.
  unfold _latest_available_block_date, latest_available_blacklist_date.
  pose proof (before_cutoff_iff_hour now) as Hc.
  destruct (datetime_ltb now (combine (dt_date now) (mk_dtime 6 0 0))) eqn:E.
  - assert (dt_hour now < 6)%N by (apply Hc; reflexivity).
    split; [tauto | intros; lia].
  - split; [|tauto].
    intros Hlt. apply Hc in Hlt. discriminate.
Qed.

(** 2025-12-10 05:59:59.999999 and 2025-12-10 06:00:00. *)
Lemma latest_available_cutover_witness :
  _latest_available_block_date (mk_datetime 739595 5 59 59 999999) = 739593
  /\ _latest_available_block_date (mk_datetime 739595 6 0 0 0) = 739594.
Proof.
  split.
  - apply (proj1 (latest_available_cutover (mk_datetime 739595 5 59 59 999999))).
    cbn. lia.
  - apply (proj2 (latest_available_cutover (mk_datetime 739595 6 0 0 0))).
    cbn. lia.
Defined.

End ClockSpec.

(* ===================================================================== *)
(** * Properties of the classification *)
(* ===================================================================== *)

Module BlacklistSpec.

Import PyStr Blacklist.

Section WithIsoParser.

Variable date_fromisoformat : string -> option Cal.date.

Local Abbreviation parse := (parse_ymd date_fromisoformat).
Local Abbreviation classify := (_classify date_fromisoformat).

Lemma permanent_test_iff (s : string) :
  _is_permanent_unblock_date s = true
  <-> exists y m d, match_ymd (strip s) = Some (y, m, d) /\ 2079 <= y.
Proof.
  unfold _is_permanent_unblock_date.
  destruct (decide (strip s = "")) as [E|E].
  - rewrite E. split; [discriminate|].
    intros (y & m & d & H & _). vm_compute in H. discriminate.
  - destruct (match_ymd (strip s)) as [[[y m] d]|].
    + rewrite bool_decide_eq_true. split.
      * intros Hy. exists y, m, d. auto.
      * intros (y' & m' & d' & H & Hy). congruence.
    + split; [discriminate|]. intros (y & m & d & H & _). discriminate.
Qed.

Lemma classify_permanent_iff (row : list_record) :
  classify row = Permanent
  <-> exists ud, parse (unBlockedDate row) = Some ud /\ 2079 <= Cal.year ud.
Proof.
  unfold _classify, is_permanent_unblock_date, is_7day_lock.
  destruct (parse (unBlockedDate row)) as [ud|].
  - case_bool_decide.
    + split; [eauto|reflexivity].
    + split.
      * destruct (parse (blockDate row)); [|discriminate].
        destruct (_ && _); discriminate.
      * intros (ud' & [= <-] & ?). lia.
  - split.
    + destruct (parse (blockDate row)); discriminate.
    + intros (ud' & [=] & _).
Qed.

Lemma classify_temporary_iff (row : list_record) :
  classify row = Temporary
  <-> exists bd ud,
        parse (blockDate row) = Some bd
        /\ parse (unBlockedDate row) = Some ud
        /\ Cal.year ud < 2079
        /\ 1 <= Cal.days_between ud bd <= 7.
Proof.
  unfold _classify, is_permanent_unblock_date, is_7day_lock.
  destruct (parse (unBlockedDate row)) as [ud|];
    destruct (parse (blockDate row)) as [bd|].
  - repeat case_bool_decide; cbn [andb]; split; intros Hx;
      try discriminate Hx; try reflexivity;
      try (destruct Hx as (? & ? & [= <-] & [= <-] & ? & ?); lia).
    exists bd, ud. repeat split; auto; lia.
  - case_bool_decide; split; intros Hx; try discriminate Hx;
      destruct Hx as (? & ? & [=] & _).
  - split; intros Hx; try discriminate Hx;
      destruct Hx as (? & ? & _ & [=] & _).
  - split; intros Hx; try discriminate Hx;
      destruct Hx as (? & ? & _ & [=] & _).
Qed.

(** C7.  A record is permanent exactly when its unblock date parses as
    year/month/day with a year of 2079 or more (for the pattern test of
    the fetcher and for the classification of the application); it is
    temporary exactly when both dates parse, the unblock year is below
    2079 and the span is 1 to 7 days; a record whose unblock date is
    empty or does not parse is in neither class.  The three boundary
    records of the specification are classified as it says. *)
Theorem classification_boundaries :
  (forall s, _is_permanent_unblock_date s = true
     <-> exists y m d, match_ymd (strip s) = Some (y, m, d) /\ 2079 <= y)
  /\ (forall row, classify row = Permanent
     <-> exists ud, parse (unBlockedDate row) = Some ud /\ 2079 <= Cal.year ud)
  /\ (forall row, classify row = Temporary
     <-> exists bd ud,
           parse (blockDate row) = Some bd
           /\ parse (unBlockedDate row) = Some ud
           /\ Cal.year ud < 2079
           /\ 1 <= Cal.days_between ud bd <= 7)
  /\ (forall row, parse (unBlockedDate row) = None -> classify row = Other)
  /\ (forall s, match_ymd (strip s) = None -> _is_permanent_unblock_date s = false)
  /\ parse "" = None
  /\ (forall n r, classify (mk_record n r "2025/01/01" "2025/01/08") = Temporary
                  /\ _is_permanent_unblock_date "2025/01/08" = false)
  /\ (forall n r, classify (mk_record n r "" "2079/01/01") = Permanent
                  /\ _is_permanent_unblock_date "2079/01/01" = true)
  /\ (forall n r, classify (mk_record n r "2025/01/01" "2025/03/01") = Other
                  /\ _is_permanent_unblock_date "2025/03/01" = false).
Proof.
  split; [exact permanent_test_iff|].
  split; [exact classify_permanent_iff|].
  split; [exact classify_temporary_iff|].
  split.
  { intros row H. unfold _classify, is_permanent_unblock_date, is_7day_lock.
    rewrite H. destruct (parse (blockDate row)); reflexivity. }
  split.
  { intros s H. unfold _is_permanent_unblock_date. rewrite H.
    destruct (decide _); reflexivity. }
  split; [reflexivity|].
  repeat split; vm_compute; reflexivity.
Qed.

End WithIsoParser.

(** A record with no unblock date, under an ISO parser that accepts
    nothing. *)
Lemma classification_boundaries_witness :
  _classify (fun _ => None) (mk_record "name" "reason" "2025/01/01" "") = Other.
Proof.
  apply (proj1 (proj2 (proj2 (proj2 (classification_boundaries (fun _ => None)))))).
  reflexivity.
Defined.

End BlacklistSpec.

(* ===================================================================== *)
(** * Properties of the staleness check *)
(* ===================================================================== *)

Module StalenessSpec.

Import Samples PyStr Staleness.

Section WithClock.

Variable datetime_fromisoformat : string -> option Clock.datetime.
Variable today : Z.

Local Abbreviation days_since := (_days_since datetime_fromisoformat today).
Local Abbreviation should_refresh :=
  (should_refresh_character datetime_fromisoformat today).

(** C10.  The entity is stale when no freshness timestamp is stored;
    when the stored timestamp does not parse as an ISO date-time, its
    age counts as 999999 days and the entity is stale for every
    threshold up to 999999; when it parses, the entity is stale exactly
    when the date of the timestamp lies [refresh_days] days or more
    before today. *)
Theorem should_refresh_character_spec
    (db : gmap string Characters.row) (ocid : string) (refresh_days : Z) :
  (_basic_updated_at db ocid = None \/ _basic_updated_at db ocid = Some "" ->
     should_refresh db ocid refresh_days = true)
  /\ (forall ts,
        _basic_updated_at db ocid = Some ts -> ts <> "" ->
        datetime_fromisoformat (replace_char "Z" "+00:00" ts) = None ->
        days_since ts = 999999
        /\ (refresh_days <= 999999 -> should_refresh db ocid refresh_days = true))
  /\ (forall ts dt,
        _basic_updated_at db ocid = Some ts -> ts <> "" ->
        datetime_fromisoformat (replace_char "Z" "+00:00" ts) = Some dt ->
        (should_refresh db ocid refresh_days = true
         <-> refresh_days <= today - Clock.dt_date dt)).
Proof.
  unfold should_refresh_character. split; [|split].
  - intros [-> | ->]; reflexivity.
  - intros ts Hts Hne Hparse. split.
    + unfold _days_since. rewrite Hparse. reflexivity.
    + intros Hle. rewrite Hts. destruct ts as [|c ts]; [congruence|].
      apply bool_decide_eq_true. unfold _days_since. rewrite Hparse. lia.
  - intros ts dt Hts Hne Hparse. rewrite Hts.
    destruct ts as [|c ts]; [congruence|].
    rewrite bool_decide_eq_true. unfold _days_since. rewrite Hparse. lia.
Qed.

End WithClock.

(** On 2025-12-10 (ordinal 739595): an entity without a row, one with an
    unreadable timestamp, and one refreshed nine days ago, all against a
    threshold of seven days. *)
Lemma should_refresh_character_spec_witness :
  should_refresh_character one_timestamp 739595 ∅ "a" 7 = true
  /\ should_refresh_character one_timestamp 739595
       {[ "a" := row_updated_at "a" "yesterday" ]} "a" 7 = true
  /\ should_refresh_character one_timestamp 739595
       {[ "a" := row_updated_at "a" "2025-12-01T08:00:00" ]} "a" 7 = true.
Proof.
  split; [|split].
  - apply (proj1 (should_refresh_character_spec one_timestamp 739595 ∅ "a" 7)).
    left. reflexivity.
  - apply (proj1 (proj2 (should_refresh_character_spec one_timestamp 739595
             {[ "a" := row_updated_at "a" "yesterday" ]} "a" 7)) "yesterday");
      [reflexivity | discriminate | reflexivity | lia].
  - apply (proj2 (proj2 (should_refresh_character_spec one_timestamp 739595
             {[ "a" := row_updated_at "a" "2025-12-01T08:00:00" ]} "a" 7))
             "2025-12-01T08:00:00" (Clock.mk_datetime 739586 8 0 0 0));
      [reflexivity | discriminate | reflexivity | cbn; lia].
Defined.

End StalenessSpec.

(* ===================================================================== *)
(** * Properties of the API client *)
(* ===================================================================== *)

Module NexonSpec.

Import Samples Json Nexon.

Section Client.

Variable api_key : string.

(** Every operation is the common tail applied to [_get_json] at the
    URL of the operation. *)
Lemma call_unfold (sess : session) (op : operation) :
  call api_key sess op = data_or_none (_get_json api_key sess (url_of op)).
Proof. destruct op as [n|o|o [[|c d]|]|g w|g|o [[|c d]|]]; reflexivity. Qed.

(** [_get_json] never raises. *)
Lemma _get_json_returns (sess : session) (url : string) :
  exists p, _get_json api_key sess url = Ok p.
Proof.
  unfold _get_json, try_except, bind.
  destruct (sess url (_headers api_key)) as [resp|e]; [|eauto].
  destruct (negb (status resp =? 200)).
  - destruct (text resp); eauto.
  - destruct (json resp); eauto.
Qed.

(** C6, as the code has it.  No operation of the client raises to its
    caller.  It returns [None] when the request raises (time-out,
    network failure), when the status is not 200, and when decoding the
    body raises; on status 200 with a decodable body it returns the
    decoded data when that is true in the Python sense and [None] when
    it is not (an empty object, an empty list, [null], zero, the empty
    string, false). *)
Theorem client_fails_soft (sess : session) (op : operation) :
  (forall e, call api_key sess op <> Raised e)
  /\ (forall e,
        sess (url_of op) (_headers api_key) = Raised e ->
        call api_key sess op = Ok JNull)
  /\ (forall resp,
        sess (url_of op) (_headers api_key) = Ok resp ->
        status resp <> 200 ->
        call api_key sess op = Ok JNull)
  /\ (forall resp e,
        sess (url_of op) (_headers api_key) = Ok resp ->
        status resp = 200 -> json resp = Raised e ->
        call api_key sess op = Ok JNull)
  /\ (forall resp data,
        sess (url_of op) (_headers api_key) = Ok resp ->
        status resp = 200 -> json resp = Ok data ->
        call api_key sess op = Ok (if truthy data then data else JNull)).
Proof.
  rewrite call_unfold. unfold data_or_none.
  split; [|split; [|split; [|split]]].
  - intros e. destruct (_get_json_returns sess (url_of op)) as [p ->].
    discriminate.
  - intros e He. unfold _get_json. rewrite He. reflexivity.
  - intros resp Hr Hs. unfold _get_json. rewrite Hr. cbn [bind try_except].
    apply Z.eqb_neq in Hs. rewrite Hs. cbn [negb].
    destruct (text resp); reflexivity.
  - intros resp e Hr Hs Hj. unfold _get_json. rewrite Hr. cbn [bind try_except].
    rewrite Hs, Hj. reflexivity.
  - intros resp data Hr Hs Hj. unfold _get_json. rewrite Hr.
    cbn [bind try_except]. rewrite Hs, Hj. reflexivity.
Qed.

End Client.

(** A profile with one field comes back as data. *)
Lemma client_fails_soft_witness :
  get_basic "key" (answers (JObj [("character_level", JInt 150)])) "ocid"
  = Ok (JObj [("character_level", JInt 150)]).
Proof.
  apply (proj2 (proj2 (proj2 (proj2
           (client_fails_soft "key" (answers (JObj [("character_level", JInt 150)]))
              (GetBasic "ocid")))))
           (mk_response 200 (Ok "") (Ok (JObj [("character_level", JInt 150)])))
           (JObj [("character_level", JInt 150)]));
    reflexivity.
Defined.

(** C6 as stated fails: a status 200 response whose body decodes to the
    empty object is not returned as data. *)
Lemma client_success_body_counterexample :
  ~ (forall api_key sess op resp data,
       sess (url_of op) (_headers api_key) = Ok resp ->
       status resp = 200 -> json resp = Ok data ->
       call api_key sess op = Ok data).
Proof.
  intros H.
  specialize (H "key" (answers (JObj [])) (GetBasic "ocid")
                (mk_response 200 (Ok "") (Ok (JObj []))) (JObj [])
                eq_refl eq_refl eq_refl).
  vm_compute in H. discriminate H.
Qed.

End NexonSpec.

(* ===================================================================== *)
(** * Properties of the profile upserts *)
(* ===================================================================== *)

Module CharactersSpec.

Import Samples Characters.

(** What either upsert leaves under the key it wrote. *)
Lemma upsert_lookup (set_clause : row -> row -> row) (excluded : row) (t : table) :
  upsert set_clause excluded t !! ocid excluded
  = Some (match t !! ocid excluded with
          | None => excluded
          | Some stored => set_clause stored excluded
          end).
Proof.
  unfold upsert. destruct (t !! ocid excluded); apply lookup_insert_eq.
Qed.

(** Every other row is left alone. *)
Lemma upsert_lookup_ne (set_clause : row -> row -> row) (excluded : row)
    (t : table) (k : string) :
  k <> ocid excluded -> upsert set_clause excluded t !! k = t !! k.
Proof.
  intros Hk. unfold upsert.
  destruct (t !! ocid excluded); apply lookup_insert_ne; congruence.
Qed.

(** The upsert of [write_basic_results] never lowers a stored level. *)
Lemma write_basic_results_level_monotone
    (k list_name world now : string) (b : basic) (t : table) (stored : row) :
  t !! k = Some stored ->
  exists l,
    stored_level (write_basic_results_write k list_name world now b t) k = Some l
    /\ default 0 (character_level stored) <= l.
Proof.
  intros Hs. unfold stored_level, write_basic_results_write.
  pose proof (upsert_lookup write_basic_results_set
                (write_basic_results_params k list_name world now b) t) as H.
  cbn [ocid write_basic_results_params] in H. rewrite H, Hs. clear H.
  cbn. unfold case_greater.
  case_decide; eexists; (split; [reflexivity|]); lia.
Qed.

(** Nor does the upsert of the light daemon, which also keeps a stored
    class that the profile lacks. *)
Lemma bootstrap_level_monotone
    (k name world now : string) (b : basic) (t : table) (stored : row) :
  t !! k = Some stored ->
  exists r,
    bootstrap_write k name world now b t !! k = Some r
    /\ (exists l, character_level r = Some l
                  /\ default 0 (character_level stored) <= l)
    /\ (b_character_class b = None -> character_class r = character_class stored).
Proof.
  intros Hs. unfold bootstrap_write.
  pose proof (upsert_lookup bootstrap_set
                (bootstrap_params k name world now b) t) as H.
  cbn [ocid bootstrap_params] in H. rewrite H, Hs. clear H.
  eexists. split; [reflexivity|]. cbn. split.
  - destruct (character_level stored); cbn; eexists; (split; [reflexivity|]); lia.
  - intros ->. reflexivity.
Qed.

(** The upsert of [update_characters] stores the incoming level, whatever
    is stored. *)
Lemma update_characters_level_overwritten
    (k name world now : string) (b : basic) (t : table) :
  stored_level (update_characters_write k name world now b t) k
  = Some (int_or_0 (b_character_level b)).
Proof.
  unfold stored_level, update_characters_write.
  pose proof (upsert_lookup update_characters_set
                (update_characters_params k name world now b) t) as H.
  cbn [ocid update_characters_params] in H. rewrite H. clear H.
  destruct (t !! k); reflexivity.
Qed.

(** The upsert of [write_basic_results] keeps a stored optional field
    when the profile lacks it. *)
Lemma write_basic_results_keeps_absent
    (k list_name world now : string) (b : basic) (t : table) (stored : row) :
  t !! k = Some stored ->
  exists r,
    write_basic_results_write k list_name world now b t !! k = Some r
    /\ (b_character_gender b = None -> character_gender r = character_gender stored)
    /\ (b_character_class b = None -> character_class r = character_class stored)
    /\ (b_character_exp_rate b = None ->
          character_exp_rate r = character_exp_rate stored)
    /\ (b_character_guild_name b = None ->
          character_guild_name r = character_guild_name stored)
    /\ (b_character_image b = None -> character_image r = character_image stored)
    /\ (b_character_date_create b = None ->
          character_date_create r = character_date_create stored).
Proof.
  intros Hs. unfold write_basic_results_write.
  pose proof (upsert_lookup write_basic_results_set
                (write_basic_results_params k list_name world now b) t) as H.
  cbn [ocid write_basic_results_params] in H. rewrite H, Hs. clear H.
  eexists. split; [reflexivity|].
  cbn. repeat split; intros ->; reflexivity.
Qed.

(** C2, at the failing input.  With level 200 stored and level 180
    incoming, the upsert of [update_characters] leaves 180 stored, while
    the upsert of [write_basic_results] keeps 200. *)
Theorem update_characters_lowers_level :
  stored_level table_200 "ocid-1" = Some 200
  /\ stored_level
       (update_characters_write "ocid-1" "Aria" "挑戰者" "2025-12-10T09:00:00"
          incoming_180 table_200) "ocid-1" = Some 180
  /\ stored_level
       (write_basic_results_write "ocid-1" "Aria" "挑戰者" "2025-12-10T09:00:00"
          incoming_180 table_200) "ocid-1" = Some 200.
Proof. repeat split; vm_compute; reflexivity. Qed.

(** C3, at the failing input.  With a class, a gender, an image, a guild
    name, a creation date and an exp rate stored and none of them in the
    incoming profile, the upsert of [update_characters] leaves the first
    five [NULL] and the rate 0, while the upsert of [write_basic_results]
    keeps all six. *)
Theorem update_characters_erases_absent_fields :
  (exists r,
     update_characters_write "ocid-1" "Aria" "挑戰者" "2025-12-10T09:00:00"
       incoming_180 table_200 !! "ocid-1" = Some r
     /\ character_class r = None
     /\ character_gender r = None
     /\ character_image r = None
     /\ character_guild_name r = None
     /\ character_date_create r = None
     /\ character_exp_rate r = Some 0%Q)
  /\ (exists r,
     write_basic_results_write "ocid-1" "Aria" "挑戰者" "2025-12-10T09:00:00"
       incoming_180 table_200 !! "ocid-1" = Some r
     /\ character_class r = character_class stored_200
     /\ character_gender r = character_gender stored_200
     /\ character_image r = character_image stored_200
     /\ character_guild_name r = character_guild_name stored_200
     /\ character_date_create r = character_date_create stored_200
     /\ character_exp_rate r = character_exp_rate stored_200).
Proof.
  split; eexists; (split; [vm_compute; reflexivity|]);
    repeat split; reflexivity.
Qed.

End CharactersSpec.

(* ===================================================================== *)
(** * Properties of the single writer *)
(* ===================================================================== *)

Module WriterSpec.

Import Samples Writer.

Section WithStore.

Variables (store intent : Type).
Variable execute : store -> intent -> option store.

Local Abbreviation apply_all := (Writer.apply_all store intent execute).

(** A failing intent leaves the state as it is. *)
Lemma apply_all_skip (db : store) (pre post : list intent) (bad : intent) :
  execute (apply_all db pre) bad = None ->
  apply_all db (pre ++ bad :: post) = apply_all db (pre ++ post).
Proof.
  intros Hbad. unfold Writer.apply_all. rewrite !foldl_app. cbn [foldl].
  unfold Writer.apply_all in Hbad. rewrite Hbad. reflexivity.
Qed.

(** The loop from any point at which nothing is pending or something
    is: up to the sentinel every intent is applied or passed over, and
    the sentinel leaves nothing uncommitted. *)
Lemma writer_loop_stops (db_batch : Z) (intents : list intent)
    (rest : list (option intent)) :
  forall (c : connection store) (pending : Z),
    0 <= pending ->
    (pending = 0 -> committed c = working c) ->
    writer_loop store intent execute db_batch c pending
      (map Some intents ++ None :: rest)
    = Stopped (mk_connection store (apply_all (working c) intents)
                                   (apply_all (working c) intents)).
Proof.
  induction intents as [|it intents IH]; intros c pending Hp Hc.
  - cbn. case_decide as Hz.
    + reflexivity.
    + destruct c as [cm wk]. cbn in *. rewrite Hc by lia. reflexivity.
  - cbn [map app writer_loop].
    assert (Hw : working (execute_or_skip store intent execute c it)
                 = default (working c) (execute (working c) it)).
    { unfold execute_or_skip. destruct (execute (working c) it); reflexivity. }
    case_decide.
    + rewrite IH; [|lia|reflexivity].
      cbn [commit working]. rewrite Hw. reflexivity.
    + rewrite IH; [|lia|lia].
      rewrite Hw. reflexivity.
Qed.

(** C9.  Whatever the queue delivers before the sentinel, the writer
    stops at the sentinel with every intent applied in order, each
    intent whose execution raised passed over and every later one
    still applied, and with nothing left uncommitted. *)
Theorem writer_skips_failures_and_flushes
    (db_batch : Z) (db : store) (intents : list intent)
    (rest : list (option intent)) :
  writer_task store intent execute db_batch db (map Some intents ++ None :: rest)
  = Stopped (mk_connection store (apply_all db intents) (apply_all db intents))
  /\ (forall pre bad post,
        intents = pre ++ bad :: post ->
        execute (apply_all db pre) bad = None ->
        apply_all db intents = apply_all db (pre ++ post)).
Proof.
  split.
  - unfold writer_task. rewrite writer_loop_stops; [reflexivity|lia|reflexivity].
  - intros pre bad post -> Hbad. apply apply_all_skip, Hbad.
Qed.

End WithStore.

(** The second of three intents raises; the first and the third are
    applied, and the writer stops with 8 committed. *)
Lemma writer_skips_failures_and_flushes_witness :
  writer_task Z Z add_intent 500 0 [Some 3; Some (-1); Some 5; None; Some 7]
  = Stopped (mk_connection Z 8 8)
  /\ Writer.apply_all Z Z add_intent 0 [3; -1; 5]
     = Writer.apply_all Z Z add_intent 0 ([3] ++ [5]).
Proof.
  split.
  - apply (proj1 (writer_skips_failures_and_flushes Z Z add_intent 500 0
                    [3; -1; 5] [Some 7])).
  - apply (proj2 (writer_skips_failures_and_flushes Z Z add_intent 500 0
                    [3; -1; 5] [Some 7]) [3] (-1) [5]); reflexivity.
Defined.

End WriterSpec.

(* ===================================================================== *)
(** * Properties of the snapshot selector *)
(* ===================================================================== *)

Module SelectorSpec.

Import Samples Json Selector.

(** ** Dictionaries *)

Lemma dict_get_set (k k' : string) (v : Json.t) (d : pydict) :
  dict_get k (dict_set k' v d) = if decide (k = k') then Some v else dict_get k d.
Proof.
  induction d as [|[k0 v0] d IH]; cbn.
  - repeat case_decide; congruence.
  - repeat (case_decide; cbn); try congruence.
Qed.

Lemma dict_keys_set (k : string) (v : Json.t) (d : pydict) :
  forall x, x ∈ dict_keys (dict_set k v d) <-> x = k \/ x ∈ dict_keys d.
Proof.
  unfold dict_keys. induction d as [|[k0 v0] d IH]; intros x; cbn.
  - rewrite list_elem_of_singleton, elem_of_nil. tauto.
  - case_decide; cbn; rewrite !elem_of_cons; [subst; tauto|].
    rewrite IH. tauto.
Qed.

Lemma dict_keys_set_NoDup (k : string) (v : Json.t) (d : pydict) :
  NoDup (dict_keys d) -> NoDup (dict_keys (dict_set k v d)).
Proof.
  unfold dict_keys. induction d as [|[k0 v0] d IH]; cbn; intros Hnd.
  - apply NoDup_singleton.
  - apply NoDup_cons in Hnd as [Hin Hnd].
    case_decide; cbn.
    + subst. apply NoDup_cons; auto.
    + apply NoDup_cons. split; [|auto].
      intros Hx. apply (dict_keys_set k v d) in Hx as [Hx|Hx]; [congruence|].
      apply Hin, Hx.
Qed.

Lemma dict_get_is_Some (k : string) (d : pydict) :
  is_Some (dict_get k d) <-> k ∈ dict_keys d.
Proof.
  unfold dict_keys. induction d as [|[k0 v0] d IH]; cbn.
  - split; [intros [? [=]]|intros H; inversion H].
  - case_decide; rewrite elem_of_cons.
    + split; eauto.
    + rewrite IH. tauto.
Qed.

(** ** The order of the candidates *)

#[local] Instance key_le_refl : Reflexive key_le.
Proof. intros [[a b] c]. unfold key_le. cbn. lia. Qed.

#[local] Instance key_le_trans : Transitive key_le.
Proof. intros [[a b] c] [[a' b'] c'] [[a2 b2] c2]. unfold key_le. cbn. lia. Qed.

#[local] Instance key_le_total : Total key_le.
Proof. intros [[a b] c] [[a' b'] c']. unfold key_le. cbn. lia. Qed.

#[local] Instance cand_le_refl : Reflexive cand_le.
Proof. intros x. unfold cand_le. reflexivity. Qed.

#[local] Instance cand_le_trans : Transitive cand_le.
Proof. intros x y z. unfold cand_le. apply key_le_trans. Qed.

#[local] Instance cand_le_total : Total cand_le.
Proof. intros x y. unfold cand_le. apply key_le_total. Qed.

Section WithRepr.

Variable container_str : Json.t -> string.

Local Abbreviation item_key := (item_key container_str).
Local Abbreviation put_item := (put_item container_str).
Local Abbreviation last_with_key := (last_with_key container_str).
Local Abbreviation slot_union := (slot_union container_str).
Local Abbreviation _merge_items := (_merge_items container_str).
Local Abbreviation items_lt := (items_lt container_str).
Local Abbreviation merged_of := (merged_of container_str).

Lemma put_item_item_key (merged : pydict) (it : Json.t) :
  put_item merged it
  = match item_key it with
    | Some k => dict_set k it merged
    | None => merged
    end.
Proof.
  unfold Selector.put_item, Selector.item_key.
  destruct it; try reflexivity. case_decide; reflexivity.
Qed.

Lemma last_with_key_snoc (k : string) (l : list Json.t) (x : Json.t) :
  last_with_key k (l ++ [x])
  = if decide (item_key x = Some k) then Some x else last_with_key k l.
Proof.
  unfold Selector.last_with_key. rewrite filter_app, filter_cons, filter_nil.
  case_decide.
  - apply last_snoc.
  - rewrite app_nil_r. reflexivity.
Qed.

Lemma last_with_key_Some (k : string) (l : list Json.t) (it : Json.t) :
  last_with_key k l = Some it -> it ∈ l /\ item_key it = Some k.
Proof.
  unfold Selector.last_with_key. intros H.
  apply last_Some_elem_of in H. apply list_elem_of_filter in H. tauto.
Qed.

(** The dictionary after one of the loops. *)
Lemma dict_get_foldl_put (k : string) (l : list Json.t) (m : pydict) :
  dict_get k (foldl put_item m l)
  = match last_with_key k l with
    | Some it => Some it
    | None => dict_get k m
    end.
Proof.
  induction l as [|x l IH] using rev_ind.
  - reflexivity.
  - rewrite foldl_app, last_with_key_snoc. cbn [foldl].
    rewrite put_item_item_key.
    destruct (item_key x) as [kx|] eqn:Ex.
    + rewrite dict_get_set.
      destruct (decide (k = kx)) as [->|Hne].
      * rewrite decide_True by reflexivity. reflexivity.
      * rewrite decide_False by congruence. exact IH.
    + rewrite decide_False by discriminate. exact IH.
Qed.

Lemma foldl_put_NoDup (l : list Json.t) (m : pydict) :
  NoDup (dict_keys m) -> NoDup (dict_keys (foldl put_item m l)).
Proof.
  revert m. induction l as [|x l IH]; intros m Hm; cbn [foldl]; [exact Hm|].
  apply IH. rewrite put_item_item_key.
  destruct (item_key x); [apply dict_keys_set_NoDup|]; exact Hm.
Qed.

Lemma merged_of_get (base preset : list Json.t) (k : string) :
  dict_get k (merged_of base preset) = slot_union base preset k.
Proof.
  unfold Selector.merged_of, Selector.slot_union. rewrite !dict_get_foldl_put.
  destruct (last_with_key k preset); [reflexivity|].
  destruct (last_with_key k base); reflexivity.
Qed.

Lemma slot_union_item_key (base preset : list Json.t) (k : string) (it : Json.t) :
  slot_union base preset k = Some it -> item_key it = Some k.
Proof.
  unfold Selector.slot_union.
  destruct (last_with_key k preset) as [x|] eqn:E.
  - intros [= <-]. apply last_with_key_Some in E. tauto.
  - intros H. apply last_with_key_Some in H. tauto.
Qed.

(** ** The output order *)

Lemma sorted_keys_strict (keys : list string) :
  NoDup keys -> StronglySorted slot_lt (sorted keys).
Proof.
  intros Hnd. unfold sorted.
  assert (Hnd' : NoDup (merge_sort String.le keys)).
  { rewrite merge_sort_Permutation. exact Hnd. }
  pose proof (StronglySorted_merge_sort String.le keys) as Hs.
  induction Hs as [|x l Hs IH Hall]; [constructor|].
  apply NoDup_cons in Hnd' as [Hx Hl].
  constructor; [auto|].
  apply Forall_forall. intros y Hy. split.
  - rewrite Forall_forall in Hall. auto.
  - intros ->. auto.
Qed.

Lemma omap_get_sorted (m : pydict) (keys : list string) :
  (forall k, k ∈ keys -> exists it, dict_get k m = Some it /\ item_key it = Some k) ->
  StronglySorted slot_lt keys ->
  StronglySorted items_lt (omap (fun k => dict_get k m) keys).
Proof.
  intros Hk Hs. induction Hs as [|k l Hs IH Hall]; [constructor|].
  cbn [omap list_omap].
  destruct (Hk k) as (it & Hget & Hit); [left|].
  rewrite Hget.
  constructor.
  - apply IH. intros k' Hk'. apply Hk. right. exact Hk'.
  - apply Forall_forall. intros it' Hit'.
    apply list_elem_of_omap in Hit' as (k' & Hk' & Hget').
    destruct (Hk k') as (it2 & Hget2 & Hit2); [right; exact Hk'|].
    rewrite Hget' in Hget2. injection Hget2 as <-.
    exists k, k'. repeat split; auto.
    + rewrite Forall_forall in Hall. apply Hall, Hk'.
    + rewrite Forall_forall in Hall. apply Hall, Hk'.
Qed.

(** What [_merge_items] returns, in terms of the dictionary it built. *)
Lemma _merge_items_unfold (base preset : list Json.t) :
  _merge_items base preset
  = omap (fun k => dict_get k (merged_of base preset))
         (sorted (dict_keys (merged_of base preset))).
Proof. reflexivity. Qed.

Lemma merged_of_NoDup (base preset : list Json.t) :
  NoDup (dict_keys (merged_of base preset)).
Proof.
  unfold Selector.merged_of. apply foldl_put_NoDup, foldl_put_NoDup. constructor.
Qed.

Lemma sorted_keys_elem (base preset : list Json.t) (k : string) :
  k ∈ sorted (dict_keys (merged_of base preset))
  <-> is_Some (slot_union base preset k).
Proof.
  unfold sorted. rewrite merge_sort_Permutation.
  rewrite <- dict_get_is_Some, merged_of_get. reflexivity.
Qed.

Lemma _merge_items_elem (base preset : list Json.t) (it : Json.t) :
  it ∈ _merge_items base preset <-> exists k, slot_union base preset k = Some it.
Proof.
  rewrite _merge_items_unfold, list_elem_of_omap. split.
  - intros (k & _ & Hk). exists k. rewrite <- merged_of_get. exact Hk.
  - intros (k & Hk). exists k. split.
    + apply sorted_keys_elem. rewrite Hk. eauto.
    + rewrite merged_of_get. exact Hk.
Qed.

Lemma _merge_items_sorted (base preset : list Json.t) :
  StronglySorted items_lt (_merge_items base preset).
Proof.
  rewrite _merge_items_unfold. apply omap_get_sorted.
  - intros k Hk. apply sorted_keys_elem in Hk as [it Hit].
    exists it. rewrite merged_of_get. split; [exact Hit|].
    eapply slot_union_item_key, Hit.
  - apply sorted_keys_strict, merged_of_NoDup.
Qed.

(** ** Independence of the enumeration order *)

Lemma filter_key_short (k : string) (l : list Json.t) :
  NoDup (omap item_key l) ->
  (length (filter (fun it => item_key it = Some k) l) <= 1)%nat.
Proof.
  induction l as [|x l IH]; intros Hnd; [cbn; lia|].
  rewrite filter_cons. cbn [omap list_omap] in Hnd.
  case_decide as Hx.
  - rewrite Hx in Hnd. apply NoDup_cons in Hnd as [Hk _].
    assert (filter (fun it => item_key it = Some k) l = []) as ->; [|cbn; lia].
    apply (proj1 (last_None _)).
    destruct (last _) as [y|] eqn:Ey; [|reflexivity].
    exfalso. apply Hk.
    apply last_Some_elem_of, list_elem_of_filter in Ey as [Hy1 Hy2].
    apply list_elem_of_omap. eauto.
  - apply IH. destruct (item_key x); [apply NoDup_cons in Hnd; tauto|exact Hnd].
Qed.

Lemma last_with_key_Permutation (k : string) (l l' : list Json.t) :
  l ≡ₚ l' -> NoDup (omap item_key l) -> last_with_key k l = last_with_key k l'.
Proof.
  intros Hp Hnd. unfold Selector.last_with_key.
  pose proof (filter_key_short k l Hnd) as Hlen.
  assert (Hpf : filter (fun it => item_key it = Some k) l
                ≡ₚ filter (fun it => item_key it = Some k) l')
    by (rewrite Hp; reflexivity).
  destruct (filter (fun it => item_key it = Some k) l) as [|x [|y r]] eqn:E.
  - apply Permutation_nil_l in Hpf. rewrite <- Hpf. reflexivity.
  - apply Permutation_singleton_l in Hpf. rewrite <- Hpf. reflexivity.
  - cbn in Hlen. lia.
Qed.

Lemma slot_union_Permutation (base base' preset preset' : list Json.t) (k : string) :
  base ≡ₚ base' -> preset ≡ₚ preset' ->
  NoDup (omap item_key base) -> NoDup (omap item_key preset) ->
  slot_union base' preset' k = slot_union base preset k.
Proof.
  intros Hb Hp Hnb Hnp. unfold Selector.slot_union.
  rewrite <- (last_with_key_Permutation k preset preset' Hp Hnp).
  rewrite <- (last_with_key_Permutation k base base' Hb Hnb).
  reflexivity.
Qed.

Lemma _merge_items_ext (base base' preset preset' : list Json.t) :
  (forall k, slot_union base' preset' k = slot_union base preset k) ->
  _merge_items base' preset' = _merge_items base preset.
Proof.
  intros Hu. rewrite !_merge_items_unfold.
  assert (Hk : sorted (dict_keys (merged_of base' preset'))
               = sorted (dict_keys (merged_of base preset))).
  { apply (Sorted_unique String.le).
    - apply Sorted_merge_sort; apply _.
    - apply Sorted_merge_sort; apply _.
    - apply NoDup_Permutation.
      + unfold sorted. rewrite merge_sort_Permutation. apply merged_of_NoDup.
      + unfold sorted. rewrite merge_sort_Permutation. apply merged_of_NoDup.
      + intros k. rewrite !sorted_keys_elem, Hu. reflexivity. }
  rewrite Hk. apply list_omap_ext.
  apply Forall2_same_length_lookup_2; [reflexivity|].
  intros i x y Hx Hy. rewrite Hx in Hy. injection Hy as <-.
  rewrite !merged_of_get. apply Hu.
Qed.

(** The slot key of an item, read off its fields. *)
Lemma item_key_fields (it : Json.t) :
  item_key it
  = match it with
    | JObj fields =>
        let slot := default JNull (dict_get "item_equipment_slot" fields) in
        let part := default JNull (dict_get "item_equipment_part" fields) in
        let k :=
          PyStr.strip
            (Selector.py_str container_str (py_or (py_or slot part) (JStr ""))) in
        if decide (k = "") then None else Some k
    | _ => None
    end.
Proof. destruct it; reflexivity. Qed.

(** C5.  The slot key of an item is the stripped text of its field
    [item_equipment_slot], else of its field [item_equipment_part]; what is
    no dict or has a blank key has none.  The output of [_merge_items]
    holds exactly the union by slot key of the two lists, the item of
    the candidate wherever it files one under a key and the item of the
    base under the keys only the base has; every output item sits under
    its own slot key; the output is strictly ascending in the slot keys;
    and the output does not change when either input, its slot keys
    being distinct, is enumerated in another order. *)
Theorem merge_items_sorted_union (base preset : list Json.t) :
  (forall it,
     item_key it
     = match it with
       | JObj fields =>
           let slot := default JNull (dict_get "item_equipment_slot" fields) in
           let part := default JNull (dict_get "item_equipment_part" fields) in
           let k :=
             PyStr.strip
               (Selector.py_str container_str
                  (py_or (py_or slot part) (JStr ""))) in
           if decide (k = "") then None else Some k
       | _ => None
       end)
  /\ (forall k,
        slot_union base preset k
        = match last (filter (fun it => item_key it = Some k) preset) with
          | Some it => Some it
          | None => last (filter (fun it => item_key it = Some k) base)
          end)
  /\ (forall it, it ∈ _merge_items base preset
              <-> exists k, slot_union base preset k = Some it)
  /\ (forall k it, slot_union base preset k = Some it -> item_key it = Some k)
  /\ StronglySorted items_lt (_merge_items base preset)
  /\ (forall base' preset',
        base ≡ₚ base' -> preset ≡ₚ preset' ->
        NoDup (omap item_key base) -> NoDup (omap item_key preset) ->
        _merge_items base' preset' = _merge_items base preset).
Proof.
  split; [apply item_key_fields|].
  split; [reflexivity|].
  split; [apply _merge_items_elem|].
  split; [apply slot_union_item_key|].
  split; [apply _merge_items_sorted|].
  intros base' preset' Hb Hp Hnb Hnp.
  apply _merge_items_ext. intros k.
  apply slot_union_Permutation; assumption.
Qed.

(** ** The choice among the candidates *)

Local Abbreviation candidates_of := (candidates_of container_str).
Local Abbreviation candidate_for := (candidate_for container_str).
Local Abbreviation pick := (pick_best_preset_by_lowest_drop_rate container_str).

Lemma candidates_of_elem (equip_json : pydict) (c : candidate) :
  c ∈ candidates_of equip_json
  <-> exists no key it rest,
        (no, key) ∈ preset_keys
        /\ dict_get key equip_json = Some (JArr (it :: rest))
        /\ c = candidate_for equip_json no (it :: rest).
Proof.
  unfold Selector.candidates_of. rewrite list_elem_of_omap. split.
  - intros ([no key] & Hin & Hc). unfold candidate_of in Hc. cbn [fst snd] in Hc.
    destruct (dict_get key equip_json) as [[| | | | |[|it rest]|]|] eqn:E;
      try discriminate Hc.
    injection Hc as <-. exists no, key, it, rest. auto.
  - intros (no & key & it & rest & Hin & Hget & ->).
    exists (no, key). split; [exact Hin|].
    unfold candidate_of. cbn [fst snd]. rewrite Hget. reflexivity.
Qed.

Lemma candidate_flag (equip_json : pydict) (c : candidate) :
  c ∈ candidates_of equip_json ->
  cand_flag c = if decide (cand_no c = 2) then 0 else 1.
Proof.
  intros (no & key & it & rest & _ & _ & ->)%candidates_of_elem. reflexivity.
Qed.

Lemma sorted_head_least (cs : list candidate) (best : candidate)
    (tl : list candidate) :
  sort_candidates cs = best :: tl ->
  best ∈ cs /\ forall c, c ∈ cs -> cand_le best c.
Proof.
  intros Hs. unfold sort_candidates in Hs.
  pose proof (merge_sort_Permutation cand_le cs) as Hp.
  pose proof (StronglySorted_merge_sort cand_le cs) as Hss.
  rewrite Hs in Hp, Hss. split.
  - rewrite <- Hp. left.
  - intros c Hc. rewrite <- Hp in Hc.
    apply StronglySorted_inv in Hss as [_ Hall].
    apply elem_of_cons in Hc as [->|Hc].
    + reflexivity.
    + rewrite Forall_forall in Hall. apply Hall, Hc.
Qed.

Lemma cand_le_beats (equip_json : pydict) (best c : candidate) :
  best ∈ candidates_of equip_json -> c ∈ candidates_of equip_json ->
  cand_le best c -> beats_or_ties best c.
Proof.
  intros Hb Hc Hle.
  apply candidate_flag in Hb, Hc.
  unfold cand_le, key_le, cand_key in Hle.
  unfold beats_or_ties, cand_cnt, cand_no, cand_flag in *.
  destruct best as [[[cnt fl] no] items], c as [[[cnt' fl'] no'] items'].
  cbn [fst snd] in *. subst fl fl'.
  repeat case_decide; lia.
Qed.

Lemma pick_rewrites (equip_json : pydict) (best : candidate) (tl : list candidate) :
  sort_candidates (candidates_of equip_json) = best :: tl ->
  pick equip_json = rewritten equip_json best.
Proof.
  intros Hs. unfold Selector.pick_best_preset_by_lowest_drop_rate.
  case_decide as He.
  - subst equip_json. vm_compute in Hs. discriminate Hs.
  - rewrite Hs. reflexivity.
Qed.

(** The count of the selector is the count of the marker in the text:
    the empty text holds none. *)
Lemma count_drop_rate_mentions_count (raw : string) :
  count_drop_rate_mentions raw = PyStr.count "道具掉落率" raw.
Proof.
  unfold count_drop_rate_mentions. case_decide as He; [|reflexivity].
  subst raw. vm_compute. reflexivity.
Qed.

(** C1.  The candidates are, for each preset that is a non-empty list,
    the merge of the list under [item_equipment] (the empty list when
    there is none) with that preset, with the number of occurrences of
    the marker in the serialised merge as its cost.  With no non-empty
    preset list the record is returned unchanged.  Otherwise the record
    is rewritten for one candidate that no other candidate beats: it
    has the fewest occurrences; among those with as few, it is preset 2
    if preset 2 is there, else the one of lowest number; the rewritten
    record holds its merged items and its preset number, and no preset
    list any more. *)
Theorem pick_best_preset_selects_fewest (equip_json : pydict) :
  (forall c, c ∈ candidates_of equip_json
     <-> exists no key it rest,
           (no, key) ∈ preset_keys
           /\ dict_get key equip_json = Some (JArr (it :: rest))
           /\ cand_no c = no
           /\ cand_flag c = (if decide (no = 2) then 0 else 1)
           /\ cand_items c
              = _merge_items
                  (match dict_get "item_equipment" equip_json with
                   | Some (JArr base) => base
                   | _ => []
                   end)
                  (it :: rest)
           /\ cand_cnt c
              = PyStr.count "道具掉落率" (dumps (JArr (cand_items c))))
  /\ ((forall no key, (no, key) ∈ preset_keys ->
        forall it rest, dict_get key equip_json <> Some (JArr (it :: rest))) ->
      pick equip_json = equip_json)
  /\ (candidates_of equip_json = [] -> pick equip_json = equip_json)
  /\ (candidates_of equip_json <> [] ->
        exists best,
          best ∈ candidates_of equip_json
          /\ (forall c, c ∈ candidates_of equip_json -> beats_or_ties best c)
          /\ pick equip_json = rewritten equip_json best
          /\ dict_get "item_equipment" (pick equip_json)
               = Some (JArr (cand_items best))
          /\ dict_get "preset_no" (pick equip_json) = Some (JInt (cand_no best))).
Proof.
  assert (Hnone : candidates_of equip_json = [] -> pick equip_json = equip_json).
  { intros Hnil. unfold Selector.pick_best_preset_by_lowest_drop_rate.
    case_decide; [reflexivity|]. rewrite Hnil. reflexivity. }
  split; [|split; [|split; [exact Hnone|]]].
  - intros c. rewrite candidates_of_elem. split.
    + intros (no & key & it & rest & Hin & Hget & ->).
      exists no, key, it, rest.
      unfold Selector.candidate_for, cand_no, cand_flag, cand_items, cand_cnt,
        base_items_of.
      cbn [fst snd]. rewrite count_drop_rate_mentions_count. auto 10.
    + intros (no & key & it & rest & Hin & Hget & Hno & Hfl & Hit & Hcnt).
      exists no, key, it, rest. split; [exact Hin|]. split; [exact Hget|].
      destruct c as [[[cnt fl] n] items].
      unfold cand_no, cand_flag, cand_items, cand_cnt in *.
      cbn [fst snd] in *. subst n fl cnt items.
      unfold Selector.candidate_for, base_items_of.
      rewrite count_drop_rate_mentions_count. reflexivity.
  - intros Hno. apply Hnone.
    destruct (candidates_of equip_json) as [|c cs] eqn:Hc; [reflexivity|].
    exfalso.
    assert (Hin : c ∈ candidates_of equip_json) by (rewrite Hc; left).
    apply candidates_of_elem in Hin
      as (no & key & it & rest & Hin & Hget & _).
    exact (Hno no key Hin it rest Hget).
  - intros Hne.
    destruct (sort_candidates (candidates_of equip_json)) as [|best tl] eqn:Hs.
    + exfalso. apply Hne. apply Permutation_nil_r.
      rewrite <- Hs. unfold sort_candidates. symmetry.
      apply merge_sort_Permutation.
    + destruct (sorted_head_least _ _ _ Hs) as [Hin Hmin].
      exists best. split; [exact Hin|]. split.
      * intros c Hc. eapply cand_le_beats; eauto.
      * rewrite (pick_rewrites _ _ _ Hs). unfold rewritten.
        split; [reflexivity|]. split.
        -- rewrite dict_get_set. reflexivity.
        -- rewrite !dict_get_set. reflexivity.
Qed.

End WithRepr.

(** The sample lists: the hat and the weapon of the preset replace
    those of the base, the badge of the base stays, the output runs in
    the order of the slot keys, and enumerating both lists backwards
    gives the same output. *)
Lemma merge_items_sorted_union_witness :
  item_key (fun _ => "") (item "徽章" "敏捷") = Some "徽章"
  /\ (item "帽子" "道具掉落率" ∈ _merge_items (fun _ => "") sample_base sample_preset
      /\ item "徽章" "敏捷" ∈ _merge_items (fun _ => "") sample_base sample_preset
      /\ item "武器" "攻擊力" ∈ _merge_items (fun _ => "") sample_base sample_preset
      /\ item "武器" "道具掉落率" ∉ _merge_items (fun _ => "") sample_base sample_preset)
  /\ _merge_items (fun _ => "") (reverse sample_base) (reverse sample_preset)
     = [item "帽子" "道具掉落率"; item "徽章" "敏捷"; item "武器" "攻擊力"].
Proof.
  destruct (merge_items_sorted_union (fun _ => "") sample_base sample_preset)
    as (Hkey & Hunion & Helem & Hown & _ & Hperm).
  split; [rewrite Hkey; vm_compute; reflexivity|].
  split.
  - split; [|split; [|split]].
    + apply Helem. exists "帽子". rewrite Hunion. vm_compute. reflexivity.
    + apply Helem. exists "徽章". vm_compute. reflexivity.
    + apply Helem. exists "武器". vm_compute. reflexivity.
    + intros Hin. apply Helem in Hin as [k Hk].
      pose proof (Hown k _ Hk) as Hk'. rewrite Hkey in Hk'.
      vm_compute in Hk'. injection Hk' as <-.
      vm_compute in Hk. discriminate Hk.
  - rewrite Hperm.
    + vm_compute. reflexivity.
    + symmetry. apply reverse_Permutation.
    + symmetry. apply reverse_Permutation.
    + apply (bool_decide_unpack _). vm_compute. exact I.
    + apply (bool_decide_unpack _). vm_compute. exact I.
Defined.

(** A clean preset 1 wins against a preset 2 that shows the marker
    once, with cost 0 and with the badge of the base list among its
    items; and when presets 2 and 3 both show the marker once and
    preset 1 twice, preset 2 wins with cost 1. *)
Lemma pick_best_preset_selects_fewest_witness :
  (exists best,
     best ∈ candidates_of (fun _ => "") Fixtures.clean_first_equip
     /\ (forall c, c ∈ candidates_of (fun _ => "") Fixtures.clean_first_equip ->
           beats_or_ties best c)
     /\ cand_no best = 1
     /\ cand_cnt best = 0
     /\ cand_items best
        = [item "帽子" "力量"; item "徽章" "敏捷"; item "武器" "攻擊力"]
     /\ pick_best_preset_by_lowest_drop_rate (fun _ => "")
          Fixtures.clean_first_equip
        = [ ("item_equipment",
             JArr [item "帽子" "力量"; item "徽章" "敏捷"; item "武器" "攻擊力"]);
            ("preset_no", JInt 1) ])
  /\ (exists best,
        best ∈ candidates_of (fun _ => "") sample_equip
        /\ (forall c, c ∈ candidates_of (fun _ => "") sample_equip ->
              beats_or_ties best c)
        /\ cand_no best = 2
        /\ cand_cnt best = 1
        /\ pick_best_preset_by_lowest_drop_rate (fun _ => "") sample_equip
           = rewritten sample_equip best).
Proof.
  split.
  - destruct (pick_best_preset_selects_fewest (fun _ => "")
                Fixtures.clean_first_equip)
      as (Hcand & _ & _ & Hbest).
    destruct Hbest as (best & Hin & Hbeats & Hpick & Hitems & Hno);
      [vm_compute; discriminate|].
    assert (Eno : dict_get "preset_no"
                    (pick_best_preset_by_lowest_drop_rate (fun _ => "")
                       Fixtures.clean_first_equip) = Some (JInt 1))
      by (vm_compute; reflexivity).
    assert (Eit : dict_get "item_equipment"
                    (pick_best_preset_by_lowest_drop_rate (fun _ => "")
                       Fixtures.clean_first_equip)
                  = Some (JArr [item "帽子" "力量"; item "徽章" "敏捷";
                                item "武器" "攻擊力"]))
      by (vm_compute; reflexivity).
    rewrite Eno in Hno. injection Hno as Hno.
    rewrite Eit in Hitems. injection Hitems as Hitems.
    exists best. split; [exact Hin|]. split; [exact Hbeats|].
    split; [symmetry; exact Hno|].
    split; [|split; [symmetry; exact Hitems|vm_compute; reflexivity]].
    apply Hcand in Hin as (no & key & it & rest & _ & _ & _ & _ & _ & Hcnt).
    rewrite Hcnt, <- Hitems. vm_compute. reflexivity.
  - destruct (pick_best_preset_selects_fewest (fun _ => "") sample_equip)
      as (Hcand & _ & _ & Hbest).
    destruct Hbest as (best & Hin & Hbeats & Hpick & Hitems & Hno);
      [vm_compute; discriminate|].
    assert (Eno : dict_get "preset_no"
                    (pick_best_preset_by_lowest_drop_rate (fun _ => "")
                       sample_equip) = Some (JInt 2))
      by (vm_compute; reflexivity).
    assert (Eit : dict_get "item_equipment"
                    (pick_best_preset_by_lowest_drop_rate (fun _ => "")
                       sample_equip)
                  = Some (JArr [item "帽子" "道具掉落率"; item "徽章" "敏捷";
                                item "武器" "攻擊力"]))
      by (vm_compute; reflexivity).
    rewrite Eno in Hno. injection Hno as Hno.
    rewrite Eit in Hitems. injection Hitems as Hitems.
    exists best. split; [exact Hin|]. split; [exact Hbeats|].
    split; [symmetry; exact Hno|]. split; [|exact Hpick].
    apply Hcand in Hin as (no & key & it & rest & _ & _ & _ & _ & _ & Hcnt).
    rewrite Hcnt, <- Hitems. vm_compute. reflexivity.
Defined.

Example sample_pick :
  dict_get "preset_no"
    (pick_best_preset_by_lowest_drop_rate (fun _ => "") sample_equip)
  = Some (JInt 2).
Proof. vm_compute. reflexivity. Qed.

End SelectorSpec.

(* ===================================================================== *)
(** * Properties of the incremental list sync *)
(* ===================================================================== *)

Module ListSyncSpec.

Import Samples ListSync.

Section WithSite.

Variable store : Type.
Variable init : option (string * string).
Variable fetch_all_for_date : Z -> option (list Blacklist.list_record).
Variable purge_or_skip_blacklisted : store -> gset string -> option (store * Z).

Local Abbreviation sync_days :=
  (sync_days store fetch_all_for_date purge_or_skip_blacklisted).
Local Abbreviation sync :=
  (sync_blacklist_incremental store init fetch_all_for_date
     purge_or_skip_blacklisted).
Local Abbreviation day_events := (day_events fetch_all_for_date).
Local Abbreviation names_of := (names_of fetch_all_for_date).
Local Abbreviation state := (ListSync.state store).

Lemma cursor_writes_app (a b : list event) :
  cursor_writes (a ++ b) = cursor_writes a ++ cursor_writes b.
Proof. apply omap_app. Qed.

(** The run wrote no cursor. *)
Local Ltac no_day :=
  exists 0%nat; cbn; rewrite ?cursor_writes_app; cbn; rewrite ?app_nil_r;
  split; [reflexivity | split; [reflexivity | intros ?; congruence]].

(** Any run of the loop, to its end or to the step that raises: the
    cursor took the values [cur], [cur + 1], ... in this order, the last
    of them is what the table holds, and none exceeds [latest]. *)
Lemma sync_days_writes (world : string) (permanent_only : bool) (latest : Z)
    (fuel : nat) :
  forall (cur : Z) (acc : counters) (st : state) r (st' : state),
    sync_days fuel world permanent_only latest cur acc st = (r, st') ->
    exists n : nat,
      cursor_writes (trace st')
      = cursor_writes (trace st) ++ seqZ cur (Z.of_nat n)
      /\ sync_log st'
         = (if decide (n = 0%nat) then sync_log st
            else <[world := cur + Z.of_nat n - 1]> (sync_log st))
      /\ (n <> 0%nat -> cur + Z.of_nat n - 1 <= latest).
Proof.
  induction fuel as [|fuel IH]; intros cur acc st r st' Hrun; cbn in Hrun.
  - injection Hrun as <- <-. no_day.
  - case_decide as Hcur.
    2:{ injection Hrun as <- <-. no_day. }
    destruct (fetch_all_for_date cur) as [rows|].
    2:{ injection Hrun as <- <-. no_day. }
    match type of Hrun with
    | context [if decide (?names = ∅) then _ else _] => set (nm := names) in *
    end.
    assert (Hstep : forall acc1 (st1 : state),
              sync_log st1 = sync_log st ->
              cursor_writes (trace st1) = cursor_writes (trace st) ->
              sync_days fuel world permanent_only latest (cur + 1) acc1
                (set_blacklist_last_sync_date store world cur st1) = (r, st') ->
              exists n : nat,
                cursor_writes (trace st')
                = cursor_writes (trace st) ++ seqZ cur (Z.of_nat n)
                /\ sync_log st'
                   = (if decide (n = 0%nat) then sync_log st
                      else <[world := cur + Z.of_nat n - 1]> (sync_log st))
                /\ (n <> 0%nat -> cur + Z.of_nat n - 1 <= latest)).
    { intros acc1 st1 Hlog Htr Hrec.
      apply IH in Hrec as (n & Hw & Hl & Hb).
      exists (S n). cbn [set_blacklist_last_sync_date log trace sync_log] in Hw, Hl.
      rewrite cursor_writes_app in Hw. cbn in Hw.
      split; [|split].
      - rewrite Hw, Htr, <- app_assoc. f_equal.
        rewrite (seqZ_cons cur (Z.of_nat (S n))) by lia. cbn [app].
        replace (Z.succ cur) with (cur + 1) by lia.
        replace (Z.pred (Z.of_nat (S n))) with (Z.of_nat n) by lia.
        reflexivity.
      - rewrite Hl, Hlog. rewrite (decide_False (P := S n = 0%nat)) by lia.
        case_decide as Hn.
        + subst n. f_equal. lia.
        + rewrite insert_insert_eq. f_equal. lia.
      - intros _. destruct n as [|n]; [lia|].
        specialize (Hb ltac:(lia)). lia. }
    destruct (decide (nm = ∅)) as [He|He].
    + eapply Hstep; [| |exact Hrun]; cbn.
      * reflexivity.
      * rewrite cursor_writes_app. cbn. apply app_nil_r.
    + cbn [db log] in Hrun.
      destruct (purge_or_skip_blacklisted (db st) nm) as [[db' matched]|].
      * eapply Hstep; [| |exact Hrun]; cbn.
        -- reflexivity.
        -- rewrite !cursor_writes_app. cbn. rewrite !app_nil_r. reflexivity.
      * injection Hrun as <- <-. no_day.
Qed.
(** A run of the loop in which no step raises: every day from [cur] to
    [latest] is fetched, applied and recorded, in this order. *)
Lemma sync_days_complete (world : string) (permanent_only : bool) (latest : Z)
    (fuel : nat) :
  (forall db names, is_Some (purge_or_skip_blacklisted db names)) ->
  forall (cur : Z) (acc : counters) (st : state),
    (forall d, cur <= d <= latest -> is_Some (fetch_all_for_date d)) ->
    latest - cur + 1 < Z.of_nat fuel ->
    exists acc' (st' : state),
      sync_days fuel world permanent_only latest cur acc st = (Some acc', st')
      /\ trace st'
         = trace st
           ++ flat_map (day_events permanent_only) (seqZ cur (latest - cur + 1))
      /\ sync_log st'
         = (if decide (cur <= latest) then <[world := latest]> (sync_log st)
            else sync_log st)
      /\ done_days acc' = done_days acc + Z.max 0 (latest - cur + 1).
Proof.
  intros Hpurge.
  induction fuel as [|fuel IH]; intros cur acc st Hfetch Hfuel.
  - exists acc, st. cbn [ListSync.sync_days].
    rewrite seqZ_nil by lia. rewrite decide_False by lia.
    cbn. rewrite app_nil_r. repeat split; lia.
  - cbn [ListSync.sync_days]. case_decide as Hcur.
    2:{ exists acc, st. rewrite seqZ_nil by lia. cbn. rewrite app_nil_r.
        repeat split; lia. }
    assert (Hday : forall acc1 (st1 : state),
              sync_log st1 = sync_log st ->
              trace st1 ++ [EvCursor cur]
              = trace st ++ day_events permanent_only cur ->
              done_days acc1 = done_days acc + 1 ->
              exists acc' (st' : state),
                sync_days fuel world permanent_only latest (cur + 1) acc1
                  (set_blacklist_last_sync_date store world cur st1)
                = (Some acc', st')
                /\ trace st'
                   = trace st
                     ++ flat_map (day_events permanent_only)
                          (seqZ cur (latest - cur + 1))
                /\ sync_log st' = <[world := latest]> (sync_log st)
                /\ done_days acc' = done_days acc + Z.max 0 (latest - cur + 1)).
    { intros acc1 st1 Hlog Htr Hdone.
      destruct (IH (cur + 1) acc1
                   (set_blacklist_last_sync_date store world cur st1))
        as (acc' & st' & Hrun & Ht & Hl & Hd).
      { intros d Hd. apply Hfetch. lia. }
      { lia. }
      exists acc', st'. split; [exact Hrun|].
      cbn [set_blacklist_last_sync_date log trace sync_log] in Ht, Hl.
      split; [|split].
      - rewrite Ht, Htr, <- app_assoc. f_equal.
        rewrite (seqZ_cons cur (latest - cur + 1)) by lia. cbn [flat_map].
        replace (Z.succ cur) with (cur + 1) by lia.
        replace (Z.pred (latest - cur + 1)) with (latest - (cur + 1) + 1) by lia.
        reflexivity.
      - rewrite Hl, Hlog. case_decide.
        + apply insert_insert_eq.
        + f_equal. lia.
      - rewrite Hd, Hdone. lia. }
    destruct (Hfetch cur ltac:(lia)) as [rows Hrows].
    assert (Hnames : names_of permanent_only cur
                     = if permanent_only then extract_permanent_names rows
                       else extract_names rows).
    { unfold ListSync.names_of. rewrite Hrows. reflexivity. }
    rewrite Hrows, <- Hnames.
    unfold ListSync.day_events in Hday.
    destruct (decide (names_of permanent_only cur = ∅)) as [He|He].
    + apply Hday; cbn.
      * reflexivity.
      * rewrite <- app_assoc. reflexivity.
      * reflexivity.
    + cbn [db log].
      destruct (Hpurge (db st) (names_of permanent_only cur))
        as [[db' matched] ->].
      apply Hday; cbn.
      * reflexivity.
      * rewrite <- !app_assoc. reflexivity.
      * reflexivity.
Qed.

Local Abbreviation start_day := (start_day store).

(** C4, as the code has it.  A run starts at the day after the
    persisted cursor, or at the configured first start date when no
    cursor is persisted.  When the latest available day lies before the
    configured first start date or before the start day, the run
    reports that it did not run and touches nothing.  Otherwise, when
    no step raises, it reports the span it ran over, having fetched,
    applied and then recorded as the cursor each day from the start day
    to the latest available day in ascending order.  In every run,
    also one that a raising step cuts short, the cursor takes the
    values start, start + 1, ... one by one, never beyond the latest
    available day, the table holds the last of them, and a cursor that
    was persisted before the run is never lowered. *)
Theorem sync_cursor_discipline (world : string) (first_start_date : Z)
    (permanent_only : bool) (now : Clock.datetime) (st : state) :
  let latest := Clock._latest_available_block_date now in
  let start := start_day world first_start_date st in
  (latest < first_start_date \/ latest < start ->
     exists reason s l,
       sync world first_start_date permanent_only now st
       = (Returned (NotRan reason s l), st))
  /\ (first_start_date <= latest -> start <= latest ->
      is_Some init ->
      (forall d, start <= d <= latest -> is_Some (fetch_all_for_date d)) ->
      (forall db names, is_Some (purge_or_skip_blacklisted db names)) ->
      exists a b c (st' : state),
        sync world first_start_date permanent_only now st
        = (Returned (Ran start latest (latest - start + 1) a b c), st')
        /\ trace st'
           = trace st
             ++ flat_map (day_events permanent_only)
                  (seqZ start (latest - start + 1))
        /\ sync_log st' = <[world := latest]> (sync_log st))
  /\ (forall o (st' : state),
        sync world first_start_date permanent_only now st = (o, st') ->
        (exists n : nat,
           cursor_writes (trace st')
           = cursor_writes (trace st) ++ seqZ start (Z.of_nat n)
           /\ sync_log st'
              = (if decide (n = 0%nat) then sync_log st
                 else <[world := start + Z.of_nat n - 1]> (sync_log st))
           /\ (n <> 0%nat -> start + Z.of_nat n - 1 <= latest))
        /\ (forall c, sync_log st !! world = Some c ->
              exists c', sync_log st' !! world = Some c' /\ c <= c')).
Proof.
  intros latest start.
  assert (Hwrites : forall o (st' : state),
            sync world first_start_date permanent_only now st = (o, st') ->
            exists n : nat,
              cursor_writes (trace st')
              = cursor_writes (trace st) ++ seqZ start (Z.of_nat n)
              /\ sync_log st'
                 = (if decide (n = 0%nat) then sync_log st
                    else <[world := start + Z.of_nat n - 1]> (sync_log st))
              /\ (n <> 0%nat -> start + Z.of_nat n - 1 <= latest)).
  { intros o st' Hrun.
    unfold ListSync.sync_blacklist_incremental in Hrun.
    fold latest in Hrun.
    change (match get_blacklist_last_sync_date store world st with
            | Some l => l + 1
            | None => first_start_date
            end) with start in Hrun.
    assert (Hnone : o = o -> st' = st ->
              exists n : nat,
                cursor_writes (trace st')
                = cursor_writes (trace st) ++ seqZ start (Z.of_nat n)
                /\ sync_log st'
                   = (if decide (n = 0%nat) then sync_log st
                      else <[world := start + Z.of_nat n - 1]> (sync_log st))
                /\ (n <> 0%nat -> start + Z.of_nat n - 1 <= latest)).
    { intros _ ->. no_day. }
    case_decide; [injection Hrun as <- <-; auto|].
    case_decide; [injection Hrun as <- <-; auto|].
    destruct init as [[csrf server_id]|]; [|injection Hrun as <- <-; auto].
    destruct (sync_days _ _ _ _ _ _ _) as [r st2] eqn:Hloop.
    apply sync_days_writes in Hloop.
    destruct r; injection Hrun as <- <-; exact Hloop. }
  split; [|split].
  - intros Hnothing. unfold ListSync.sync_blacklist_incremental.
    fold latest.
    change (match get_blacklist_last_sync_date store world st with
            | Some l => l + 1
            | None => first_start_date
            end) with start.
    case_decide; [eauto|].
    case_decide; [eauto|]. lia.
  - intros Hfirst Hstart [[csrf server_id] Hinit] Hfetch Hpurge.
    unfold ListSync.sync_blacklist_incremental.
    fold latest.
    change (match get_blacklist_last_sync_date store world st with
            | Some l => l + 1
            | None => first_start_date
            end) with start.
    rewrite decide_False by lia. rewrite decide_False by lia.
    rewrite Hinit.
    destruct (sync_days_complete world permanent_only latest
                (S (Z.to_nat (latest - start + 1))) Hpurge start
                (mk_counters 0 0 0 0) st Hfetch ltac:(lia))
      as (acc' & st' & Hrun & Ht & Hl & _).
    rewrite Hrun. rewrite decide_True in Hl by lia. eauto 10.
  - intros o st' Hrun. split; [eauto|].
    intros c Hc.
    destruct (Hwrites o st' Hrun) as (n & _ & Hl & _).
    rewrite Hl. case_decide.
    + exists c. split; [exact Hc|lia].
    + exists (start + Z.of_nat n - 1). split; [apply lookup_insert_eq|].
      unfold start, ListSync.start_day, get_blacklist_last_sync_date.
      rewrite Hc. lia.
Qed.

End WithSite.

(** From the cursor at 2025-12-07 the run covers 2025-12-08 and
    2025-12-09. *)
Lemma sync_cursor_discipline_witness :
  exists a b c (st' : state unit),
    sync_blacklist_incremental unit (Some ("token", "7")) empty_site no_purge
      "挑戰者" 739588 true sample_now (mk_state {[ "挑戰者" := 739592 ]} tt [])
    = (Returned (Ran 739593 739594 2 a b c), st')
    /\ trace st'
       = [EvFetch 739593; EvCursor 739593; EvFetch 739594; EvCursor 739594]
    /\ sync_log st' !! "挑戰者" = Some 739594.
Proof.
  destruct (proj1 (proj2 (sync_cursor_discipline unit (Some ("token", "7"))
                            empty_site no_purge "挑戰者" 739588 true sample_now
                            (mk_state {[ "挑戰者" := 739592 ]} tt []))))
    as (a & b & c & st' & Hrun & Ht & Hl).
  - vm_compute. intros H. discriminate H.
  - vm_compute. intros H. discriminate H.
  - eexists. reflexivity.
  - intros d _. eexists. reflexivity.
  - intros db names. eexists. reflexivity.
  - exists a, b, c, st'. split; [|split].
    + rewrite Hrun. vm_compute. reflexivity.
    + rewrite Ht. vm_compute. reflexivity.
    + rewrite Hl. apply lookup_insert_eq.
Defined.

(** C4 as stated fails: with the cursor at 2025-11-15 and the configured
    first start date 2025-12-03, the first day the run processes is
    2025-11-16, not the later of the two dates. *)
Lemma sync_start_counterexample :
  let run :=
    sync_blacklist_incremental unit (Some ("token", "7")) empty_site no_purge
      "挑戰者" 739588 true sample_now sample_state in
  head (trace run.2) = Some (EvFetch 739571)
  /\ head (trace run.2) <> Some (EvFetch (Z.max 739588 (739570 + 1))).
Proof. vm_compute. split; [reflexivity | intros H; discriminate H]. Qed.

End ListSyncSpec.

(* ===================================================================== *)
(** * Properties of chunking and of the retry wrapper *)
(* ===================================================================== *)

Module ChunksSpec.

Import Chunks.

Section WithElements.

Context {A : Type}.

Lemma chunk_map_shift (n : nat) (l : list A) (m : nat) :
  (fun k => slice l (k * n) n) <$> seq 1 m
  = (fun k => slice (drop n l) (k * n) n) <$> seq 0 m.
Proof.
  rewrite <- (fmap_S_seq 0 m), <- list_fmap_compose.
  apply list_fmap_ext. intros i k _. cbn. unfold slice.
  rewrite drop_drop. reflexivity.
Qed.

Lemma chunk_map_concat (n : nat) (m : nat) :
  forall l : list A, (length l <= m * n)%nat ->
  concat ((fun k => slice l (k * n) n) <$> seq 0 m) = l.
Proof.
  induction m as [|m IH]; intros l Hl.
  - destruct l; [reflexivity|]. cbn in Hl. lia.
  - cbn [seq fmap list_fmap]. rewrite chunk_map_shift. cbn [concat].
    rewrite IH by (rewrite length_drop; lia).
    unfold slice. cbn [drop Nat.mul]. apply take_drop.
Qed.

Lemma chunk_count_bounds (len n : nat) :
  n <> 0%nat ->
  let m := ((len + n - 1) / n)%nat in
  (len <= m * n)%nat /\ (len <> 0%nat -> (m <> 0 /\ (m - 1) * n < len)%nat)
  /\ (len = 0%nat -> m = 0%nat).
Proof.
  intros Hn m.
  pose proof (Nat.div_mod (len + n - 1) n Hn) as Hd.
  pose proof (Nat.mod_upper_bound (len + n - 1) n Hn) as Hm.
  fold m in Hd. split; [nia|]. split.
  - intros Hlen. assert (m <> 0)%nat by (intros E; rewrite E in Hd; lia).
    split; [assumption|]. nia.
  - intros ->. subst m. apply Nat.div_small. lia.
Qed.

(** X1.  For a positive chunk size the chunks, joined in order, give the
    list back; there are as many as the length divided by the size, rounded
    up; none is empty, none is longer than the size, and every chunk but
    the last has exactly the size.  A size of zero raises. *)
Theorem chunked_partitions (lst : list A) (n : nat) :
  _chunked lst 0 = None
  /\ (n <> 0%nat ->
      exists chunks,
        _chunked lst n = Some chunks
        /\ concat chunks = lst
        /\ length chunks = ((length lst + n - 1) / n)%nat
        /\ Forall (fun c => (0 < length c <= n)%nat) chunks
        /\ (forall i c, chunks !! i = Some c -> (S i < length chunks)%nat ->
                        length c = n)).
Proof.
  split; [reflexivity|]. intros Hn.
  destruct n as [|n']; [congruence|]. set (n := S n') in *.
  eexists. split; [reflexivity|].
  unfold range_step. rewrite <- list_fmap_compose.
  set (m := ((length lst + n - 1) / n)%nat).
  destruct (chunk_count_bounds (length lst) n Hn) as (Hle & Hpos & Hzero).
  fold m in Hle, Hpos, Hzero.
  change ((fun i => slice lst i n) ∘ (fun k => (k * n)%nat))
    with (fun k => slice lst (k * n) n).
  split; [apply chunk_map_concat, Hle|].
  split; [rewrite length_fmap, length_seq; reflexivity|].
  assert (Hlen : forall k, (k < m)%nat ->
            (0 < length (slice lst (k * n) n) <= n)%nat
            /\ ((S k < m)%nat -> length (slice lst (k * n) n) = n)).
  { intros k Hk. unfold slice. rewrite length_take, length_drop.
    destruct (decide (length lst = 0%nat)) as [E|E]; [rewrite Hzero in Hk; lia|].
    destruct (Hpos E) as [_ Hlast].
    assert (k * n <= (m - 1) * n)%nat by nia.
    split; [lia|]. intros Hk'.
    assert (S k * n <= (m - 1) * n)%nat by nia. lia. }
  split.
  - apply Forall_forall. intros c Hc.
    apply list_elem_of_fmap in Hc as (k & -> & Hk).
    apply elem_of_seq in Hk. apply Hlen. lia.
  - intros i c Hi Hlt. rewrite length_fmap, length_seq in Hlt.
    rewrite list_lookup_fmap in Hi.
    destruct (seq 0 m !! i) as [k|] eqn:Ek; [|discriminate].
    apply lookup_seq in Ek as [-> _]. injection Hi as <-.
    apply Hlen; lia.
Qed.

End WithElements.

(** Seven names in chunks of three. *)
Lemma chunked_partitions_witness :
  exists chunks,
    _chunked ["a"; "b"; "c"; "d"; "e"; "f"; "g"] 3 = Some chunks
    /\ concat chunks = ["a"; "b"; "c"; "d"; "e"; "f"; "g"]
    /\ length chunks = 3%nat.
Proof.
  destruct (proj2 (chunked_partitions ["a"; "b"; "c"; "d"; "e"; "f"; "g"] 3))
    as (chunks & H1 & H2 & H3 & _); [lia|].
  exists chunks. repeat split; assumption.
Defined.

End ChunksSpec.

Module RetrySpec.

Import Json Retry.

Lemma next_delay_bounds (base d : Q) :
  (0 <= base)%Q -> (base <= d)%Q -> (d <= 6)%Q ->
  (base <= next_delay d)%Q /\ (next_delay d <= 6)%Q.
Proof.
  intros H0 Hb H6. unfold next_delay.
  destruct (Qle_bool (d * 2) 6) eqn:E.
  - apply Qle_bool_iff in E. split; lra.
  - split; lra.
Qed.

Section WithFactory.

Variable coro_factory : nat -> Nexon.result api_result.

Local Abbreviation retry_loop := (retry_loop coro_factory).
Local Abbreviation succeeds := (succeeds coro_factory).

(** One turn of the loop either returns what the factory gave or goes
    on. *)
Lemma attempt_cases (k : nat) :
  (exists res, coro_factory k = Nexon.Ok res
               /\ (_unpack_api_result res).1 <> JNull
               /\ forall n d sl,
                    retry_loop (S n) k d sl = mk_retry_run (Some res) (S k) sl)
  \/ (~ succeeds k
      /\ forall n d sl,
           retry_loop (S n) k d sl
           = retry_loop n (S k) (next_delay d) (sl ++ [d])).
Proof.
  destruct (coro_factory k) as [res|e] eqn:E.
  - destruct ((_unpack_api_result res).1) eqn:Ed.
    1:{ right. split.
        - intros (res' & Hr & Hd). rewrite E in Hr. injection Hr as <-. congruence.
        - intros n d sl. cbn. rewrite E, Ed. reflexivity. }
    all: left; exists res; split; [reflexivity|]; split; [rewrite Ed; discriminate|];
      intros n d sl; cbn; rewrite E, Ed; reflexivity.
  - right. split.
    + intros (res' & Hr & _). rewrite E in Hr. discriminate.
    + intros n d sl. cbn. rewrite E. reflexivity.
Qed.

Lemma retry_loop_all_fail (n : nat) :
  forall k d sl,
    (forall j, (k <= j < k + n)%nat -> ~ succeeds j) ->
    retry_loop n k d sl = mk_retry_run None (k + n) (sl ++ backoff d n).
Proof.
  induction n as [|n IH]; intros k d sl Hfail.
  - cbn. rewrite app_nil_r, Nat.add_0_r. reflexivity.
  - destruct (attempt_cases k) as [(res & Hr & Hd & _)|[_ Hstep]].
    + exfalso. apply (Hfail k); [lia|]. exists res. auto.
    + rewrite Hstep, IH by (intros j Hj; apply Hfail; lia).
      cbn [backoff]. rewrite <- app_assoc. f_equal. lia.
Qed.

Lemma retry_loop_first_success (i : nat) :
  forall n k d sl res,
    (i < n)%nat ->
    (forall j, (k <= j < k + i)%nat -> ~ succeeds j) ->
    coro_factory (k + i) = Nexon.Ok res ->
    (_unpack_api_result res).1 <> JNull ->
    retry_loop n k d sl = mk_retry_run (Some res) (S (k + i)) (sl ++ backoff d i).
Proof.
  induction i as [|i IH]; intros n k d sl res Hn Hfail Hr Hd;
    (destruct n as [|n]; [lia|]).
  - rewrite Nat.add_0_r in *.
    destruct (attempt_cases k) as [(res' & Hr' & _ & Hstep)|[Hno _]].
    + rewrite Hstep. rewrite Hr in Hr'. injection Hr' as <-.
      cbn. rewrite app_nil_r. reflexivity.
    + exfalso. apply Hno. exists res. auto.
  - destruct (attempt_cases k) as [(res' & Hr' & Hd' & _)|[_ Hstep]].
    + exfalso. apply (Hfail k); [lia|]. exists res'. auto.
    + rewrite Hstep.
      rewrite (IH n (S k) (next_delay d) (sl ++ [d]) res); try lia.
      * cbn [backoff]. rewrite <- app_assoc. f_equal. f_equal. lia.
      * intros j Hj. apply Hfail. lia.
      * replace (S k + i)%nat with (k + S i)%nat by lia. exact Hr.
      * exact Hd.
Qed.

(** X2.  [_call_with_retry] calls the factory once at least and
    [max(1, retries)] times at most.  It returns the result of the first
    call that gives data, having slept once after each call before it; when
    no call gives data (a call that raises counts as giving none) it
    returns [None] after sleeping once after every call, the last
    included. *)
Theorem call_with_retry_first_success (retries : Z) (base_delay : Q) :
  let attempts := Z.to_nat (Z.max 1 retries) in
  (1 <= attempts)%nat
  /\ (forall i res,
        (i < attempts)%nat ->
        (forall j, (j < i)%nat -> ~ succeeds j) ->
        coro_factory i = Nexon.Ok res ->
        (_unpack_api_result res).1 <> JNull ->
        _call_with_retry coro_factory retries base_delay
        = mk_retry_run (Some res) (S i) (backoff base_delay i))
  /\ ((forall j, (j < attempts)%nat -> ~ succeeds j) ->
      _call_with_retry coro_factory retries base_delay
      = mk_retry_run None attempts (backoff base_delay attempts)).
Proof.
  intros attempts. split; [unfold attempts; lia|]. split.
  - intros i res Hi Hfail Hr Hd. unfold _call_with_retry. fold attempts.
    rewrite (retry_loop_first_success i attempts 0 base_delay [] res);
      auto. intros j Hj. apply Hfail. lia.
  - intros Hfail. unfold _call_with_retry. fold attempts.
    rewrite retry_loop_all_fail; [reflexivity|].
    intros j Hj. apply Hfail. lia.
Qed.

(** X3.  With a base delay between 0 and 6 seconds, every delay that
    [_call_with_retry] sleeps lies between the base delay and 6 seconds. *)
Theorem call_with_retry_delays_capped (retries : Z) (base_delay : Q) :
  (0 <= base_delay)%Q -> (base_delay <= 6)%Q ->
  Forall (fun x => (base_delay <= x)%Q /\ (x <= 6)%Q)
    (slept (_call_with_retry coro_factory retries base_delay)).
Proof.
  intros H0 H6. unfold _call_with_retry.
  assert (Hgen : forall n k d sl,
            (base_delay <= d)%Q -> (d <= 6)%Q ->
            Forall (fun x => (base_delay <= x)%Q /\ (x <= 6)%Q) sl ->
            Forall (fun x => (base_delay <= x)%Q /\ (x <= 6)%Q)
              (slept (retry_loop n k d sl))).
  { induction n as [|n IH]; intros k d sl Hb Hd Hsl; [exact Hsl|].
    destruct (attempt_cases k) as [(res & _ & _ & Hstep)|[_ Hstep]];
      rewrite Hstep; [exact Hsl|].
    destruct (next_delay_bounds base_delay d H0 Hb Hd).
    apply IH; try assumption.
    apply Forall_app. split; [exact Hsl|]. constructor; [auto|constructor]. }
  apply Hgen; [lra|assumption|constructor].
Qed.

End WithFactory.
Import Samples Fixtures.

(** A factory that fails twice: the third call returns, after two delays. *)
Lemma call_with_retry_first_success_witness :
  Retry._call_with_retry flaky_factory 5 (7 # 20)
  = Retry.mk_retry_run (Some (Retry.Plain (Json.JInt 1))) 3
      (Retry.backoff (7 # 20) 2).
Proof.
  apply (proj1 (proj2 (call_with_retry_first_success flaky_factory 5 (7 # 20)))
           2%nat (Retry.Plain (Json.JInt 1))).
  - vm_compute. lia.
  - intros j Hj (res & Hres & _).
    destruct j as [|[|j]]; [discriminate Hres..|lia].
  - reflexivity.
  - discriminate.
Defined.

(** The delays slept on the way to that third call. *)
Lemma call_with_retry_delays_capped_witness :
  Forall (fun x => (7 # 20 <= x)%Q /\ (x <= 6)%Q)
    (Retry.slept (Retry._call_with_retry flaky_factory 5 (7 # 20))).
Proof.
  apply (call_with_retry_delays_capped flaky_factory 5 (7 # 20)).
  - vm_compute. discriminate.
  - vm_compute. discriminate.
Defined.

End RetrySpec.

(* ===================================================================== *)
(** * Properties of the batches of the writer *)
(* ===================================================================== *)

Module WriterBatchSpec.

Import Writer.

Section WithStore.

Variables (store intent : Type).
Variable execute : store -> intent -> option store.

Local Abbreviation apply_all := (Writer.apply_all store intent execute).
Local Abbreviation writer_loop := (Writer.writer_loop store intent execute).

Lemma apply_all_cons (db : store) (it : intent) (its : list intent) :
  apply_all db (it :: its) = apply_all (default db (execute db it)) its.
Proof. reflexivity. Qed.

Lemma working_execute_or_skip (c : connection store) (it : intent) :
  working (execute_or_skip store intent execute c it)
  = default (working c) (execute (working c) it)
  /\ committed (execute_or_skip store intent execute c it) = committed c.
Proof.
  unfold execute_or_skip. destruct (execute (working c) it); split; reflexivity.
Qed.

(** The loop on a queue that holds no sentinel: it ends waiting, with
    everything applied and with what the last full batch left committed. *)
Lemma writer_loop_waits (B : Z) (intents : list intent) :
  0 < B ->
  forall (c : connection store) (p : Z),
    0 <= p < B ->
    let k := Z.of_nat (length intents) in
    exists c',
      writer_loop B c p (Some <$> intents) = Waiting c' ((p + k) mod B)
      /\ working c' = apply_all (working c) intents
      /\ committed c'
         = (if decide (p + k < B) then committed c
            else apply_all (working c)
                   (take (Z.to_nat (k - (p + k) mod B)) intents)).
Proof.
  intros HB. induction intents as [|it its IH]; intros c p Hp k.
  - exists c. subst k. cbn. rewrite Z.add_0_r, Z.mod_small by lia.
    rewrite decide_True by lia. auto.
  - cbn [fmap list_fmap Writer.writer_loop].
    destruct (working_execute_or_skip c it) as [Hw Hc].
    set (c1 := execute_or_skip store intent execute c it) in *.
    set (k' := Z.of_nat (length its)).
    assert (Hk : k = k' + 1) by (subst k k'; cbn [length]; lia).
    case_decide as Hfull.
    + assert (p + 1 = B) by lia.
      destruct (IH (commit store c1) 0 ltac:(lia)) as (c' & Hrun & Hw' & Hc').
      fold k' in Hrun, Hc'. rewrite Z.add_0_l in Hrun, Hc'.
      exists c'. replace ((p + k) mod B) with (k' mod B).
      2:{ replace (p + k) with (k' + 1 * B) by lia. rewrite Z.mod_add by lia.
          reflexivity. }
      split; [exact Hrun|]. cbn [commit working committed] in Hw', Hc'.
      split; [rewrite Hw', Hw; reflexivity|].
      rewrite decide_False by lia. rewrite Hc'.
      pose proof (Z.mod_pos_bound k' B HB) as Hm.
      pose proof (Z.mod_le k' B ltac:(lia) HB) as Hm'.
      replace (Z.to_nat (k - k' mod B)) with (S (Z.to_nat (k' - k' mod B))) by lia.
      cbn [take]. rewrite apply_all_cons, <- Hw.
      case_decide as Hs.
      * rewrite Z.mod_small by lia. rewrite Z.sub_diag. reflexivity.
      * reflexivity.
    + destruct (IH c1 (p + 1) ltac:(lia)) as (c' & Hrun & Hw' & Hc').
      fold k' in Hrun, Hc'.
      exists c'. replace (p + k) with (p + 1 + k') by lia.
      split; [exact Hrun|].
      split; [rewrite Hw', Hw; reflexivity|].
      rewrite Hc'. case_decide as Hs; [exact Hc|].
      pose proof (Z.mod_pos_bound (p + 1 + k') B HB) as Hm.
      assert ((p + 1 + k') mod B <= k').
      { pose proof (Z.div_mod (p + 1 + k') B ltac:(lia)) as Hd.
        assert (1 <= (p + 1 + k') / B) by (apply Z.div_le_lower_bound; lia).
        nia. }
      replace (Z.to_nat (k - (p + 1 + k') mod B))
        with (S (Z.to_nat (k' - (p + 1 + k') mod B))) by lia.
      cbn [take]. rewrite apply_all_cons, <- Hw. reflexivity.
Qed.

(** X4.  While the sentinel has not arrived the writer, having consumed
    [k] intents, waits with all of them applied in its transaction and with
    the first [B * (k / B)] of them committed, [B] being the batch size
    [max(50, db_batch)]: it commits after every [B]-th intent and holds
    fewer than [B] uncommitted. *)
Theorem writer_commits_every_batch (db_batch : Z) (db : store)
    (intents : list intent) :
  let B := Z.max 50 db_batch in
  let k := Z.of_nat (length intents) in
  writer_task store intent execute db_batch db (Some <$> intents)
  = Waiting (mk_connection store
               (apply_all db (take (Z.to_nat (B * (k / B))) intents))
               (apply_all db intents))
            (k mod B)
  /\ 0 <= k mod B < B.
Proof.
  intros B k. assert (HB : 0 < B) by (unfold B; lia).
  split; [|apply Z.mod_pos_bound; exact HB].
  unfold writer_task. fold B.
  destruct (writer_loop_waits B intents HB (connect store db) 0 ltac:(lia))
    as (c' & Hrun & Hw & Hc).
  fold k in Hrun, Hc. rewrite Z.add_0_l in Hrun, Hc.
  fold (Writer.writer_loop store intent execute) in Hrun.
  rewrite Hrun. f_equal. destruct c' as [cm wk]. cbn in Hw, Hc.
  subst wk. f_equal.
  rewrite Hc. pose proof (Z.div_mod k B ltac:(lia)) as Hd.
  case_decide as Hs.
  - rewrite Z.div_small by lia. rewrite Z.mul_0_r. reflexivity.
  - f_equal. f_equal. lia.
Qed.

End WithStore.
End WriterBatchSpec.

(* ===================================================================== *)
(** * Properties of the name extraction and of the URL quoting *)
(* ===================================================================== *)

Module NamesSpec.

Import PyStr Blacklist ListSync.

Lemma extract_names_elem (rows : list list_record) (nm : string) :
  nm ∈ extract_names rows
  <-> nm <> "" /\ exists row, row ∈ rows /\ strip (characterName row) = nm.
Proof.
  unfold extract_names.
  induction rows as [|row rows IH] using rev_ind.
  - cbn. rewrite elem_of_empty. split; [tauto|].
    intros (_ & row & Hin & _). inversion Hin.
  - rewrite foldl_app. cbn [foldl]. case_decide as He.
    + rewrite IH. split.
      * intros (Hne & r & Hr & Hs). split; [exact Hne|].
        exists r. rewrite elem_of_app. auto.
      * intros (Hne & r & Hr & Hs). split; [exact Hne|].
        apply elem_of_app in Hr as [Hr|Hr]; [eauto|].
        apply list_elem_of_singleton in Hr as ->. congruence.
    + rewrite elem_of_union, elem_of_singleton, IH. split.
      * intros [(Hne & r & Hr & Hs)| ->].
        -- split; [exact Hne|]. exists r. rewrite elem_of_app. auto.
        -- split; [exact He|]. exists row. rewrite elem_of_app.
           split; [right; left|reflexivity].
      * intros (Hne & r & Hr & Hs).
        apply elem_of_app in Hr as [Hr|Hr]; [left; eauto|].
        apply list_elem_of_singleton in Hr as ->. right. congruence.
Qed.

Lemma extract_permanent_names_elem (rows : list list_record) (nm : string) :
  nm ∈ extract_permanent_names rows
  <-> nm <> ""
      /\ exists row, row ∈ rows /\ strip (characterName row) = nm
                     /\ _is_permanent_unblock_date (strip (unBlockedDate row)) = true.
Proof.
  unfold extract_permanent_names.
  induction rows as [|row rows IH] using rev_ind.
  - cbn. rewrite elem_of_empty. split; [tauto|].
    intros (_ & row & Hin & _). inversion Hin.
  - rewrite foldl_app. cbn [foldl].
    destruct (negb (bool_decide (strip (characterName row) = ""))
              && _is_permanent_unblock_date (strip (unBlockedDate row))) eqn:Ec.
    + apply andb_prop in Ec as [Hn Hp].
      apply negb_true_iff, bool_decide_eq_false in Hn.
      rewrite elem_of_union, elem_of_singleton, IH. split.
      * intros [(Hne & r & Hr & Hs)| ->].
        -- split; [exact Hne|]. exists r. rewrite elem_of_app. tauto.
        -- split; [exact Hn|]. exists row. rewrite elem_of_app.
           split; [right; left|auto].
      * intros (Hne & r & Hr & Hs).
        apply elem_of_app in Hr as [Hr|Hr]; [left; eauto|].
        apply list_elem_of_singleton in Hr as ->. right. symmetry. tauto.
    + rewrite IH. split.
      * intros (Hne & r & Hr & Hs). split; [exact Hne|].
        exists r. rewrite elem_of_app. tauto.
      * intros (Hne & r & Hr & Hs & Hp). split; [exact Hne|].
        apply elem_of_app in Hr as [Hr|Hr]; [eauto|].
        apply list_elem_of_singleton in Hr as ->.
        exfalso. rewrite Hp, andb_true_r in Ec.
        apply negb_false_iff, bool_decide_eq_true in Ec. congruence.
Qed.

(** X5.  A name is extracted from a page of records exactly when it is
    not empty and is the stripped name of one of the records; it is
    extracted as permanent exactly when, in addition, that record's
    stripped unblock date passes the permanence test.  So the permanent
    names are among the names, and records with a blank name contribute
    nothing. *)
Theorem extract_names_characterised (rows : list list_record) :
  (forall nm, nm ∈ extract_names rows
     <-> nm <> "" /\ exists row, row ∈ rows /\ strip (characterName row) = nm)
  /\ (forall nm, nm ∈ extract_permanent_names rows
     <-> nm <> ""
         /\ exists row, row ∈ rows /\ strip (characterName row) = nm
              /\ _is_permanent_unblock_date (strip (unBlockedDate row)) = true)
  /\ extract_permanent_names rows ⊆ extract_names rows.
Proof.
  split; [apply extract_names_elem|]. split; [apply extract_permanent_names_elem|].
  intros nm. rewrite extract_names_elem, extract_permanent_names_elem.
  intros (Hne & r & Hr & Hs & _). eauto.
Qed.

End NamesSpec.

Module QuoteSpec.

Import Nexon Requests.

Lemma N_of_ascii_bound (c : ascii) : (N_of_ascii c < 256)%N.
Proof. apply N_ascii_bounded. Qed.

Lemma upper_hex_digit_value (n : N) :
  (n < 16)%N ->
  N_of_ascii (upper_hex_digit n) = (if (n <? 10)%N then 48 + n else 55 + n)%N.
Proof.
  intros Hn. unfold upper_hex_digit.
  destruct (n <? 10)%N; apply N_ascii_embedding; lia.
Qed.

Lemma upper_hex_digit_inj (a b : N) :
  (a < 16)%N -> (b < 16)%N -> upper_hex_digit a = upper_hex_digit b -> a = b.
Proof.
  intros Ha Hb H. apply (f_equal N_of_ascii) in H.
  rewrite !upper_hex_digit_value in H by assumption.
  destruct (N.ltb_spec a 10), (N.ltb_spec b 10); lia.
Qed.

Lemma upper_hex_digit_unreserved (n : N) :
  (n < 16)%N -> is_unreserved (upper_hex_digit n) = true.
Proof.
  intros Hn. unfold is_unreserved. rewrite upper_hex_digit_value by assumption.
  destruct (N.ltb_spec n 10).
  - replace ((48 <=? 48 + n) && (48 + n <=? 57))%N with true; [apply orb_true_r || idtac|].
    + rewrite !orb_true_r. reflexivity.
    + symmetry. apply andb_true_intro. split; apply N.leb_le; lia.
  - replace ((65 <=? 55 + n) && (55 + n <=? 90))%N with true; [reflexivity|].
    symmetry. apply andb_true_intro. split; apply N.leb_le; lia.
Qed.

Lemma percent_reserved : is_unreserved "%" = false.
Proof. reflexivity. Qed.

Lemma hex_parts (c : ascii) :
  (N_of_ascii c / 16 < 16)%N /\ (N_of_ascii c mod 16 < 16)%N.
Proof.
  pose proof (N_of_ascii_bound c). split.
  - apply N.Div0.div_lt_upper_bound. lia.
  - apply N.mod_lt. lia.
Qed.

Lemma hex_parts_inj (c1 c2 : ascii) :
  upper_hex_digit (N_of_ascii c1 / 16) = upper_hex_digit (N_of_ascii c2 / 16) ->
  upper_hex_digit (N_of_ascii c1 mod 16) = upper_hex_digit (N_of_ascii c2 mod 16) ->
  c1 = c2.
Proof.
  intros Hh Hl.
  destruct (hex_parts c1), (hex_parts c2).
  apply upper_hex_digit_inj in Hh, Hl; try assumption.
  rewrite <- (ascii_N_embedding c1), <- (ascii_N_embedding c2). f_equal.
  rewrite (N.div_mod (N_of_ascii c1) 16), (N.div_mod (N_of_ascii c2) 16) by lia.
  rewrite Hh, Hl. reflexivity.
Qed.

(** What [quote] writes: letters, digits, [_ . - ~ /] and the percent
    sign of an escape. *)
Lemma quote_chars (s : string) :
  Forall url_safe (list_ascii_of_string (quote s)).
Proof.
  induction s as [|c s IH]; [constructor|].
  cbn [quote]. destruct (is_unreserved c) eqn:E; cbn [list_ascii_of_string].
  - constructor; [left; exact E | exact IH].
  - destruct (hex_parts c).
    constructor; [right; reflexivity|].
    constructor; [left; apply upper_hex_digit_unreserved; assumption|].
    constructor; [left; apply upper_hex_digit_unreserved; assumption|].
    exact IH.
Qed.

Lemma quote_inj (s1 s2 : string) : quote s1 = quote s2 -> s1 = s2.
Proof.
  revert s2. induction s1 as [|c1 s1 IH]; intros [|c2 s2] H.
  - reflexivity.
  - cbn [quote] in H. destruct (is_unreserved c2); discriminate H.
  - cbn [quote] in H. destruct (is_unreserved c1); discriminate H.
  - cbn [quote] in H.
    destruct (is_unreserved c1) eqn:E1, (is_unreserved c2) eqn:E2.
    + injection H as -> H. f_equal. apply IH, H.
    + injection H as -> _. rewrite percent_reserved in E1. discriminate.
    + injection H as <- _. rewrite percent_reserved in E2. discriminate.
    + injection H as Hh Hl H.
      rewrite (hex_parts_inj c1 c2 Hh Hl).
      f_equal. apply IH, H.
Qed.

Lemma append_cons (a : ascii) (s t : string) :
  String a s +:+ t = String a (s +:+ t).
Proof. reflexivity. Qed.

Lemma append_nil (t : string) : "" +:+ t = t.
Proof. reflexivity. Qed.

Lemma append_cancel (p a b : string) : p +:+ a = p +:+ b -> a = b.
Proof.
  induction p as [|c p IH]; rewrite ?append_cons, ?append_nil; [auto|].
  intros [= H]. auto.
Qed.

Lemma amp_not_safe : ~ url_safe "&".
Proof. intros [H|H]; discriminate H. Qed.

(** A quoted text holds no ampersand, so it ends where the next
    parameter starts. *)
Lemma quoted_then_amp (u1 u2 r1 r2 : string) :
  Forall url_safe (list_ascii_of_string u1) ->
  Forall url_safe (list_ascii_of_string u2) ->
  u1 +:+ String "&" r1 = u2 +:+ String "&" r2 -> u1 = u2 /\ r1 = r2.
Proof.
  revert u2. induction u1 as [|c1 u1 IH]; intros [|c2 u2] H1 H2 H;
    rewrite ?append_cons, ?append_nil in H.
  - injection H as ->. auto.
  - injection H as <- _. cbn in H2. inversion H2 as [|? ? Hc _].
    destruct (amp_not_safe Hc).
  - injection H as -> _. cbn in H1. inversion H1 as [|? ? Hc _].
    destruct (amp_not_safe Hc).
  - injection H as -> H. cbn in H1, H2.
    inversion H1 as [|? ? _ H1']. inversion H2 as [|? ? _ H2'].
    destruct (IH u2 H1' H2' H) as [-> ->]. auto.
Qed.

Lemma quoted_no_amp (u1 u2 r : string) :
  Forall url_safe (list_ascii_of_string u2) ->
  u1 +:+ String "&" r <> u2.
Proof.
  revert u2. induction u1 as [|c1 u1 IH]; intros [|c2 u2] H2 H;
    rewrite ?append_cons, ?append_nil in H; try discriminate H.
  - injection H as <- _. cbn in H2. inversion H2 as [|? ? Hc _].
    destruct (amp_not_safe Hc).
  - injection H as _ H. cbn in H2. inversion H2 as [|? ? _ H2'].
    exact (IH u2 H2' H).
Qed.

(** Two requests with a date, two without, or one of each. *)
Lemma dated_inj (o1 o2 : string) (d1 d2 : option string) :
  dated o1 d1 = dated o2 d2 ->
  o1 = o2
  /\ match d1, d2 with
     | Some (String c1 r1), Some (String c2 r2) => String c1 r1 = String c2 r2
     | Some (String _ _), _ | _, Some (String _ _) => False
     | _, _ => True
     end.
Proof.
  unfold dated. intros H.
  destruct d1 as [[|c1 r1]|], d2 as [[|c2 r2]|];
    try (apply quote_inj in H; auto);
    try (exfalso; apply (quoted_no_amp _ _ _ (quote_chars _)) in H; exact H);
    try (exfalso; symmetry in H;
         apply (quoted_no_amp _ _ _ (quote_chars _)) in H; exact H).
  apply (quoted_then_amp _ _ _ _ (quote_chars _) (quote_chars _)) in H
    as [Ho Hd].
  apply quote_inj in Ho. split; [exact Ho|].
  apply (append_cancel "date=") in Hd. apply quote_inj in Hd. exact Hd.
Qed.

Lemma url_of_stat (o : string) (d : option string) :
  url_of (GetStat o d) = BASE_URL +:+ "/character/stat?ocid=" +:+ dated o d.
Proof. destruct d as [[|c r]|]; reflexivity. Qed.

Lemma url_of_item_equipment (o : string) (d : option string) :
  url_of (GetItemEquipment o d)
  = BASE_URL +:+ "/character/item-equipment?ocid=" +:+ dated o d.
Proof. destruct d as [[|c r]|]; reflexivity. Qed.

Lemma effective_dated (o1 o2 : string) (d1 d2 : option string) :
  o1 = o2
  /\ match d1, d2 with
     | Some (String c1 r1), Some (String c2 r2) => String c1 r1 = String c2 r2
     | Some (String _ _), _ | _, Some (String _ _) => False
     | _, _ => True
     end ->
  (effective (GetStat o1 d1) = effective (GetStat o2 d2))
  /\ (effective (GetItemEquipment o1 d1) = effective (GetItemEquipment o2 d2)).
Proof.
  intros [-> Hd].
  destruct d1 as [[|c1 r1]|], d2 as [[|c2 r2]|]; cbn [effective];
    try contradiction; try (rewrite Hd); split; reflexivity.
Qed.

(** X6.  The URL of a request determines the operation and its
    arguments, an empty date counting as no date: two different requests
    never share a URL, and no name reaches the URL other than escaped,
    as letters, digits, [_ . - ~ /] and percent escapes, so that no space
    and no [& = ? #] of a name can add to the query. *)
Theorem request_url_determines_operation :
  (forall s, Forall url_safe (list_ascii_of_string (quote s)))
  /\ (forall op1 op2, url_of op1 = url_of op2 -> effective op1 = effective op2).
Proof.
  split; [exact quote_chars|].
  intros op1 op2 H.
  destruct op1 as [n1|o1|o1 d1|g1 w1|g1|o1 d1], op2 as [n2|o2|o2 d2|g2 w2|g2|o2 d2];
    rewrite ?url_of_stat, ?url_of_item_equipment in H;
    unfold url_of in H;
    apply append_cancel in H; rewrite ?append_cons, ?append_nil in H;
    try discriminate H;
    repeat match type of H with
           | String ?a _ = String ?a _ => injection H as H
           end;
    try discriminate H.
  - apply quote_inj in H. subst. reflexivity.
  - apply quote_inj in H. subst. reflexivity.
  - apply dated_inj in H.
    apply (effective_dated o1 o2 d1 d2 H).
  - apply (quoted_then_amp _ _ _ _ (quote_chars _) (quote_chars _)) in H
      as [Ho Hd].
    apply quote_inj in Ho. apply (append_cancel "world_name=") in Hd.
    apply quote_inj in Hd. subst. reflexivity.
  - apply quote_inj in H. subst. reflexivity.
  - apply dated_inj in H.
    apply (effective_dated o1 o2 d1 d2 H).
Qed.

End QuoteSpec.

(* ===================================================================== *)
(** * Further properties of the snapshot selector *)
(* ===================================================================== *)

Module SelectorMoreSpec.

Import Json Selector.

Lemma dict_keys_pop (k : string) (d : pydict) :
  forall x, x ∈ dict_keys (dict_pop k d) -> x ∈ dict_keys d.
Proof.
  unfold dict_keys. induction d as [|[k0 v0] d IH]; intros x; cbn; [auto|].
  case_decide; cbn; rewrite !elem_of_cons; [auto|]. intros [->|H']; auto.
Qed.

Lemma dict_pop_NoDup (k : string) (d : pydict) :
  NoDup (dict_keys d) -> NoDup (dict_keys (dict_pop k d)).
Proof.
  unfold dict_keys. induction d as [|[k0 v0] d IH]; cbn; intros Hnd; [constructor|].
  apply NoDup_cons in Hnd as [Hin Hnd].
  case_decide; cbn; [exact Hnd|].
  apply NoDup_cons. split; [|auto].
  intros Hx. apply Hin. apply (dict_keys_pop k d), Hx.
Qed.

Lemma dict_get_pop (k k' : string) (d : pydict) :
  NoDup (dict_keys d) ->
  dict_get k' (dict_pop k d) = if decide (k' = k) then None else dict_get k' d.
Proof.
  unfold dict_keys. induction d as [|[k0 v0] d IH]; cbn; intros Hnd.
  - case_decide; reflexivity.
  - apply NoDup_cons in Hnd as [Hin Hnd].
    destruct (decide (k = k0)) as [->|Hk].
    + destruct (decide (k' = k0)) as [->|Hk'].
      * destruct (dict_get k0 d) eqn:E; [|reflexivity].
        exfalso. apply Hin. apply (SelectorSpec.dict_get_is_Some k0 d). eauto.
      * reflexivity.
    + cbn. destruct (decide (k' = k0)) as [->|Hk'].
      * rewrite decide_False by congruence. reflexivity.
      * apply IH, Hnd.
Qed.

Section WithRepr.

Variable container_str : Json.t -> string.

Local Abbreviation candidates_of := (candidates_of container_str).
Local Abbreviation pick := (pick_best_preset_by_lowest_drop_rate container_str).

Lemma rewritten_NoDup (equip_json : pydict) (best : candidate) :
  NoDup (dict_keys equip_json) -> NoDup (dict_keys (rewritten equip_json best)).
Proof.
  intros Hnd. unfold rewritten.
  do 2 apply SelectorSpec.dict_keys_set_NoDup. do 3 apply dict_pop_NoDup. exact Hnd.
Qed.

Lemma rewritten_no_preset (equip_json : pydict) (best : candidate) (p : Z * string) :
  NoDup (dict_keys equip_json) -> p ∈ preset_keys ->
  dict_get p.2 (rewritten equip_json best) = None.
Proof.
  intros Hnd Hp. unfold rewritten.
  assert (Hk : p.2 = "item_equipment_preset_1" \/ p.2 = "item_equipment_preset_2"
               \/ p.2 = "item_equipment_preset_3").
  { unfold preset_keys in Hp. rewrite !elem_of_cons, elem_of_nil in Hp.
    destruct Hp as [-> | [-> | [-> | Hf]]]; [auto..|destruct Hf]. }
  rewrite !SelectorSpec.dict_get_set.
  rewrite !dict_get_pop by (try do 2 apply dict_pop_NoDup; try apply dict_pop_NoDup; exact Hnd).
  destruct Hk as [-> | [-> | ->]]; reflexivity.
Qed.

Lemma no_preset_no_candidate (d : pydict) :
  (forall p, p ∈ preset_keys -> dict_get p.2 d = None) -> candidates_of d = [].
Proof.
  intros H.
  assert (H1 := H (1, "item_equipment_preset_1")).
  assert (H2 := H (2, "item_equipment_preset_2")).
  assert (H3 := H (3, "item_equipment_preset_3")).
  unfold preset_keys in H1, H2, H3. rewrite !elem_of_cons in H1, H2, H3.
  cbn [snd] in H1, H2, H3.
  unfold Selector.candidates_of, preset_keys, candidate_of.
  cbn [omap list_omap fst snd].
  rewrite H1, H2, H3 by auto. reflexivity.
Qed.

Lemma pick_without_candidates (d : pydict) :
  candidates_of d = [] -> pick d = d.
Proof.
  intros H. unfold Selector.pick_best_preset_by_lowest_drop_rate.
  case_decide; [reflexivity|]. rewrite H. reflexivity.
Qed.

(** X7.  On a record with distinct keys the selector is idempotent: its
    output holds none of the three preset lists any more, keeps its keys
    distinct, and is returned unchanged when it is passed in again. *)
Theorem pick_best_preset_idempotent (equip_json : pydict) :
  NoDup (dict_keys equip_json) ->
  let out := pick equip_json in
  pick out = out
  /\ NoDup (dict_keys out)
  /\ (candidates_of equip_json <> [] ->
      forall p, p ∈ preset_keys -> dict_get p.2 out = None).
Proof.
  intros Hnd out.
  destruct (sort_candidates (candidates_of equip_json)) as [|best tl] eqn:Hs.
  - assert (Hc : candidates_of equip_json = []).
    { apply Permutation_nil_r. rewrite <- Hs. unfold sort_candidates.
      symmetry. apply merge_sort_Permutation. }
    assert (Ho : out = equip_json) by (apply pick_without_candidates, Hc).
    rewrite Ho. split; [apply pick_without_candidates, Hc|].
    split; [exact Hnd|]. intros Hne. congruence.
  - assert (Ho : out = rewritten equip_json best)
      by (eapply SelectorSpec.pick_rewrites, Hs).
    rewrite Ho. split; [|split].
    + apply pick_without_candidates, no_preset_no_candidate.
      intros p Hp. apply rewritten_no_preset; assumption.
    + apply rewritten_NoDup, Hnd.
    + intros _ p Hp. apply rewritten_no_preset; assumption.
Qed.

End WithRepr.

Import Samples Fixtures.

(** The sample record, selected twice. *)
Lemma pick_best_preset_idempotent_witness :
  Selector.pick_best_preset_by_lowest_drop_rate (fun _ => "")
    (Selector.pick_best_preset_by_lowest_drop_rate (fun _ => "") sample_equip)
  = Selector.pick_best_preset_by_lowest_drop_rate (fun _ => "") sample_equip.
Proof.
  apply (pick_best_preset_idempotent (fun _ => "") sample_equip).
  apply (bool_decide_unpack _). vm_compute. exact I.
Defined.

End SelectorMoreSpec.

(* ===================================================================== *)
(** * Further properties of the profile upserts *)
(* ===================================================================== *)

Module CharactersMoreSpec.

Import Characters.

Lemma upsert_twice (set_clause : row -> row -> row) (excluded : row) (t : table) :
  (forall stored,
     set_clause (set_clause stored excluded) excluded = set_clause stored excluded) ->
  set_clause excluded excluded = excluded ->
  upsert set_clause excluded (upsert set_clause excluded t)
  = upsert set_clause excluded t.
Proof.
  intros Hss Hee. unfold upsert at 1.
  rewrite CharactersSpec.upsert_lookup.
  unfold upsert. destruct (t !! ocid excluded) as [stored|] eqn:E.
  - rewrite insert_insert_eq. f_equal. apply Hss.
  - rewrite insert_insert_eq. f_equal. apply Hee.
Qed.

Lemma case_greater_twice (e s : option Z) :
  case_greater e (case_greater e s) = case_greater e s.
Proof.
  unfold case_greater. destruct e as [x|], s as [d|]; cbn;
    repeat (case_decide; cbn in * ); try reflexivity;
    first [f_equal; lia | exfalso; lia].
Qed.

Lemma case_nonzero_twice (e s : option Z) :
  case_nonzero e (case_nonzero e s) = case_nonzero e s.
Proof.
  unfold case_nonzero. destruct e as [x|]; [|reflexivity].
  case_decide; reflexivity.
Qed.

Lemma COALESCE_twice {A : Type} (e s : option A) :
  COALESCE e (COALESCE e s) = COALESCE e s.
Proof. destruct e; reflexivity. Qed.

Lemma sql_max_twice (e s : option Z) (x : Z) :
  e = Some x ->
  sql_max (COALESCE (sql_max (COALESCE s (Some 0)) e) (Some 0)) e
  = sql_max (COALESCE s (Some 0)) e.
Proof. intros ->. destruct s as [d|]; cbn; f_equal; lia. Qed.

Lemma write_basic_results_set_twice (stored excluded : row) :
  write_basic_results_set (write_basic_results_set stored excluded) excluded
  = write_basic_results_set stored excluded.
Proof.
  unfold write_basic_results_set; cbn.
  rewrite !COALESCE_twice, !case_greater_twice, case_nonzero_twice. reflexivity.
Qed.

Lemma bootstrap_set_twice (stored excluded : row) (x : Z) :
  character_level excluded = Some x ->
  bootstrap_set (bootstrap_set stored excluded) excluded
  = bootstrap_set stored excluded.
Proof.
  intros Hx. unfold bootstrap_set; cbn.
  rewrite COALESCE_twice, (sql_max_twice _ _ x Hx). reflexivity.
Qed.

(** X8.  Each of the three profile upserts is idempotent: applying the
    same write a second time leaves the table as the first left it.  It
    also leaves every row under another key as it was. *)
Theorem profile_upserts_idempotent
    (k name world now : string) (b : basic) (t : table) :
  update_characters_write k name world now b
    (update_characters_write k name world now b t)
  = update_characters_write k name world now b t
  /\ write_basic_results_write k name world now b
       (write_basic_results_write k name world now b t)
     = write_basic_results_write k name world now b t
  /\ bootstrap_write k name world now b (bootstrap_write k name world now b t)
     = bootstrap_write k name world now b t
  /\ (forall k', k' <> k ->
        update_characters_write k name world now b t !! k' = t !! k'
        /\ write_basic_results_write k name world now b t !! k' = t !! k'
        /\ bootstrap_write k name world now b t !! k' = t !! k').
Proof.
  split; [|split; [|split]].
  - apply upsert_twice; reflexivity.
  - apply upsert_twice.
    + intros stored. apply write_basic_results_set_twice.
    + unfold write_basic_results_set, write_basic_results_params; cbn.
      unfold case_greater, case_nonzero, safe_int.
      f_equal; try (destruct b; cbn;
                    match goal with |- context [COALESCE ?x _] => destruct x end;
                    reflexivity);
        repeat (case_decide; cbn); try reflexivity; try lia.
  - apply upsert_twice.
    + intros stored.
      apply (bootstrap_set_twice _ _ (int_or_0 (b_character_level b))).
      reflexivity.
    + unfold bootstrap_set, bootstrap_params; cbn.
      f_equal; [destruct (b_character_class b); reflexivity|f_equal; lia].
  - intros k' Hk. repeat split; apply CharactersSpec.upsert_lookup_ne; exact Hk.
Qed.

Import Samples Fixtures.

(** The level-180 profile written twice over the stored one. *)
Lemma profile_upserts_idempotent_witness :
  Characters.update_characters_write "ocid-1" "Aria" "挑戰者"
    "2025-12-10T08:00:00" incoming_180
    (Characters.update_characters_write "ocid-1" "Aria" "挑戰者"
       "2025-12-10T08:00:00" incoming_180 table_200)
  = Characters.update_characters_write "ocid-1" "Aria" "挑戰者"
      "2025-12-10T08:00:00" incoming_180 table_200.
Proof.
  apply (proj1 (profile_upserts_idempotent "ocid-1" "Aria"
                  "挑戰者" "2025-12-10T08:00:00" incoming_180 table_200)).
Defined.

End CharactersMoreSpec.

(* ===================================================================== *)
(** * Freshness after a write, and runs of the list sync in sequence *)
(* ===================================================================== *)

Module FreshnessSpec.

Import PyStr Characters Staleness.

Section WithClock.

Variable datetime_fromisoformat : string -> option Clock.datetime.
Variable today : Z.

(** X9.  A profile that either upsert has just written with a time stamp
    of today is not stale for any threshold of one day or more: the next
    cycle with the same threshold does not refresh it again. *)
Theorem written_profile_is_fresh
    (k name world now : string) (b : basic) (t : table)
    (refresh_days : Z) (dt : Clock.datetime) :
  now <> "" ->
  datetime_fromisoformat (replace_char "Z" "+00:00" now) = Some dt ->
  Clock.dt_date dt = today ->
  1 <= refresh_days ->
  should_refresh_character datetime_fromisoformat today
    (update_characters_write k name world now b t) k refresh_days = false
  /\ should_refresh_character datetime_fromisoformat today
       (write_basic_results_write k name world now b t) k refresh_days = false.
Proof.
  intros Hne Hparse Hday Hr.
  assert (Hgen : forall t' : table,
            t' !! k ≫= updated_at = Some now ->
            should_refresh_character datetime_fromisoformat today t' k refresh_days
            = false).
  { intros t' Ht. unfold should_refresh_character, _basic_updated_at. rewrite Ht.
    destruct now as [|c now']; [congruence|].
    apply bool_decide_eq_false. unfold _days_since. rewrite Hparse. lia. }
  split; apply Hgen.
  - unfold update_characters_write.
    pose proof (CharactersSpec.upsert_lookup update_characters_set
                  (update_characters_params k name world now b) t) as H.
    cbn [ocid update_characters_params] in H. rewrite H.
    destruct (t !! k); reflexivity.
  - unfold write_basic_results_write.
    pose proof (CharactersSpec.upsert_lookup write_basic_results_set
                  (write_basic_results_params k name world now b) t) as H.
    cbn [ocid write_basic_results_params] in H. rewrite H.
    destruct (t !! k); reflexivity.
Qed.

End WithClock.

Import Samples Fixtures.

(** A profile written today at 08:00, checked with a threshold of one day. *)
Lemma written_profile_is_fresh_witness :
  Staleness.should_refresh_character today_timestamp 739595
    (Characters.update_characters_write "ocid-1" "Aria" "挑戰者"
       "2025-12-10T08:00:00" incoming_180 table_200) "ocid-1" 1 = false.
Proof.
  apply (proj1 (written_profile_is_fresh today_timestamp 739595
                  "ocid-1" "Aria" "挑戰者" "2025-12-10T08:00:00" incoming_180
                  table_200 1 (Clock.mk_datetime 739595 8 0 0 0)
                  ltac:(discriminate) eq_refl eq_refl ltac:(lia))).
Defined.

End FreshnessSpec.

Module ListSyncMoreSpec.

Import ListSync.

Section WithSite.

Variable store : Type.
Variable init : option (string * string).
Variable fetch_all_for_date : Z -> option (list Blacklist.list_record).
Variable purge_or_skip_blacklisted : store -> gset string -> option (store * Z).

Local Abbreviation sync_days :=
  (sync_days store fetch_all_for_date purge_or_skip_blacklisted).
Local Abbreviation sync :=
  (sync_blacklist_incremental store init fetch_all_for_date
     purge_or_skip_blacklisted).
Local Abbreviation day_events := (day_events fetch_all_for_date).
Local Abbreviation names_of := (names_of fetch_all_for_date).
Local Abbreviation state := (ListSync.state store).
Local Abbreviation start_day := (start_day store).

Lemma sync_unfold (world : string) (first_start_date : Z) (permanent_only : bool)
    (now : Clock.datetime) (st : state) :
  let latest := Clock._latest_available_block_date now in
  let start := start_day world first_start_date st in
  sync world first_start_date permanent_only now st
  = if decide (latest < first_start_date)
    then (Returned (NotRan "latest < first_start_date" None None), st)
    else if decide (start > latest)
    then (Returned (NotRan "up-to-date" (Some start) (Some latest)), st)
    else match init with
         | None => (Raises, st)
         | Some _ =>
             match sync_days (S (Z.to_nat (latest - start + 1))) world
                     permanent_only latest start (mk_counters 0 0 0 0) st with
             | (None, st') => (Raises, st')
             | (Some acc, st') =>
                 (Returned (Ran start latest (latest - start + 1)
                              (scanned_total_names acc)
                              (scanned_effective_names acc)
                              (applied_matched_total acc)), st')
             end
         end.
Proof.
  unfold ListSync.sync_blacklist_incremental, ListSync.start_day.
  cbn zeta. repeat case_decide; try reflexivity.
  destruct init as [[csrf sid]|]; reflexivity.
Qed.

(** X10.  A run in which no step raises leaves the cursor at the latest
    available day, and a second run at the same time of day then reports
    "up-to-date" and leaves the state, history included, as it is. *)
Theorem sync_rerun_is_noop (world : string) (first_start_date : Z)
    (permanent_only : bool) (now : Clock.datetime) (st : state) :
  let latest := Clock._latest_available_block_date now in
  let start := start_day world first_start_date st in
  first_start_date <= latest -> start <= latest ->
  is_Some init ->
  (forall d, start <= d <= latest -> is_Some (fetch_all_for_date d)) ->
  (forall db names, is_Some (purge_or_skip_blacklisted db names)) ->
  exists r (st' : state),
    sync world first_start_date permanent_only now st = (Returned r, st')
    /\ sync_log st' !! world = Some latest
    /\ sync world first_start_date permanent_only now st'
       = (Returned (NotRan "up-to-date" (Some (latest + 1)) (Some latest)), st').
Proof.
  intros latest start Hfirst Hstart [[csrf sid] Hinit] Hfetch Hpurge.
  destruct (ListSyncSpec.sync_days_complete store fetch_all_for_date
              purge_or_skip_blacklisted world permanent_only latest
              (S (Z.to_nat (latest - start + 1))) Hpurge start
              (mk_counters 0 0 0 0) st Hfetch ltac:(lia))
    as (acc' & st' & Hrun & _ & Hl & _).
  rewrite decide_True in Hl by lia.
  assert (Hcur : sync_log st' !! world = Some latest)
    by (rewrite Hl; apply lookup_insert_eq).
  eexists _, st'. split; [|split; [exact Hcur|]].
  - rewrite sync_unfold. fold latest start.
    rewrite decide_False by lia. rewrite decide_False by lia.
    rewrite Hinit, Hrun. reflexivity.
  - rewrite sync_unfold. fold latest.
    rewrite decide_False by lia.
    unfold ListSync.start_day, get_blacklist_last_sync_date. rewrite Hcur.
    rewrite decide_True by lia. reflexivity.
Qed.

(** The loop when the fetch of day [d] is the first step to raise. *)
Lemma sync_days_cut_short (world : string) (permanent_only : bool) (latest d : Z)
    (fuel : nat) :
  (forall db names, is_Some (purge_or_skip_blacklisted db names)) ->
  fetch_all_for_date d = None -> d <= latest ->
  forall (cur : Z) (acc : counters) (st : state),
    cur <= d ->
    (forall d', cur <= d' < d -> is_Some (fetch_all_for_date d')) ->
    d - cur < Z.of_nat fuel ->
    exists st' : state,
      sync_days fuel world permanent_only latest cur acc st = (None, st')
      /\ trace st'
         = trace st ++ flat_map (day_events permanent_only) (seqZ cur (d - cur))
      /\ sync_log st'
         = (if decide (cur < d) then <[world := d - 1]> (sync_log st)
            else sync_log st).
Proof.
  intros Hpurge Hd Hlatest.
  induction fuel as [|fuel IH]; intros cur acc st Hcur Hfetch Hfuel; [lia|].
  cbn [ListSync.sync_days]. rewrite decide_True by lia.
  destruct (decide (cur = d)) as [->|Hne].
  { rewrite Hd. exists st. rewrite Z.sub_diag, decide_False by lia.
    cbn. rewrite app_nil_r. auto. }
  assert (Hday : forall acc1 (st1 : state),
            sync_log st1 = sync_log st ->
            trace st1 ++ [EvCursor cur]
            = trace st ++ day_events permanent_only cur ->
            exists st' : state,
              sync_days fuel world permanent_only latest (cur + 1) acc1
                (set_blacklist_last_sync_date store world cur st1)
              = (None, st')
              /\ trace st'
                 = trace st
                   ++ flat_map (day_events permanent_only) (seqZ cur (d - cur))
              /\ sync_log st' = <[world := d - 1]> (sync_log st)).
  { intros acc1 st1 Hlog Htr.
    destruct (IH (cur + 1) acc1
                 (set_blacklist_last_sync_date store world cur st1))
      as (st' & Hrun & Ht & Hl).
    { lia. }
    { intros d' Hd'. apply Hfetch. lia. }
    { lia. }
    exists st'. split; [exact Hrun|].
    cbn [set_blacklist_last_sync_date log trace sync_log] in Ht, Hl.
    split.
    - rewrite Ht, Htr, <- app_assoc. f_equal.
      rewrite (seqZ_cons cur (d - cur)) by lia. cbn [flat_map].
      replace (Z.succ cur) with (cur + 1) by lia.
      replace (Z.pred (d - cur)) with (d - (cur + 1)) by lia.
      reflexivity.
    - rewrite Hl, Hlog. case_decide.
      + apply insert_insert_eq.
      + f_equal. lia. }
  rewrite (decide_True (P := cur < d)) by lia.
  destruct (Hfetch cur ltac:(lia)) as [rows Hrows].
  assert (Hnames : names_of permanent_only cur
                   = if permanent_only then extract_permanent_names rows
                     else extract_names rows).
  { unfold ListSync.names_of. rewrite Hrows. reflexivity. }
  rewrite Hrows, <- Hnames.
  unfold ListSync.day_events in Hday.
  destruct (decide (names_of permanent_only cur = ∅)) as [He|He].
  - apply Hday; cbn.
    + reflexivity.
    + rewrite <- app_assoc. reflexivity.
  - cbn [db log].
    destruct (Hpurge (db st) (names_of permanent_only cur))
      as [[db' matched] ->].
    apply Hday; cbn.
    + reflexivity.
    + rewrite <- !app_assoc. reflexivity.
Qed.

(** X11.  When the fetch of day [d] is the first step of a run to raise,
    the run raises, the days before [d] have been fetched, applied and
    recorded in order, nothing of day [d] has been recorded, and the next
    run starts at day [d] itself: no day is skipped and none is repeated. *)
Theorem sync_resumes_at_failed_day (world : string) (first_start_date : Z)
    (permanent_only : bool) (now : Clock.datetime) (st : state) (d : Z) :
  let latest := Clock._latest_available_block_date now in
  let start := start_day world first_start_date st in
  first_start_date <= latest -> start <= d <= latest ->
  is_Some init ->
  fetch_all_for_date d = None ->
  (forall d', start <= d' < d -> is_Some (fetch_all_for_date d')) ->
  (forall db names, is_Some (purge_or_skip_blacklisted db names)) ->
  exists st' : state,
    sync world first_start_date permanent_only now st = (Raises, st')
    /\ trace st'
       = trace st
         ++ flat_map (day_events permanent_only) (seqZ start (d - start))
    /\ start_day world first_start_date st' = d.
Proof.
  intros latest start Hfirst Hd [[csrf sid] Hinit] Hraise Hfetch Hpurge.
  destruct (sync_days_cut_short world permanent_only latest d
              (S (Z.to_nat (latest - start + 1))) Hpurge Hraise ltac:(lia)
              start (mk_counters 0 0 0 0) st ltac:(lia) Hfetch ltac:(lia))
    as (st' & Hrun & Ht & Hl).
  exists st'. split; [|split; [exact Ht|]].
  - rewrite sync_unfold. fold latest start.
    rewrite decide_False by lia. rewrite decide_False by lia.
    rewrite Hinit, Hrun. reflexivity.
  - unfold ListSync.start_day, get_blacklist_last_sync_date. rewrite Hl.
    case_decide as Hlt.
    + rewrite lookup_insert_eq. lia.
    + fold (get_blacklist_last_sync_date store world st).
      fold (ListSync.start_day store world first_start_date st).
      fold start. lia.
Qed.

End WithSite.
Import Samples Fixtures.

(** Two runs at 2025-12-10 07:00 from the cursor 2025-12-07. *)
Lemma sync_rerun_is_noop_witness :
  exists r (st' : ListSync.state unit),
    ListSync.sync_blacklist_incremental unit (Some ("token", "7")) empty_site
      no_purge "挑戰者" 739588 true sample_now
      (ListSync.mk_state {[ "挑戰者" := 739592 ]} tt [])
    = (ListSync.Returned r, st')
    /\ ListSync.sync_blacklist_incremental unit (Some ("token", "7")) empty_site
         no_purge "挑戰者" 739588 true sample_now st'
       = (ListSync.Returned
            (ListSync.NotRan "up-to-date" (Some 739595) (Some 739594)), st').
Proof.
  destruct (sync_rerun_is_noop unit (Some ("token", "7"))
              empty_site no_purge "挑戰者" 739588 true sample_now
              (ListSync.mk_state {[ "挑戰者" := 739592 ]} tt []))
    as (r & st' & Hrun & _ & Hagain).
  - vm_compute. intros H. discriminate H.
  - vm_compute. intros H. discriminate H.
  - eexists. reflexivity.
  - intros d _. eexists. reflexivity.
  - intros db names. eexists. reflexivity.
  - exists r, st'. split; [exact Hrun|exact Hagain].
Defined.

(** The listing of 2025-12-09 cannot be fetched: the next run starts there. *)
Lemma sync_resumes_at_failed_day_witness :
  exists st' : ListSync.state unit,
    ListSync.sync_blacklist_incremental unit (Some ("token", "7")) failing_site
      no_purge "挑戰者" 739588 true sample_now
      (ListSync.mk_state {[ "挑戰者" := 739592 ]} tt [])
    = (ListSync.Raises, st')
    /\ ListSync.start_day unit "挑戰者" 739588 st' = 739594.
Proof.
  destruct (sync_resumes_at_failed_day unit (Some ("token", "7"))
              failing_site no_purge "挑戰者" 739588 true sample_now
              (ListSync.mk_state {[ "挑戰者" := 739592 ]} tt []) 739594)
    as (st' & Hrun & _ & Hstart).
  - vm_compute. intros H. discriminate H.
  - vm_compute. split; intros H; discriminate H.
  - eexists. reflexivity.
  - reflexivity.
  - intros d Hd. unfold failing_site.
    destruct (decide (d = 739594)) as [->|_]; [|eexists; reflexivity].
    exfalso. destruct Hd as [_ Hd]. vm_compute in Hd. discriminate Hd.
  - intros db names. eexists. reflexivity.
  - exists st'. split; [exact Hrun|exact Hstart].
Defined.

End ListSyncMoreSpec.

(* ===================================================================== *)
(** * Properties of applying a block list *)
(* ===================================================================== *)

Module PurgeSpec.

Import PyStr Chunks Nexon Purge.

Lemma chunked_concat {A : Type} (n : nat) (l : list A) :
  n <> 0%nat -> concat (default [] (_chunked l n)) = l.
Proof.
  intros Hn. destruct n as [|n]; [congruence|].
  unfold _chunked, range_step. cbn [default].
  rewrite <- list_fmap_compose.
  apply (ChunksSpec.chunk_map_concat (S n)).
  apply (ChunksSpec.chunk_count_bounds (length l) (S n)). lia.
Qed.

Lemma chunks_500_concat (l : list string) : concat (chunks_500 l) = l.
Proof. apply chunked_concat. lia. Qed.

Lemma elem_of_sorted_set (x : string) (s : gset string) :
  x ∈ sorted_set s <-> x ∈ s.
Proof.
  unfold sorted_set. rewrite merge_sort_Permutation. apply elem_of_elements.
Qed.

Lemma NoDup_sorted_set (s : gset string) : NoDup (sorted_set s).
Proof.
  unfold sorted_set. rewrite merge_sort_Permutation. apply NoDup_elements.
Qed.

Lemma length_sorted_set (s : gset string) : length (sorted_set s) = size s.
Proof.
  unfold sorted_set. rewrite merge_sort_Permutation. reflexivity.
Qed.

Lemma sorted_set_nil (s : gset string) : sorted_set s = [] -> s = ∅.
Proof.
  intros H. apply leibniz_equiv, size_empty_inv.
  rewrite <- length_sorted_set, H. reflexivity.
Qed.

Lemma elem_of_concat {A : Type} (x : A) (ls : list (list A)) :
  x ∈ concat ls <-> exists l, x ∈ l /\ l ∈ ls.
Proof.
  induction ls as [|l ls IH]; cbn [concat].
  - split; [intros H; inversion H|intros (l & _ & H); inversion H].
  - rewrite elem_of_app, IH. split.
    + intros [H|(l' & H & Hl')].
      * exists l. split; [exact H|left].
      * exists l'. split; [exact H|right; exact Hl'].
    + intros (l' & H & Hl'). apply elem_of_cons in Hl' as [->|Hl'].
      * left. exact H.
      * right. exists l'. auto.
Qed.

Lemma delete_ocids_lookup {K V : Type} `{Countable K} (f : K -> string)
    (c : list string) (t : gmap K V) (k : K) :
  delete_ocids f c t !! k = if decide (f k ∈ c) then None else t !! k.
Proof.
  unfold delete_ocids. case_decide as Hk.
  - apply map_lookup_filter_None. right. intros v _ Hn. cbn in Hn. auto.
  - apply option_eq. intros v. rewrite map_lookup_filter_Some. cbn. tauto.
Qed.

Lemma delete_ocids_nil {K V : Type} `{Countable K} (f : K -> string)
    (t : gmap K V) :
  delete_ocids f [] t = t.
Proof.
  apply map_eq. intros k. rewrite delete_ocids_lookup.
  rewrite decide_False; [reflexivity|]. apply not_elem_of_nil.
Qed.

Lemma delete_ocids_app {K V : Type} `{Countable K} (f : K -> string)
    (c c' : list string) (t : gmap K V) :
  delete_ocids f c' (delete_ocids f c t) = delete_ocids f (c ++ c') t.
Proof.
  apply map_eq. intros k. rewrite !delete_ocids_lookup.
  repeat case_decide; try reflexivity; exfalso;
    rewrite elem_of_app in *; tauto.
Qed.

Section WithColumns.

Context {stats_cols power_cols best_cols equip_cols items_cols : Type}.

Local Abbreviation database :=
  (database stats_cols power_cols best_cols equip_cols items_cols).

Implicit Types db : database.

Lemma delete_chunk_nil (deh : bool) db : delete_chunk _ _ _ _ _ deh db [] = db.
Proof.
  destruct db. unfold delete_chunk. cbn. rewrite !delete_ocids_nil.
  destruct deh; rewrite ?delete_ocids_nil; reflexivity.
Qed.

Lemma foldl_delete_chunk (deh : bool) (cs : list (list string)) :
  forall db,
    foldl (delete_chunk _ _ _ _ _ deh) db cs
    = delete_chunk _ _ _ _ _ deh db (concat cs).
Proof.
  induction cs as [|c cs IH]; intros db; cbn [foldl concat].
  - symmetry. apply delete_chunk_nil.
  - rewrite IH. unfold delete_chunk. cbn.
    rewrite !delete_ocids_app. destruct deh; rewrite ?delete_ocids_app; reflexivity.
Qed.

Lemma select_listed_concat (world : string) db (cs : list (list string)) :
  concat (select_listed _ _ _ _ _ world db <$> cs)
  = select_listed _ _ _ _ _ world db (concat cs).
Proof.
  induction cs as [|c cs IH]; [reflexivity|].
  rewrite fmap_cons. cbn [concat]. rewrite IH.
  unfold select_listed. rewrite filter_app. reflexivity.
Qed.

Lemma elem_of_select_ocids (world : string) db (chunk : list string) (k : string) :
  k ∈ select_ocids _ _ _ _ _ world db chunk
  <-> k <> ""
      /\ exists r nm,
           characters db !! k = Some r
           /\ Characters.world_name r = Some world
           /\ Characters.character_name r = Some nm
           /\ nm ∈ chunk.
Proof.
  unfold select_ocids. rewrite list_elem_of_omap. split.
  - intros ([k' r] & Hin & Hsel). apply elem_of_map_to_list in Hin.
    cbn [fst snd] in Hsel.
    destruct (bool_decide (Characters.world_name r = Some world)) eqn:Hw;
      [|discriminate].
    destruct (Characters.character_name r) as [nm|] eqn:Hn; [|discriminate].
    destruct (bool_decide (nm ∈ chunk)) eqn:Hc; [|discriminate].
    destruct (bool_decide (k' = "")) eqn:He; [discriminate|].
    cbn in Hsel. injection Hsel as <-.
    apply bool_decide_eq_true in Hw, Hc. apply bool_decide_eq_false in He.
    split; [exact He|]. exists r, nm. auto.
  - intros (Hk & r & nm & Hr & Hw & Hn & Hc).
    exists (k, r). split; [apply elem_of_map_to_list; exact Hr|].
    cbn [fst snd]. rewrite Hn.
    rewrite (bool_decide_eq_true_2 _ Hw), (bool_decide_eq_true_2 _ Hc),
      (bool_decide_eq_false_2 _ Hk).
    reflexivity.
Qed.

Lemma elem_of_select_ocids_concat (world : string) db (cs : list (list string))
    (k : string) :
  k ∈ concat (select_ocids _ _ _ _ _ world db <$> cs)
  <-> k ∈ select_ocids _ _ _ _ _ world db (concat cs).
Proof.
  rewrite elem_of_concat, elem_of_select_ocids. split.
  - intros (l & Hk & Hl). apply list_elem_of_fmap in Hl as (c & -> & Hc).
    apply elem_of_select_ocids in Hk as (Hne & r & nm & Hr & Hw & Hn & Hin).
    split; [exact Hne|]. exists r, nm. repeat split; try assumption.
    apply elem_of_concat. exists c. auto.
  - intros (Hne & r & nm & Hr & Hw & Hn & Hin).
    apply elem_of_concat in Hin as (c & Hin & Hc).
    exists (select_ocids _ _ _ _ _ world db c). split.
    + apply elem_of_select_ocids. split; [exact Hne|]. exists r, nm. auto.
    + apply list_elem_of_fmap. exists c. auto.
Qed.

Lemma elem_of_wanted (names : gset string) (nm : string) :
  nm ∈ filter (fun x => x <> "") (set_map strip names : gset string)
  <-> wanted names nm.
Proof.
  rewrite elem_of_filter, elem_of_map. unfold wanted. split.
  - intros (Hne & x & -> & Hx). split; [exact Hne|]. exists x. auto.
  - intros (Hne & x & Hx & ->). split; [exact Hne|]. exists x. auto.
Qed.

Lemma elem_of_listed (world : string) (names : gset string) db (nm : string) :
  nm ∈ (list_to_set
          (concat (select_listed _ _ _ _ _ world db
                     <$> chunks_500
                           (sorted_set
                              (filter (fun x => x <> "")
                                 (set_map strip names))))) : gset string)
  <-> wanted names nm /\ (nm, world) ∈ character_list db.
Proof.
  rewrite elem_of_list_to_set, select_listed_concat, chunks_500_concat.
  unfold select_listed. rewrite list_elem_of_filter, elem_of_sorted_set.
  rewrite elem_of_wanted. tauto.
Qed.

(** What a call with a valid mode does, in terms of the set [M] of the
    names it matched and the list [ocids] of the profiles it selected. *)
Lemma purge_or_skip_shape (now world : string) (names : gset string)
    (mode : string) (deh : bool) (limit : Z) db :
  let m := lower (strip mode) in
  m = "skip" \/ m = "purge" ->
  exists (M : gset string) (cl1 : gset (string * string)) (ocids : list string) r,
    (forall nm, nm ∈ M <-> wanted names nm /\ (nm, world) ∈ character_list db)
    /\ (forall p, p ∈ cl1
                  <-> p ∈ character_list db /\ ~ (p.2 = world /\ p.1 ∈ M))
    /\ size (character_list db) = (size cl1 + size M)%nat
    /\ (forall k, k ∈ ocids <-> purged world names db k)
    /\ purge_or_skip_blacklisted now world names mode deh limit db
       = Ok (let db1 :=
               mk_database cl1 (characters db) (character_stats db)
                 (character_power_summary db)
                 (character_item_equipment_best db)
                 (character_item_equipment db)
                 (character_equipment_items db) in
             if decide (m = "skip") then db1
             else delete_chunk _ _ _ _ _ deh db1 ocids, r)
    /\ matched r = Z.of_nat (size M)
    /\ deleted r = (if decide (m = "skip") then 0 else Z.of_nat (size M))
    /\ skipped r = (if decide (m = "skip") then Z.of_nat (size M) else 0).
Proof.
  intros m Hm.
  assert (Hearly : forall r0 : purge_result,
            (forall nm, ~ (wanted names nm /\ (nm, world) ∈ character_list db)) ->
            matched r0 = 0 -> deleted r0 = 0 -> skipped r0 = 0 ->
            exists (M : gset string) (cl1 : gset (string * string))
                   (ocids : list string) r,
              (forall nm, nm ∈ M
                          <-> wanted names nm /\ (nm, world) ∈ character_list db)
              /\ (forall p, p ∈ cl1
                            <-> p ∈ character_list db
                                /\ ~ (p.2 = world /\ p.1 ∈ M))
              /\ size (character_list db) = (size cl1 + size M)%nat
              /\ (forall k, k ∈ ocids <-> purged world names db k)
              /\ Ok (db, r0)
                 = Ok (let db1 :=
                         mk_database cl1 (characters db) (character_stats db)
                           (character_power_summary db)
                           (character_item_equipment_best db)
                           (character_item_equipment db)
                           (character_equipment_items db) in
                       if decide (m = "skip") then db1
                       else delete_chunk _ _ _ _ _ deh db1 ocids, r)
              /\ matched r = Z.of_nat (size M)
              /\ deleted r
                 = (if decide (m = "skip") then 0 else Z.of_nat (size M))
              /\ skipped r
                 = (if decide (m = "skip") then Z.of_nat (size M) else 0)).
  { intros r0 Hnone Hm0 Hd0 Hs0.
    exists ∅, (character_list db), [], r0.
    split; [|split; [|split; [|split; [|split; [|split; [|split]]]]]].
    - intros nm. split; [intros H; inversion H|intros H; destruct (Hnone nm H)].
    - intros p. split; [intros H; split; [exact H|]|tauto].
      intros [_ H']. inversion H'.
    - rewrite size_empty. lia.
    - intros k. split; [intros H; inversion H|].
      intros (_ & r & nm & _ & _ & _ & Hw & Hl). destruct (Hnone nm (conj Hw Hl)).
    - cbn zeta. rewrite delete_chunk_nil. destruct db. cbn.
      case_decide; reflexivity.
    - rewrite size_empty. exact Hm0.
    - rewrite size_empty, Hd0. case_decide; reflexivity.
    - rewrite size_empty, Hs0. case_decide; reflexivity. }
  unfold purge_or_skip_blacklisted. fold m.
  rewrite (bool_decide_eq_true_2 _ Hm). cbn [negb].
  destruct (decide (names = ∅)) as [Hempty|Hempty].
  { apply Hearly; try reflexivity.
    intros nm [(_ & x & Hx & _) _]. rewrite Hempty in Hx. inversion Hx. }
  destruct (sorted_set (filter (fun x => x <> "") (set_map strip names)))
    as [|b0 bl] eqn:Hbl.
  { apply Hearly; try reflexivity.
    intros nm [Hw _]. apply elem_of_wanted in Hw.
    rewrite (sorted_set_nil _ Hbl) in Hw. inversion Hw. }
  rewrite <- Hbl.
  set (M := list_to_set
              (concat (select_listed _ _ _ _ _ world db
                         <$> chunks_500
                               (sorted_set
                                  (filter (fun x => x <> "")
                                     (set_map strip names))))) : gset string).
  assert (HM : forall nm, nm ∈ M
                          <-> wanted names nm /\ (nm, world) ∈ character_list db)
    by (intros nm; apply elem_of_listed).
  destruct (sorted_set M) as [|m0 ml] eqn:Hml.
  { apply Hearly; try reflexivity.
    intros nm H. apply HM in H. rewrite (sorted_set_nil _ Hml) in H.
    inversion H. }
  rewrite <- Hml.
  set (R := list_to_set ((fun nm => (nm, world)) <$> sorted_set M)
            : gset (string * string)).
  assert (HR : forall p, p ∈ R <-> p.2 = world /\ p.1 ∈ M).
  { intros [nm w]. unfold R. rewrite elem_of_list_to_set, list_elem_of_fmap.
    cbn. split.
    - intros (y & Hy & Hin). injection Hy as -> ->.
      apply elem_of_sorted_set in Hin. auto.
    - intros [-> Hin]. exists nm. split; [reflexivity|].
      apply elem_of_sorted_set. exact Hin. }
  assert (Hsub : R ⊆ character_list db).
  { intros [nm w] Hp. apply HR in Hp as [Hw Hin]. cbn in Hw, Hin. subst w.
    apply HM in Hin. tauto. }
  assert (HsizeR : size R = size M).
  { unfold R. rewrite size_list_to_set.
    - rewrite length_fmap. apply length_sorted_set.
    - apply NoDup_fmap_2; [|apply NoDup_sorted_set].
      intros x y Hxy. congruence. }
  set (db1 := mk_database (character_list db ∖ R) (characters db)
                (character_stats db) (character_power_summary db)
                (character_item_equipment_best db)
                (character_item_equipment db) (character_equipment_items db)).
  set (ocids := sorted_set
                  (list_to_set
                     (concat (select_ocids _ _ _ _ _ world db1
                                <$> chunks_500 (sorted_set M))))).
  assert (Hocids : forall k, k ∈ ocids <-> purged world names db k).
  { intros k. unfold ocids.
    rewrite elem_of_sorted_set, elem_of_list_to_set,
      elem_of_select_ocids_concat, chunks_500_concat, elem_of_select_ocids.
    unfold purged. cbn [characters db1]. split.
    - intros (Hne & r & nm & Hr & Hw & Hn & Hin).
      apply elem_of_sorted_set, HM in Hin. split; [exact Hne|].
      exists r, nm. tauto.
    - intros (Hne & r & nm & Hr & Hw & Hn & Hwant & Hl).
      split; [exact Hne|]. exists r, nm. repeat split; try assumption.
      apply elem_of_sorted_set, HM. auto. }
  assert (Hsize : size (character_list db)
                  = (size (character_list db ∖ R) + size M)%nat).
  { rewrite size_difference by exact Hsub. rewrite HsizeR.
    pose proof (subseteq_size _ _ Hsub). lia. }
  assert (Hcl : forall p, p ∈ character_list db ∖ R
                          <-> p ∈ character_list db
                              /\ ~ (p.2 = world /\ p.1 ∈ M)).
  { intros p. rewrite elem_of_difference, HR. tauto. }
  clear Hearly. destruct (decide (m = "skip")) as [Hskip|Hskip].
  - eexists M, (character_list db ∖ R), ocids, _.
    split; [exact HM|]. split; [exact Hcl|]. split; [exact Hsize|].
    split; [exact Hocids|]. split; [reflexivity|]. cbn.
    rewrite length_sorted_set. auto.
  - eexists M, (character_list db ∖ R), ocids, _.
    split; [exact HM|]. split; [exact Hcl|]. split; [exact Hsize|].
    split; [exact Hocids|]. split.
    + cbn zeta. fold db1. fold ocids.
      rewrite foldl_delete_chunk, chunks_500_concat. reflexivity.
    + cbn. rewrite length_sorted_set. auto.
Qed.

(** X12.  With mode skip or purge (in any case, with blanks around it)
    the call removes from the character list exactly the entries of the
    given world whose name is the stripped, non-empty form of a name of
    the block list; entries of other worlds stay.  The matched count it
    reports is the number of entries removed, and in mode skip nothing
    else in the database changes. *)
Theorem purge_or_skip_removes_listed (now world : string) (names : gset string)
    (mode : string) (deh : bool) (limit : Z) db :
  let m := lower (strip mode) in
  m = "skip" \/ m = "purge" ->
  exists db' r,
    purge_or_skip_blacklisted now world names mode deh limit db = Ok (db', r)
    /\ (forall nm w,
          (nm, w) ∈ character_list db'
          <-> (nm, w) ∈ character_list db /\ ~ (w = world /\ wanted names nm))
    /\ Z.of_nat (size (character_list db))
       = Z.of_nat (size (character_list db')) + matched r
    /\ deleted r + skipped r = matched r
    /\ (m = "skip" ->
        deleted r = 0
        /\ db' = mk_database (character_list db') (characters db)
                   (character_stats db) (character_power_summary db)
                   (character_item_equipment_best db)
                   (character_item_equipment db)
                   (character_equipment_items db)).
Proof.
  intros m Hm.
  destruct (purge_or_skip_shape now world names mode deh limit db Hm)
    as (M & cl1 & ocids & r & HM & Hcl & Hsize & _ & Hrun & Hmat & Hdel & Hsk).
  fold m in Hrun, Hdel, Hsk.
  eexists _, r. split; [exact Hrun|].
  assert (Hlist : forall nm w,
            (nm, w) ∈ cl1
            <-> (nm, w) ∈ character_list db /\ ~ (w = world /\ wanted names nm)).
  { intros nm w. rewrite Hcl. cbn [fst snd]. rewrite HM.
    split; intros [H1 H2]; (split; [exact H1|]); intros [-> H3].
    - apply H2. tauto.
    - apply H2. tauto. }
  cbn zeta. destruct (decide (m = "skip")) as [Hskip|Hskip].
  - cbn [character_list]. split; [exact Hlist|]. split; [lia|].
    split; [lia|]. intros _. split; [exact Hdel|reflexivity].
  - unfold delete_chunk. cbn [character_list]. split; [exact Hlist|].
    split; [lia|]. split; [lia|]. intros H. contradiction.
Qed.

(** X13.  In mode purge the call also deletes the profile of every
    matched character: the rows of [characters] of that world whose name
    was matched, and every row of the statistics, power summary and best
    equipment tables under their ocids; rows under other ocids stay as
    they are.  The equipment history loses these rows only when
    [delete_equip_history] is set, and the table of equipment items is
    never touched. *)
Theorem purge_deletes_matched_profiles (now world : string)
    (names : gset string) (mode : string) (deh : bool) (limit : Z) db :
  lower (strip mode) = "purge" ->
  exists db' r,
    purge_or_skip_blacklisted now world names mode deh limit db = Ok (db', r)
    /\ deleted r = matched r /\ skipped r = 0
    /\ loses_rows id (purged world names db) (characters db) (characters db')
    /\ loses_rows fst (purged world names db)
         (character_stats db) (character_stats db')
    /\ loses_rows id (purged world names db)
         (character_power_summary db) (character_power_summary db')
    /\ loses_rows id (purged world names db)
         (character_item_equipment_best db) (character_item_equipment_best db')
    /\ (if deh
        then loses_rows fst (purged world names db)
               (character_item_equipment db) (character_item_equipment db')
        else character_item_equipment db' = character_item_equipment db)
    /\ character_equipment_items db' = character_equipment_items db.
Proof.
  intros Hm.
  destruct (purge_or_skip_shape now world names mode deh limit db
              (or_intror Hm))
    as (M & cl1 & ocids & r & _ & _ & _ & Hoc & Hrun & Hmat & Hdel & Hsk).
  cbn zeta in Hrun.
  destruct (decide (lower (strip mode) = "skip")) as [E|_];
    [rewrite Hm in E; discriminate|].
  eexists _, r. split; [exact Hrun|].
  split; [lia|]. split; [exact Hsk|].
  assert (Hloses : forall (K V : Type) `(Countable K) (f : K -> string)
                          (t : gmap K V),
            loses_rows f (purged world names db) t (delete_ocids f ocids t)).
  { intros K V ? ? f t k. rewrite delete_ocids_lookup. split; intros Hp.
    - rewrite decide_True; [reflexivity|]. apply Hoc. exact Hp.
    - rewrite decide_False; [reflexivity|]. rewrite Hoc. exact Hp. }
  unfold delete_chunk. cbn.
  repeat (split; [apply Hloses|]).
  destruct deh; split; try reflexivity. apply Hloses.
Qed.

(** X14.  Applying the same block list to the same world a second time,
    in either mode, matches nothing and leaves the database as the first
    call left it. *)
Theorem purge_or_skip_twice (now now2 world : string) (names : gset string)
    (mode mode2 : string) (deh deh2 : bool) (limit limit2 : Z) db db' r :
  lower (strip mode) = "skip" \/ lower (strip mode) = "purge" ->
  lower (strip mode2) = "skip" \/ lower (strip mode2) = "purge" ->
  purge_or_skip_blacklisted now world names mode deh limit db = Ok (db', r) ->
  exists r',
    purge_or_skip_blacklisted now2 world names mode2 deh2 limit2 db'
    = Ok (db', r')
    /\ matched r' = 0.
Proof.
  intros Hm Hm2 Hrun.
  assert (Hgone : forall nm,
            ~ (wanted names nm /\ (nm, world) ∈ character_list db')).
  { destruct (purge_or_skip_shape now world names mode deh limit db Hm)
      as (M & cl1 & ocids & r0 & HM & Hcl & _ & _ & Hrun0 & _).
    rewrite Hrun in Hrun0. injection Hrun0 as -> _.
    intros nm [Hw Hl].
    assert (Hl1 : (nm, world) ∈ cl1).
    { revert Hl. cbn zeta. case_decide; unfold delete_chunk; cbn; auto. }
    apply Hcl in Hl1 as [Hl1 Hno]. apply Hno. cbn. split; [reflexivity|].
    apply HM. auto. }
  destruct (purge_or_skip_shape now2 world names mode2 deh2 limit2 db' Hm2)
    as (M & cl1 & ocids & r' & HM & Hcl & _ & Hoc & Hrun2 & Hmat & _).
  assert (HMe : M = ∅).
  { apply leibniz_equiv. intros nm. rewrite HM. split; [|intros H; inversion H].
    intros H. destruct (Hgone nm H). }
  assert (Hcl1 : cl1 = character_list db').
  { apply leibniz_equiv. intros p. rewrite Hcl. split; [tauto|].
    intros H. split; [exact H|]. intros [_ H']. rewrite HMe in H'. inversion H'. }
  assert (Hnil : ocids = []).
  { apply elem_of_nil_inv. intros k Hk. apply Hoc in Hk.
    destruct Hk as (_ & r0 & nm & _ & _ & _ & Hw & Hl).
    destruct (Hgone nm (conj Hw Hl)). }
  exists r'. split.
  - rewrite Hrun2, Hcl1, Hnil. cbn zeta. rewrite delete_chunk_nil.
    destruct db'. cbn. case_decide; reflexivity.
  - rewrite Hmat, HMe, size_empty. reflexivity.
Qed.

End WithColumns.

Import Samples Fixtures.

(** The list with one blank-padded name, applied in mode skip. *)
Lemma purge_or_skip_removes_listed_witness :
  exists db' r,
    Purge.purge_or_skip_blacklisted "2025-12-10T08:00:00" "w" {[ " Bo " ]}
      " Skip " true 3000 sample_db = Nexon.Ok (db', r)
    /\ Z.of_nat (size (Purge.character_list sample_db))
       = Z.of_nat (size (Purge.character_list db')) + Purge.matched r
    /\ Purge.deleted r = 0.
Proof.
  destruct (purge_or_skip_removes_listed "2025-12-10T08:00:00" "w"
              {[ " Bo " ]} " Skip " true 3000 sample_db)
    as (db' & r & Hrun & _ & Hsize & _ & Hskip).
  - left. reflexivity.
  - exists db', r. split; [exact Hrun|]. split; [exact Hsize|].
    apply Hskip. reflexivity.
Defined.

(** The same list applied in mode purge. *)
Lemma purge_deletes_matched_profiles_witness :
  exists db' r,
    Purge.purge_or_skip_blacklisted "2025-12-10T08:00:00" "w" {[ " Bo " ]}
      "purge" true 3000 sample_db = Nexon.Ok (db', r)
    /\ Purge.deleted r = Purge.matched r
    /\ Purge.character_equipment_items db'
       = Purge.character_equipment_items sample_db.
Proof.
  destruct (purge_deletes_matched_profiles "2025-12-10T08:00:00" "w"
              {[ " Bo " ]} "purge" true 3000 sample_db)
    as (db' & r & Hrun & Hdel & _ & _ & _ & _ & _ & _ & Hitems).
  - reflexivity.
  - exists db', r. auto.
Defined.

(** The database after the skip, with the list applied again. *)
Lemma purge_or_skip_twice_witness :
  exists r',
    Purge.purge_or_skip_blacklisted "2025-12-11T08:00:00" "w" {[ " Bo " ]}
      "skip" true 3000
      (Purge.mk_database {[ ("Aria", "w"); ("Bo", "v") ]}
         (Purge.characters sample_db) (Purge.character_stats sample_db)
         (Purge.character_power_summary sample_db)
         (Purge.character_item_equipment_best sample_db)
         (Purge.character_item_equipment sample_db)
         (Purge.character_equipment_items sample_db))
    = Nexon.Ok
        (Purge.mk_database {[ ("Aria", "w"); ("Bo", "v") ]}
           (Purge.characters sample_db) (Purge.character_stats sample_db)
           (Purge.character_power_summary sample_db)
           (Purge.character_item_equipment_best sample_db)
           (Purge.character_item_equipment sample_db)
           (Purge.character_equipment_items sample_db), r')
    /\ Purge.matched r' = 0.
Proof.
  apply (purge_or_skip_twice "2025-12-10T08:00:00"
           "2025-12-11T08:00:00" "w" {[ " Bo " ]} "skip" "skip" true true
           3000 3000 sample_db _
           (Purge.mk_purge_result "w" 1 "skip" 0 1
              (Some "2025-12-10T08:00:00") ["Bo"])).
  - left. reflexivity.
  - left. reflexivity.
  - vm_compute. reflexivity.
Defined.

End PurgeSpec.

(* ===================================================================== *)
(** * The list sync over the database *)
(* ===================================================================== *)

Module SyncPurgeSpec.

Import PyStr Nexon Purge ListSync.

Section WithColumns.

Context {stats_cols power_cols best_cols equip_cols items_cols : Type}.

Local Abbreviation database :=
  (database stats_cols power_cols best_cols equip_cols items_cols).

Variable init : option (string * string).
Variable fetch_all_for_date : Z -> option (list Blacklist.list_record).
Variables (at_time world mode : string) (delete_equip_history : bool)
  (return_names_limit : Z).

Local Abbreviation apply_names :=
  (apply_block_list (stats_cols := stats_cols) (power_cols := power_cols)
     (best_cols := best_cols) (equip_cols := equip_cols)
     (items_cols := items_cols)
     at_time world mode delete_equip_history return_names_limit).
Local Abbreviation sync_days :=
  (sync_days database fetch_all_for_date apply_names).
Local Abbreviation sync :=
  (sync_blacklist_incremental database init fetch_all_for_date apply_names).
Local Abbreviation names_of := (names_of fetch_all_for_date).
Local Abbreviation state := (ListSync.state database).

(** One application inside a run. *)
Lemma apply_names_list (db db' : database) (names : gset string) (matched : Z) :
  apply_names db names = Some (db', matched) ->
  forall nm w,
    (nm, w) ∈ character_list db'
    <-> (nm, w) ∈ character_list db /\ ~ (w = world /\ wanted names nm).
Proof.
  unfold apply_block_list. intros Happ.
  destruct (bool_decide (lower (strip mode) = "skip"
                         \/ lower (strip mode) = "purge")) eqn:Hm.
  - apply bool_decide_eq_true in Hm.
    destruct (PurgeSpec.purge_or_skip_shape at_time world names mode
                delete_equip_history return_names_limit db Hm)
      as (M & cl1 & ocids & r & HM & Hcl & _ & _ & Hrun & _).
    rewrite Hrun in Happ. injection Happ as <- _.
    assert (Hl : forall p,
              p ∈ character_list
                    (let db1 :=
                       mk_database cl1 (characters db) (character_stats db)
                         (character_power_summary db)
                         (character_item_equipment_best db)
                         (character_item_equipment db)
                         (character_equipment_items db) in
                     if decide (lower (strip mode) = "skip") then db1
                     else delete_chunk _ _ _ _ _ delete_equip_history db1 ocids)
              <-> p ∈ cl1).
    { intros p. cbn zeta. case_decide; reflexivity. }
    intros nm w. rewrite Hl, Hcl. cbn [fst snd]. rewrite HM.
    split; intros [H1 H2]; (split; [exact H1|]); intros [-> H3];
      apply H2; tauto.
  - exfalso. unfold purge_or_skip_blacklisted in Happ. rewrite Hm in Happ.
    discriminate.
Qed.

(** The loop of a run that returns. *)
Lemma sync_days_clears (permanent_only : bool) (latest : Z) (fuel : nat) :
  forall (cur : Z) (acc acc' : counters) (st st' : state),
    sync_days fuel world permanent_only latest cur acc st = (Some acc', st') ->
    latest - cur + 1 < Z.of_nat fuel ->
    (forall nm w, (nm, w) ∈ character_list (db st')
                  -> (nm, w) ∈ character_list (db st))
    /\ (forall nm w, w <> world -> (nm, w) ∈ character_list (db st)
                     -> (nm, w) ∈ character_list (db st'))
    /\ (forall d x, cur <= d <= latest -> x ∈ names_of permanent_only d ->
                    strip x <> "" ->
                    (strip x, world) ∉ character_list (db st')).
Proof.
  induction fuel as [|fuel IH]; intros cur acc acc' st st' Hrun Hfuel.
  { cbn in Hrun. injection Hrun as _ <-. split; [auto|]. split; [auto|].
    intros d x Hd. lia. }
  cbn [ListSync.sync_days] in Hrun. case_decide as Hcur.
  2:{ injection Hrun as _ <-. split; [auto|]. split; [auto|].
      intros d x Hd. lia. }
  destruct (fetch_all_for_date cur) as [rows|] eqn:Hrows; [|discriminate].
  assert (Hnames : names_of permanent_only cur
                   = if permanent_only then extract_permanent_names rows
                     else extract_names rows).
  { unfold ListSync.names_of. rewrite Hrows. reflexivity. }
  rewrite <- Hnames in Hrun.
  assert (Hstep : forall acc1 (st1 : state),
            (forall nm w,
               (nm, w) ∈ character_list (db st1)
               <-> (nm, w) ∈ character_list (db st)
                   /\ ~ (w = world
                         /\ wanted (names_of permanent_only cur) nm)) ->
            sync_days fuel world permanent_only latest (cur + 1) acc1
              (set_blacklist_last_sync_date database world cur st1)
            = (Some acc', st') ->
            (forall nm w, (nm, w) ∈ character_list (db st')
                          -> (nm, w) ∈ character_list (db st))
            /\ (forall nm w, w <> world -> (nm, w) ∈ character_list (db st)
                             -> (nm, w) ∈ character_list (db st'))
            /\ (forall d x, cur <= d <= latest ->
                            x ∈ names_of permanent_only d ->
                            strip x <> "" ->
                            (strip x, world) ∉ character_list (db st'))).
  { intros acc1 st1 Hdb Hrec.
    apply IH in Hrec as (Hsub & Hother & Hclear); [|lia].
    cbn [set_blacklist_last_sync_date db] in Hsub, Hother, Hclear.
    split; [|split].
    - intros nm w H. apply Hsub in H. apply Hdb in H. tauto.
    - intros nm w Hw H. apply Hother; [exact Hw|]. apply Hdb. tauto.
    - intros d x Hd Hx Hne. destruct (decide (d = cur)) as [->|Hdc].
      + intros Hin. apply Hsub in Hin. apply Hdb in Hin as [_ Hno]. apply Hno.
        split; [reflexivity|]. split; [exact Hne|]. exists x. auto.
      + apply (Hclear d x); [lia|assumption..]. }
  destruct (decide (names_of permanent_only cur = ∅)) as [He|He].
  - eapply Hstep; [|exact Hrun]. cbn [db log]. intros nm w.
    split; [|tauto]. intros H. split; [exact H|].
    intros [_ (_ & x & Hx & _)]. rewrite He in Hx. inversion Hx.
  - cbn [db log] in Hrun.
    destruct (apply_names (db st) (names_of permanent_only cur))
      as [[db' matched]|] eqn:Happ; [|discriminate].
    eapply Hstep; [|exact Hrun]. cbn [db log].
    apply (apply_names_list _ _ _ _ Happ).
Qed.

(** X15.  After a run of the incremental sync that reports the span it
    ran over, no name that the fetched lists of the days of that span
    contributed is left on the character list of the world; the run adds
    no entry to the list and removes none of another world. *)
Theorem sync_clears_listed_names (first_start_date : Z) (permanent_only : bool)
    (now : Clock.datetime) (st st' : state) (s l n a b c : Z) :
  sync world first_start_date permanent_only now st
  = (Returned (Ran s l n a b c), st') ->
  (forall d x, s <= d <= l -> x ∈ names_of permanent_only d ->
               strip x <> "" ->
               (strip x, world) ∉ character_list (db st'))
  /\ (forall nm w, (nm, w) ∈ character_list (db st')
                   -> (nm, w) ∈ character_list (db st))
  /\ (forall nm w, w <> world -> (nm, w) ∈ character_list (db st)
                   -> (nm, w) ∈ character_list (db st')).
Proof.
  unfold ListSync.sync_blacklist_incremental. cbn zeta.
  intros Hrun.
  case_decide; [discriminate|]. case_decide; [discriminate|].
  destruct init as [[csrf sid]|]; [|discriminate].
  match type of Hrun with
  | context [ListSync.sync_days _ _ _ ?f ?w ?p ?la ?st0 ?ac ?s0] =>
      destruct (ListSync.sync_days _ _ _ f w p la st0 ac s0)
        as [[acc'|] st1] eqn:Hloop; [|discriminate]
  end.
  injection Hrun as <- <- _ _ _ _ <-.
  apply sync_days_clears in Hloop as (Hsub & Hother & Hclear); [|lia].
  auto.
Qed.

End WithColumns.

Import Samples Fixtures.

(** A run over two days that list the same name. *)
Lemma sync_clears_listed_names_witness :
  (PyStr.strip "Bo", "w")
  ∉ Purge.character_list
      (ListSync.db
         (ListSync.sync_blacklist_incremental _ (Some ("token", "7"))
            listing_site
            (Purge.apply_block_list "2025-12-10T08:00:00" "w" "skip" true 3000)
            "w" 739588 true sample_now sample_sync_state).2).
Proof.
  assert (Hrun :
    ListSync.sync_blacklist_incremental _ (Some ("token", "7")) listing_site
      (Purge.apply_block_list "2025-12-10T08:00:00" "w" "skip" true 3000)
      "w" 739588 true sample_now sample_sync_state
    = (ListSync.Returned (ListSync.Ran 739593 739594 2 2 2 1),
       (ListSync.sync_blacklist_incremental _ (Some ("token", "7"))
          listing_site
          (Purge.apply_block_list "2025-12-10T08:00:00" "w" "skip" true 3000)
          "w" 739588 true sample_now sample_sync_state).2)).
  { rewrite (surjective_pairing (ListSync.sync_blacklist_incremental _ _ _ _ _ _ _ _ _)) at 1.
    apply (f_equal (fun o => (o, _))). vm_compute. reflexivity. }
  apply (proj1 (sync_clears_listed_names (Some ("token", "7"))
                  listing_site "2025-12-10T08:00:00" "w" "skip" true 3000
                  739588 true sample_now sample_sync_state _ _ _ _ _ _ _ Hrun)
           739593 "Bo").
  - lia.
  - vm_compute. reflexivity.
  - vm_compute. discriminate.
Defined.

End SyncPurgeSpec.

(* ===================================================================== *)
(** * Further properties of the availability rule *)
(* ===================================================================== *)

Module ClockMoreSpec.

Import Clock.

(** What [a < b] gives on the date and the hour. *)
Lemma datetime_ltb_date_hour (a b : datetime) :
  datetime_ltb a b = true ->
  dt_date a < dt_date b \/ (dt_date a = dt_date b /\ (dt_hour a <= dt_hour b)%N).
Proof.
  unfold datetime_ltb. intros H.
  apply orb_prop in H as [H|H]; [left; lia|].
  apply andb_prop in H as [Hd H]. right. split; [lia|].
  apply orb_prop in H as [H|H]; [apply N.ltb_lt in H; lia|].
  apply andb_prop in H as [Hh _]. apply N.eqb_eq in Hh. lia.
Qed.

(** X16.  The latest available day never moves backwards as time goes
    on, and it is always one or two days before the current day. *)
Theorem latest_available_monotone (a b : datetime) :
  datetime_ltb a b = true ->
  _latest_available_block_date a <= _latest_available_block_date b
  /\ dt_date b - 2 <= _latest_available_block_date b <= dt_date b - 1
  /\ latest_available_blacklist_date b = _latest_available_block_date b.
Proof.
  intros Hlt. apply datetime_ltb_date_hour in Hlt.
  unfold latest_available_blacklist_date, _latest_available_block_date.
  pose proof (ClockSpec.before_cutoff_iff_hour a) as Ha.
  pose proof (ClockSpec.before_cutoff_iff_hour b) as Hb.
  destruct (datetime_ltb a (combine (dt_date a) (mk_dtime 6 0 0))) eqn:Ea;
    destruct (datetime_ltb b (combine (dt_date b) (mk_dtime 6 0 0))) eqn:Eb;
    (split; [|split; [lia|reflexivity]]); lia.
Qed.

Lemma latest_available_monotone_witness :
  _latest_available_block_date (mk_datetime 739595 5 59 59 0)
  <= _latest_available_block_date (mk_datetime 739595 6 0 0 0).
Proof.
  apply (latest_available_monotone (mk_datetime 739595 5 59 59 0)
           (mk_datetime 739595 6 0 0 0)).
  reflexivity.
Defined.

End ClockMoreSpec.

(* ===================================================================== *)
(** * Properties of the guild expansion *)
(* ===================================================================== *)

Module GuildsSpec.

Import PyStr Json Nexon Guilds.

Section WithClient.

Variable api_key : string.
Variable container_str : Json.t -> string.
Variable sess : session.

Local Abbreviation add_member := (add_member container_str).
Local Abbreviation expand_loop := (expand_loop api_key container_str sess).
Local Abbreviation expand :=
  (expand_guilds_to_character_list api_key container_str sess).

Lemma grown_refl (world : string) st : grown world st st.
Proof. split; [reflexivity|]. split; [tauto|reflexivity]. Qed.

Lemma grown_trans (world : string) a b c :
  grown world a b -> grown world b c -> grown world a c.
Proof.
  intros (H1 & H2 & H3) (H4 & H5 & H6). split; [etrans; eassumption|].
  split; [|lia].
  intros p Hc Ha. destruct (decide (p ∈ b.1)) as [Hb|Hb]; auto.
Qed.

Lemma add_member_grown (world : string) st (name : Json.t) :
  grown world st (add_member world st name).
Proof.
  unfold Guilds.add_member. cbn zeta.
  case_decide as Hne; [apply grown_refl|].
  case_decide as Hin; [apply grown_refl|].
  split; [|split]; cbn [fst snd].
  - apply union_subseteq_r.
  - intros p Hp Hn. apply elem_of_union in Hp as [Hp|Hp]; [|contradiction].
    apply elem_of_singleton in Hp. subst p. auto.
  - rewrite size_union by (apply disjoint_singleton_l; exact Hin).
    rewrite size_singleton. lia.
Qed.

Lemma foldl_add_member_grown (world : string) (l : list Json.t) :
  forall st, grown world st (foldl (add_member world) st l).
Proof.
  induction l as [|x l IH]; intros st; cbn [foldl]; [apply grown_refl|].
  eapply grown_trans; [apply add_member_grown|apply IH].
Qed.

Lemma expand_loop_grown (world : string) (gs : list string) :
  forall cl a e cl' out,
    expand_loop gs world cl a e = (cl', out) ->
    cl ⊆ cl'
    /\ (forall p, p ∈ cl' -> p ∉ cl -> p.2 = world /\ p.1 <> "")
    /\ (forall r, out = Ok r ->
          Z.of_nat (size cl') - added r = Z.of_nat (size cl) - a
          /\ (length (errors r) <= length e + length gs)%nat).
Proof.
  induction gs as [|g gs IH]; intros cl a e cl' out Hrun;
    cbn [Guilds.expand_loop] in Hrun.
  - injection Hrun as <- <-. split; [reflexivity|]. split; [tauto|].
    intros r [= <-]. cbn. lia.
  - destruct (lookup_guild api_key sess g world) as [[members|reason]|ex].
    + pose proof (foldl_add_member_grown world members (cl, a)) as (G1 & G2 & G3).
      apply IH in Hrun as (H1 & H2 & H3). cbn [fst snd] in *.
      split; [etrans; eassumption|]. split.
      * intros p Hp Hn.
        destruct (decide (p ∈ (foldl (add_member world) (cl, a) members).1));
          auto.
      * intros r Hr. destruct (H3 r Hr) as [H4 H5]. cbn [length]. lia.
    + apply IH in Hrun as (H1 & H2 & H3).
      split; [exact H1|]. split; [exact H2|].
      intros r Hr. destruct (H3 r Hr) as [H4 H5].
      rewrite length_app in H5. cbn [length] in *. lia.
    + injection Hrun as <- <-. split; [reflexivity|]. split; [tauto|].
      intros r [=].
Qed.

Lemma chars_from_nonempty (s : string) :
  forall cur, chars_from cur s <> [].
Proof.
  induction s as [|b s IH]; intros cur; cbn [chars_from]; [discriminate|].
  destruct (is_continuation b); [apply IH|discriminate].
Qed.

(** Only what is not empty iterates to something. *)
Lemma iterate_truthy (v : Json.t) (l : list Json.t) :
  iterate v = Ok l -> truthy v = negb (bool_decide (l = [])).
Proof.
  destruct v as [| | | |s|l'|d]; cbn [iterate]; try discriminate;
    intros [= <-]; cbn [truthy].
  - destruct s as [|b s]; [reflexivity|]. cbn [chars].
    rewrite (bool_decide_eq_false_2 (String b s = "")) by discriminate.
    rewrite bool_decide_eq_false_2; [reflexivity|].
    intros H. apply fmap_nil_inv in H. exact (chars_from_nonempty _ _ H).
  - reflexivity.
  - destruct d; reflexivity.
Qed.

(** What the client answered when the loop reaches a member list. *)
Lemma lookup_guild_Members (g world : string) (members : list Json.t) :
  lookup_guild api_key sess g world = Ok (Members members)
  <-> exists gid og gb mv,
        get_guild_id api_key sess g world = Ok gid
        /\ py_get gid "oguild_id" = Ok (JStr og) /\ og <> ""
        /\ get_guild_basic api_key sess og = Ok gb
        /\ py_get gb "guild_member" = Ok mv
        /\ iterate mv = Ok members /\ members <> [].
Proof.
  split.
  - intros H. unfold lookup_guild in H.
    destruct (get_guild_id api_key sess g world) as [gid|ex];
      cbn [bind] in H; [|discriminate H].
    cbn [Retry._unpack_api_result fst] in H.
    destruct (truthy gid); cbn [negb] in H; [|discriminate H].
    destruct (py_get gid "oguild_id") as [o|ex] eqn:E2; cbn [bind] in H;
      [|discriminate H].
    destruct (truthy o) eqn:T2; cbn [negb] in H; [|discriminate H].
    destruct o as [| | | |og| |]; cbn [bind] in H; try discriminate H.
    destruct (get_guild_basic api_key sess og) as [gb|ex] eqn:E3;
      cbn [bind] in H; [|discriminate H].
    unfold py_or in H. destruct (truthy gb).
    + destruct (py_get gb "guild_member") as [mv|ex] eqn:E4; cbn [bind] in H;
        [|discriminate H].
      destruct (truthy mv) eqn:T4; cbn [truthy negb bind] in H;
        [rewrite T4 in H; cbn [negb] in H|discriminate H].
      destruct (iterate mv) as [l|ex] eqn:E5; cbn [bind] in H;
        [|discriminate H].
      injection H as ->. exists gid, og, gb, mv.
      split; [reflexivity|]. split; [exact E2|]. split.
      { cbn [truthy] in T2. intros ->. discriminate T2. }
      split; [exact E3|]. split; [exact E4|]. split; [exact E5|].
      rewrite (iterate_truthy _ _ E5) in T4. intros ->. discriminate T4.
    + cbn in H. discriminate H.
  - intros (gid & og & gb & mv & E1 & E2 & Hog & E3 & E4 & E5 & Hne).
    unfold lookup_guild. rewrite E1. cbn [bind Retry._unpack_api_result fst].
    assert (T1 : truthy gid = true).
    { destruct gid as [| | | | | |d]; try discriminate E2.
      destruct d; [discriminate E2|reflexivity]. }
    rewrite T1, E2. cbn [negb bind truthy].
    rewrite (bool_decide_eq_false_2 (og = "")) by exact Hog. cbn [negb].
    rewrite E3. cbn [bind].
    assert (T4 : truthy mv = true).
    { rewrite (iterate_truthy _ _ E5).
      rewrite (bool_decide_eq_false_2 (members = [])) by exact Hne.
      reflexivity. }
    assert (T3 : truthy gb = true).
    { destruct gb as [| | | | | |d]; try discriminate E4.
      destruct d; [|reflexivity]. cbn in E4. injection E4 as <-.
      discriminate T4. }
    unfold py_or. rewrite T3, E4. cbn [bind]. rewrite !T4. cbn [negb].
    rewrite E5. reflexivity.
Qed.

(** Every entry a member list adds is the stripped name of one of its
    members. *)
Lemma foldl_add_member_origin (world : string) (l : list Json.t) :
  forall st p,
    p ∈ (foldl (add_member world) st l).1 -> p ∉ st.1 ->
    exists m, m ∈ l
      /\ p = (strip (Selector.py_str container_str (py_or m (JStr ""))), world).
Proof.
  induction l as [|x l IH]; intros st p Hp Hn; cbn [foldl] in Hp;
    [contradiction|].
  destruct (decide (p ∈ (add_member world st x).1)) as [Hx|Hx].
  - exists x. split; [left|]. revert Hx. unfold Guilds.add_member. cbn zeta.
    repeat case_decide; try contradiction. cbn [fst].
    intros Hx. apply elem_of_union in Hx as [Hx|Hx]; [|contradiction].
    apply elem_of_singleton in Hx. exact Hx.
  - destruct (IH _ p Hp Hx) as (m & Hm & Hpm). exists m. split; [right|]; auto.
Qed.

(** Every member with a name that is not blank is in the list afterwards. *)
Lemma foldl_add_member_complete (world : string) (l : list Json.t) :
  forall st m,
    m ∈ l ->
    strip (Selector.py_str container_str (py_or m (JStr ""))) <> "" ->
    (strip (Selector.py_str container_str (py_or m (JStr ""))), world)
      ∈ (foldl (add_member world) st l).1.
Proof.
  induction l as [|x l IH]; intros st m Hm Hne; [inversion Hm|].
  cbn [foldl]. apply elem_of_cons in Hm as [->|Hm]; [|apply IH; assumption].
  destruct (foldl_add_member_grown world l
              (add_member world st x)) as (Hsub & _).
  apply Hsub. unfold Guilds.add_member. cbn zeta.
  rewrite decide_False by exact Hne.
  case_decide as Hin; [exact Hin|]. cbn [fst].
  apply elem_of_union. left. apply elem_of_singleton. reflexivity.
Qed.

Lemma expand_loop_origin (world : string) (gs : list string) :
  forall cl a e cl' out,
    expand_loop gs world cl a e = (cl', out) ->
    forall p, p ∈ cl' -> p ∉ cl ->
    exists g members m,
      g ∈ gs /\ lookup_guild api_key sess g world = Ok (Members members)
      /\ m ∈ members
      /\ p = (strip (Selector.py_str container_str (py_or m (JStr ""))), world).
Proof.
  induction gs as [|g gs IH]; intros cl a e cl' out Hrun p Hp Hn;
    cbn [Guilds.expand_loop] in Hrun.
  - injection Hrun as <- <-. contradiction.
  - destruct (lookup_guild api_key sess g world) as [[members|reason]|ex]
      eqn:Hl.
    + destruct (decide (p ∈ (foldl (add_member world) (cl, a) members).1))
        as [Hx|Hx].
      * destruct (foldl_add_member_origin world members _ p Hx Hn)
          as (m & Hm & Hpm).
        exists g, members, m. split; [left|]. auto.
      * destruct (IH _ _ _ _ _ Hrun p Hp Hx) as (g' & ms & m & Hg & H).
        exists g', ms, m. split; [right; exact Hg|exact H].
    + destruct (IH _ _ _ _ _ Hrun p Hp Hn) as (g' & ms & m & Hg & H).
      exists g', ms, m. split; [right; exact Hg|exact H].
    + injection Hrun as <- <-. contradiction.
Qed.

Lemma expand_loop_complete (world : string) (gs : list string) :
  forall cl a e cl' r,
    expand_loop gs world cl a e = (cl', Ok r) ->
    forall g members m,
      g ∈ gs -> lookup_guild api_key sess g world = Ok (Members members) ->
      m ∈ members ->
      strip (Selector.py_str container_str (py_or m (JStr ""))) <> "" ->
      (strip (Selector.py_str container_str (py_or m (JStr ""))), world) ∈ cl'.
Proof.
  induction gs as [|g gs IH]; intros cl a e cl' r Hrun g0 members m Hg Hl Hm Hne;
    [inversion Hg|].
  cbn [Guilds.expand_loop] in Hrun.
  apply elem_of_cons in Hg as [->|Hg].
  - rewrite Hl in Hrun.
    apply expand_loop_grown in Hrun
      as (Hsub & _).
    apply Hsub. apply foldl_add_member_complete; assumption.
  - destruct (lookup_guild api_key sess g world) as [[ms|reason]|ex];
      [eapply IH; eassumption|eapply IH; eassumption|discriminate Hrun].
Qed.

(** X17.  Expanding guilds only adds to the character list: every old
    entry stays, and every new entry is, under the given world, the
    stripped name, not empty, of a member that the client listed for
    one of the guilds: the guild's id was looked up by name and world,
    the guild's record by that id, and the member is an item of the
    record's [guild_member].  This also holds for the list that is left
    when a lookup raises.  When the call returns, the count it reports
    is the number of entries the list grew by, it reports at most one
    error per guild, and every member so listed whose stripped name is
    not empty is in the list. *)
Theorem expand_guilds_counts_growth (guild_names : list string)
    (world : string) (cl cl' : gset (string * string))
    (out : result expand_report) :
  expand guild_names world cl = (cl', out) ->
  cl ⊆ cl'
  /\ (forall p, p ∈ cl' -> p ∉ cl ->
        p.2 = world /\ p.1 <> ""
        /\ exists g gid og gb mv members m,
             g ∈ guild_names
             /\ get_guild_id api_key sess g world = Ok gid
             /\ py_get gid "oguild_id" = Ok (JStr og)
             /\ get_guild_basic api_key sess og = Ok gb
             /\ py_get gb "guild_member" = Ok mv
             /\ iterate mv = Ok members
             /\ m ∈ members
             /\ p.1 = strip (Selector.py_str container_str (py_or m (JStr ""))))
  /\ (forall r, out = Ok r ->
        Z.of_nat (size cl') = Z.of_nat (size cl) + added r
        /\ (length (errors r) <= length guild_names)%nat
        /\ (forall g gid og gb mv members m,
              g ∈ guild_names ->
              get_guild_id api_key sess g world = Ok gid ->
              py_get gid "oguild_id" = Ok (JStr og) ->
              og <> "" ->
              get_guild_basic api_key sess og = Ok gb ->
              py_get gb "guild_member" = Ok mv ->
              iterate mv = Ok members ->
              m ∈ members ->
              strip (Selector.py_str container_str (py_or m (JStr ""))) <> "" ->
              (strip (Selector.py_str container_str (py_or m (JStr ""))), world)
                ∈ cl')).
Proof.
  intros Hrun. unfold Guilds.expand_guilds_to_character_list in Hrun.
  destruct (expand_loop_grown world guild_names cl 0 [] cl' out Hrun)
    as (H1 & H2 & H3).
  split; [exact H1|]. split.
  - intros p Hp Hn. destruct (H2 p Hp Hn) as [Hw Hne].
    split; [exact Hw|]. split; [exact Hne|].
    destruct (expand_loop_origin world guild_names _ _ _ _ _ Hrun p Hp Hn)
      as (g & members & m & Hg & Hl & Hm & ->).
    apply lookup_guild_Members in Hl
      as (gid & og & gb & mv & E1 & E2 & _ & E3 & E4 & E5 & _).
    exists g, gid, og, gb, mv, members, m. auto 10.
  - intros r Hr. destruct (H3 r Hr) as [H4 H5]. cbn [length] in H5.
    split; [lia|]. split; [lia|].
    intros g gid og gb mv members m Hg E1 E2 Hog E3 E4 E5 Hm Hne. subst out.
    apply (expand_loop_complete world guild_names _ _ _ _ _ Hrun g members m);
      try assumption.
    apply lookup_guild_Members. exists gid, og, gb, mv.
    repeat (split; [assumption|]). intros ->. inversion Hm.
Qed.

(** The entries a member list contributes do not depend on the list
    they are added to. *)
Lemma foldl_add_member_union (world : string) (l : list Json.t) :
  forall (cl X : gset (string * string)) (a a' : Z),
    (foldl (add_member world) (cl ∪ X, a') l).1
    = (foldl (add_member world) (cl, a) l).1 ∪ X.
Proof.
  induction l as [|x l IH]; intros cl X a a'; cbn [foldl fst]; [reflexivity|].
  unfold Guilds.add_member at 2 4. cbn zeta. cbn [fst snd].
  case_decide as Hne; [apply IH|].
  set (nm := strip (Selector.py_str container_str (py_or x (JStr "")))) in *.
  destruct (decide ((nm, world) ∈ cl)) as [Hin|Hin].
  - rewrite decide_True by (apply elem_of_union; left; exact Hin).
    apply IH.
  - case_decide as HinX.
    + apply elem_of_union in HinX as [HinX|HinX]; [contradiction|].
      replace (cl ∪ X) with (({[(nm, world)]} ∪ cl) ∪ X); [apply IH|].
      apply leibniz_equiv. intros p. rewrite !elem_of_union, elem_of_singleton.
      split; [intros [[->|H]|H]; auto|intros [H|H]; auto].
    + replace ({[(nm, world)]} ∪ (cl ∪ X)) with (({[(nm, world)]} ∪ cl) ∪ X);
        [apply IH|].
      apply leibniz_equiv. intros p. rewrite !elem_of_union. tauto.
Qed.

Lemma expand_loop_union (world : string) (gs : list string) :
  forall cl (X : gset (string * string)) a a' e,
    (expand_loop gs world (cl ∪ X) a' e).1 = (expand_loop gs world cl a e).1 ∪ X
    /\ same_errors (expand_loop gs world (cl ∪ X) a' e).2
         (expand_loop gs world cl a e).2.
Proof.
  induction gs as [|g gs IH]; intros cl X a a' e; cbn [Guilds.expand_loop].
  - split; reflexivity.
  - destruct (lookup_guild api_key sess g world) as [[members|reason]|ex].
    + rewrite (foldl_add_member_union world members cl X a a'). apply IH.
    + apply IH.
    + split; reflexivity.
Qed.

(** X18.  Expanding the same guilds again, with the API answering as
    before, adds nothing: the character list stays as the first call
    left it, the count is zero and the same errors are reported. *)
Theorem expand_guilds_twice (guild_names : list string) (world : string)
    (cl cl' : gset (string * string)) (r : expand_report) :
  expand guild_names world cl = (cl', Ok r) ->
  expand guild_names world cl' = (cl', Ok (mk_expand_report 0 (errors r))).
Proof.
  intros Hrun.
  pose proof (expand_loop_grown world guild_names cl 0 [] cl' (Ok r) Hrun)
    as (Hsub & _ & _).
  assert (Hcl : cl' = cl ∪ cl').
  { apply leibniz_equiv. intros p. rewrite elem_of_union. split; [auto|].
    intros [H|H]; [apply Hsub|]; exact H. }
  destruct (expand_loop_union world guild_names cl cl' 0 0 []) as [H1 H2].
  unfold Guilds.expand_guilds_to_character_list in *.
  rewrite Hrun in H1, H2. cbn [fst snd] in H1, H2. rewrite <- Hcl in H1, H2.
  assert (Hidem : cl' ∪ cl' = cl') by (apply leibniz_equiv, union_idemp; apply _).
  rewrite Hidem in H1.
  destruct (expand_loop guild_names world cl' 0 []) as [cl2 out2] eqn:Hrun2.
  cbn [fst snd] in H1, H2. subst cl2.
  destruct out2 as [r2|ex]; [|contradiction]. cbn in H2.
  apply expand_loop_grown in Hrun2 as (_ & _ & H3).
  destruct (H3 r2 eq_refl) as [H4 _].
  destruct r2 as [a2 e2]. cbn in *. subst e2.
  replace a2 with 0 by lia. reflexivity.
Qed.

End WithClient.

Import Samples Fixtures.

(** One guild with a listed member, a new one and a blank: what is new
    afterwards is the stripped name of an item of the record's member
    list, the name [Cy] is there, and the count is one. *)
Lemma expand_guilds_counts_growth_witness :
  (forall p,
     p ∈ (Guilds.expand_guilds_to_character_list "key" (fun _ => "")
            (answers one_body) ["Guild"] "w" {[ ("Aria", "w") ]}).1 ->
     p ∉ ({[ ("Aria", "w") ]} : gset (string * string)) ->
     exists m, m ∈ [JStr "Aria"; JStr " Cy "; JNull]
       /\ p = (strip (Selector.py_str (fun _ => "") (py_or m (JStr ""))), "w"))
  /\ Z.of_nat (size (Guilds.expand_guilds_to_character_list "key" (fun _ => "")
                       (answers one_body) ["Guild"] "w" {[ ("Aria", "w") ]}).1)
     = Z.of_nat (size ({[ ("Aria", "w") ]} : gset (string * string))) + 1
  /\ ("Cy", "w")
       ∈ (Guilds.expand_guilds_to_character_list "key" (fun _ => "")
            (answers one_body) ["Guild"] "w" {[ ("Aria", "w") ]}).1.
Proof.
  destruct (expand_guilds_counts_growth "key" (fun _ => "")
              (answers one_body) ["Guild"] "w" {[ ("Aria", "w") ]}
              _ _ (surjective_pairing _))
    as (_ & Horigin & Hcount).
  assert (G1 : get_guild_id "key" (answers one_body) "Guild" "w" = Ok one_body)
    by (vm_compute; reflexivity).
  assert (G3 : get_guild_basic "key" (answers one_body) "g-1" = Ok one_body)
    by (vm_compute; reflexivity).
  split.
  - intros p Hp Hn.
    destruct (Horigin p Hp Hn)
      as (Hw & _ & g & gid & og & gb & mv & members & m
          & Hg & E1 & E2 & E3 & E4 & E5 & Hm & Hname).
    apply list_elem_of_singleton in Hg. subst g.
    rewrite G1 in E1. injection E1 as <-.
    vm_compute in E2. injection E2 as <-.
    rewrite G3 in E3. injection E3 as <-.
    vm_compute in E4. injection E4 as <-.
    vm_compute in E5. injection E5 as <-.
    exists m. split; [exact Hm|].
    destruct p as [n w]. cbn [fst snd] in Hw, Hname. subst n w. reflexivity.
  - destruct (Hcount (Guilds.mk_expand_report 1 [])) as (Hsize & _ & Hall);
      [vm_compute; reflexivity|].
    split; [exact Hsize|].
    apply (Hall "Guild" one_body "g-1" one_body
             (JArr [JStr "Aria"; JStr " Cy "; JNull])
             [JStr "Aria"; JStr " Cy "; JNull] (JStr " Cy ")).
    + left.
    + exact G1.
    + vm_compute. reflexivity.
    + discriminate.
    + exact G3.
    + vm_compute. reflexivity.
    + reflexivity.
    + right. left.
    + vm_compute. discriminate.
Defined.

(** The same guild expanded again. *)
Lemma expand_guilds_twice_witness :
  Guilds.expand_guilds_to_character_list "key" (fun _ => "") (answers one_body)
    ["Guild"] "w" {[ ("Cy", "w"); ("Aria", "w") ]}
  = ({[ ("Cy", "w"); ("Aria", "w") ]}, Nexon.Ok (Guilds.mk_expand_report 0 [])).
Proof.
  apply (expand_guilds_twice "key" (fun _ => "") (answers one_body)
           ["Guild"] "w" {[ ("Aria", "w") ]} {[ ("Cy", "w"); ("Aria", "w") ]}
           (Guilds.mk_expand_report 1 [])).
  vm_compute. reflexivity.
Defined.

End GuildsSpec.

(* ===================================================================== *)
(** * Properties of fetching a day *)
(* ===================================================================== *)

Module FetcherSpec.

Import PyStr Json Nexon Chunks Guilds Fetcher.

Section WithSite.

Variable int_of_str : string -> result Z.
Variable int_of_float : pyfloat -> result Z.
Variable ceil_div_100_big : Z -> result Z.
Variable init : result (string * string).
Variable post : string * string -> string -> Z -> result Json.t.

Local Abbreviation fetch_pages := (fetch_pages post).
Local Abbreviation fetch_all_for_date :=
  (fetch_all_for_date int_of_str int_of_float ceil_div_100_big init post).
Local Abbreviation serves := (serves post).

(** The pages from the second on, appended in order. *)
Lemma fetch_pages_serves (tokens : string * string) (block_date : string)
    (rows : list Json.t) (n : nat) :
  serves tokens block_date rows ->
  forall (k : nat) (out : list Json.t),
    fetch_pages tokens block_date
      ((fun i : nat => Z.of_nat i + 2) <$> seq k n) out
    = Ok (out ++ concat ((fun i => slice rows (S i * 100) 100) <$> seq k n)).
Proof.
  intros Hsite. induction n as [|n IH]; intros k out.
  - cbn. rewrite app_nil_r. reflexivity.
  - cbn [seq fmap list_fmap Fetcher.fetch_pages concat].
    destruct (Hsite (Z.of_nat k + 2) ltac:(lia)) as (d & Hpost & Hlist).
    rewrite Hpost. cbn [bind py_get]. rewrite Hlist. cbn [default id].
    replace (Z.to_nat (Z.of_nat k + 2 - 1)) with (S k) by lia.
    replace (100 * S k)%nat with (S k * 100)%nat by lia.
    assert (Hit : forall l, iterate (py_or (JArr l) (JArr [])) = Ok l).
    { intros [|x l]; reflexivity. }
    rewrite Hit. cbn [bind]. rewrite (IH (S k)). rewrite <- app_assoc.
    reflexivity.
Qed.

(** X19.  When the site serves the rows of a day in pages of a hundred
    and the first row announces their number, one fetch returns all the
    rows in the order of the site, and nothing when the day has no row.
    A client without tokens first takes them from [init]; when [init]
    raises, so does the fetch. *)
Theorem fetch_all_reassembles (tokens : string * string) (block_date : string)
    (rows : list Json.t) :
  serves tokens block_date rows ->
  announces_total rows ->
  Z.of_nat (length rows) < 2 ^ 53 ->
  fetch_all_for_date (Some tokens) block_date = (Some tokens, Ok rows)
  /\ (init = Ok tokens ->
      fetch_all_for_date None block_date = (Some tokens, Ok rows))
  /\ (forall e, init = Raised e ->
      fetch_all_for_date None block_date = (None, Raised e)).
Proof.
  intros Hsite Htotal Hlen.
  assert (Hfetch : fetch_all_for_date (Some tokens) block_date
                   = (Some tokens, Ok rows)).
  { unfold Fetcher.fetch_all_for_date. f_equal.
    destruct (Hsite 1 ltac:(lia)) as (d & Hpost & Hlist).
    change (100 * Z.to_nat (1 - 1))%nat with 0%nat in Hlist.
    unfold slice in Hlist. rewrite drop_0 in Hlist.
    rewrite Hpost. cbn [bind py_get]. rewrite Hlist. cbn [default id].
    destruct rows as [|row rest] eqn:Hrows; [reflexivity|].
    rewrite <- Hrows in *.
    assert (Htake : take 100 rows = row :: take 99 rest)
      by (rewrite Hrows; reflexivity).
    rewrite Htake.
    change (py_or (JArr (row :: take 99 rest)) (JArr []))
      with (JArr (row :: take 99 rest)).
    change (truthy (JArr (row :: take 99 rest))) with true.
    cbn [negb py_first bind].
    rewrite Hrows in Htotal. cbn [announces_total] in Htotal.
    destruct row as [| | | | | |d0]; try contradiction.
    cbn [py_get bind]. rewrite Htotal. cbn [default id].
    rewrite <- Hrows.
    assert (Hpos : 0 < Z.of_nat (length rows)) by (rewrite Hrows; cbn; lia).
    unfold py_or. cbn [truthy].
    destruct (Z.eqb_spec (Z.of_nat (length rows)) 0) as [E|_]; [lia|].
    cbn [negb py_int bind]. unfold ceil_div_100.
    rewrite decide_True by lia. cbn [bind iterate].
    set (m := ((length rows + 100 - 1) / 100)%nat).
    destruct (ChunksSpec.chunk_count_bounds (length rows) 100 ltac:(lia))
      as (Hup & Hlow & _). fold m in Hup, Hlow.
    destruct (Hlow ltac:(lia)) as [Hm0 Hm1].
    assert (Hceil : - (- Z.of_nat (length rows) / 100) = Z.of_nat m).
    { assert (H1 : (Z.of_nat m - 1) * 100 < Z.of_nat (length rows)) by lia.
      assert (H2 : Z.of_nat (length rows) <= Z.of_nat m * 100) by lia.
      pose proof (Z.div_mod (- Z.of_nat (length rows)) 100 ltac:(lia)) as Hd.
      pose proof (Z.mod_pos_bound (- Z.of_nat (length rows)) 100 ltac:(lia)).
      lia. }
    rewrite Hceil. rewrite Z.max_r by lia.
    unfold seqZ. replace (Z.to_nat (Z.of_nat m - 1)) with (m - 1)%nat by lia.
    rewrite (fetch_pages_serves tokens block_date rows (m - 1) Hsite 0).
    f_equal. rewrite <- Htake.
    transitivity (concat ((fun k => slice rows (k * 100) 100) <$> seq 0 m));
      [|apply (ChunksSpec.chunk_map_concat 100 m rows Hup)].
    replace m with (S (m - 1)) at 2 by lia.
    cbn [seq]. rewrite fmap_cons. cbn [concat].
    change (0 * 100)%nat with 0%nat. unfold slice at 2. rewrite drop_0.
    f_equal. rewrite <- (fmap_S_seq 0), <- list_fmap_compose. reflexivity. }
  split; [exact Hfetch|]. split.
  - intros Hinit. unfold Fetcher.fetch_all_for_date in *. rewrite Hinit.
    exact Hfetch.
  - intros e Hinit. unfold Fetcher.fetch_all_for_date. rewrite Hinit.
    reflexivity.
Qed.

End WithSite.

Import Samples Fixtures.

(** Two rows on one page, fetched by a client without tokens. *)
Lemma fetch_all_reassembles_witness :
  Fetcher.fetch_all_for_date no_int no_int no_int (Nexon.Ok ("t", "7"))
    paging_site None "2025/12/09"
  = (Some ("t", "7"), Nexon.Ok sample_rows).
Proof.
  apply (proj1 (proj2 (fetch_all_reassembles no_int no_int no_int
                         (Nexon.Ok ("t", "7")) paging_site ("t", "7")
                         "2025/12/09" sample_rows
                         (fun p _ => ex_intro _ _ (conj eq_refl eq_refl))
                         eq_refl ltac:(vm_compute; reflexivity)))).
  reflexivity.
Defined.

End FetcherSpec.

(* ===================================================================== *)
(** * Properties of the check of the character list *)
(* ===================================================================== *)

Module ValidateSpec.

Import PyStr Json Nexon Guilds Purge Validate.

Section WithClient.

Variable api_key : string.
Variable container_str : Json.t -> string.
Variable sess : session.
Variable now_at : nat -> string.

Context {stats_cols power_cols best_cols equip_cols items_cols : Type}.

Local Abbreviation database :=
  (database stats_cols power_cols best_cols equip_cols items_cols).
Local Abbreviation loop_state :=
  (loop_state stats_cols power_cols best_cols equip_cols items_cols).
Local Abbreviation check_names :=
  (check_names api_key container_str sess now_at
     stats_cols power_cols best_cols equip_cols items_cols).
Local Abbreviation validate :=
  (validate_and_purge_character_list api_key container_str sess now_at
     stats_cols power_cols best_cols equip_cols items_cols).

(** The accumulators of the loop do not depend on the dry-run flag, and
    a dry run leaves the connection's view as it is. *)
Lemma check_names_dry (treat auto : bool) (world : string) (names : list string) :
  forall (i : nat) (sd sr : loop_state),
    acc_invalid _ _ _ _ _ sd = acc_invalid _ _ _ _ _ sr ->
    acc_renamed _ _ _ _ _ sd = acc_renamed _ _ _ _ _ sr ->
    acc_ok _ _ _ _ _ sd = acc_ok _ _ _ _ _ sr ->
    match check_names false treat auto world names i sr with
    | Raised e => check_names true treat auto world names i sd = Raised e
    | Ok sr' =>
        exists sd',
          check_names true treat auto world names i sd = Ok sd'
          /\ working _ _ _ _ _ sd' = working _ _ _ _ _ sd
          /\ acc_invalid _ _ _ _ _ sd' = acc_invalid _ _ _ _ _ sr'
          /\ acc_renamed _ _ _ _ _ sd' = acc_renamed _ _ _ _ _ sr'
          /\ acc_ok _ _ _ _ _ sd' = acc_ok _ _ _ _ _ sr'
    end.
Proof.
  induction names as [|name rest IH]; intros i sd sr Hi Hr Ho;
    cbn [Validate.check_names].
  - exists sd. auto.
  - destruct (check_name api_key container_str sess treat name) as [v|e];
      cbn [bind]; [|reflexivity].
    match goal with
    | |- match ?g ?s with Ok _ => _ | Raised _ => _ end => set (sr1 := s)
    end.
    match goal with
    | |- context [?g true treat auto world rest (S i) ?s] => set (sd1 := s)
    end.
    assert (Hw : working _ _ _ _ _ sd1 = working _ _ _ _ _ sd)
      by (subst sd1; destruct v; [|case_match]; reflexivity).
    assert (Hi1 : acc_invalid _ _ _ _ _ sd1 = acc_invalid _ _ _ _ _ sr1)
      by (subst sd1 sr1; destruct v; [|case_match]; cbn; congruence).
    assert (Hr1 : acc_renamed _ _ _ _ _ sd1 = acc_renamed _ _ _ _ _ sr1)
      by (subst sd1 sr1; destruct v; [|case_match]; cbn; congruence).
    assert (Ho1 : acc_ok _ _ _ _ _ sd1 = acc_ok _ _ _ _ _ sr1)
      by (subst sd1 sr1; destruct v; [|case_match]; cbn; congruence).
    specialize (IH (S i) sd1 sr1 Hi1 Hr1 Ho1).
    destruct (check_names false treat auto world rest (S i) sr1) as [sr'|e'].
    + destruct IH as (sd' & H1 & H2 & H3).
      exists sd'. split; [exact H1|]. split; [congruence|exact H3].
    + exact IH.
Qed.

(** X20.  A dry run commits nothing, and it reports what the real run
    with the same options reports: the same counts and the same lists of
    invalid and renamed names, or the same exception. *)
Theorem validate_dry_run_reports_real_run (world : string)
    (treat auto purge deh : bool) (db : database) :
  (validate world true treat auto purge deh db).1 = db
  /\ match (validate world false treat auto purge deh db).2 with
     | Ok r =>
         (validate world true treat auto purge deh db).2
         = Ok (mk_validate_report (v_world r) true (total r) (ok r)
                 (invalid_count r) (renamed_count r) (invalid r) (renamed r)
                 (note r))
     | Raised e =>
         (validate world true treat auto purge deh db).2 = Raised e
     end.
Proof.
  unfold Validate.validate_and_purge_character_list. cbn zeta.
  match goal with
  | |- context [Validate.check_names _ _ _ _ _ _ _ _ _ true _ _ _ ?ns _ ?s] =>
      set (names := ns);
      pose proof (check_names_dry treat auto world names 0 s s
                    eq_refl eq_refl eq_refl) as Hdry
  end.
  destruct (check_names false treat auto world names 0
              (mk_loop_state _ _ _ _ _ db [] [] 0)) as [sr|e].
  - destruct Hdry as (sd & -> & Hw & Hi & Hr & Ho). cbn [fst snd negb andb].
    split; [reflexivity|]. rewrite Hi, Hr, Ho. reflexivity.
  - rewrite Hdry. split; reflexivity.
Qed.

(** The counters of the loop. *)
Lemma check_names_counts (dry treat auto : bool) (world : string)
    (names : list string) :
  forall (i : nat) (st st' : loop_state),
    check_names dry treat auto world names i st = Ok st' ->
    acc_ok _ _ _ _ _ st' + Z.of_nat (length (acc_invalid _ _ _ _ _ st'))
    = acc_ok _ _ _ _ _ st + Z.of_nat (length (acc_invalid _ _ _ _ _ st))
      + Z.of_nat (length names)
    /\ Z.of_nat (length (acc_renamed _ _ _ _ _ st')) - acc_ok _ _ _ _ _ st'
       <= Z.of_nat (length (acc_renamed _ _ _ _ _ st)) - acc_ok _ _ _ _ _ st
    /\ acc_ok _ _ _ _ _ st <= acc_ok _ _ _ _ _ st'.
Proof.
  induction names as [|name rest IH]; intros i st st' Hrun;
    cbn [Validate.check_names] in Hrun.
  - injection Hrun as <-. cbn. lia.
  - destruct (check_name api_key container_str sess treat name) as [v|e];
      cbn [bind] in Hrun; [|discriminate].
    apply IH in Hrun as (H1 & H2 & H3). cbn [length].
    destruct v as [e|ocid new_name]; [|case_match];
      cbn [acc_ok acc_invalid acc_renamed] in H1, H2, H3;
      rewrite ?length_app in *; cbn [length] in *; lia.
Qed.

(** X21.  When the check returns, every name of the world on the list
    was counted once, as ok or as invalid, and a renamed name counts as
    ok.  The database is committed only by a run that is no dry run and
    found an invalid name: after a dry run, after a run that found no
    invalid name, renames included, and after a run that raises, the
    database is the one before the call. *)
Theorem validate_counts_and_commit (world : string)
    (dry treat auto purge deh : bool) (db db' : database)
    (out : result validate_report) :
  validate world dry treat auto purge deh db = (db', out) ->
  (forall r, out = Ok r ->
     ok r + invalid_count r = total r
     /\ 0 <= renamed_count r <= ok r
     /\ (length (invalid r) <= 5000)%nat
     /\ (length (renamed r) <= 5000)%nat)
  /\ (dry = true \/ (forall r, out = Ok r -> invalid_count r = 0) -> db' = db).
Proof.
  unfold Validate.validate_and_purge_character_list. cbn zeta.
  match goal with
  | |- context [Validate.check_names _ _ _ _ _ _ _ _ _ _ _ _ _ ?ns _ _] =>
      set (names := ns)
  end.
  destruct (check_names dry treat auto world names 0
              (mk_loop_state _ _ _ _ _ db [] [] 0)) as [st|e] eqn:Hloop.
  - intros [= <- <-]. split.
    + intros r [= <-]. cbn.
      apply check_names_counts in Hloop as (H1 & H2 & H3). cbn in H1, H2, H3.
      rewrite !length_take. lia.
    + intros [->|Hnone]; [reflexivity|].
      specialize (Hnone _ eq_refl). cbn in Hnone.
      destruct (acc_invalid _ _ _ _ _ st); [|cbn in Hnone; lia].
      rewrite andb_false_r. reflexivity.
  - intros [= <- <-]. split; [intros r [=]|reflexivity].
Qed.

End WithClient.

Import Samples Fixtures.

(** A run that renames and finds no invalid name commits nothing. *)
Lemma validate_counts_and_commit_witness :
  (Validate.validate_and_purge_character_list "key" (fun _ => "")
     (answers one_body) (fun _ => "2025-12-10T08:00:00")
     unit unit unit unit unit "w" false true true true true sample_db).1
  = sample_db.
Proof.
  apply (proj2 (validate_counts_and_commit "key" (fun _ => "")
                  (answers one_body) (fun _ => "2025-12-10T08:00:00")
                  "w" false true true true true sample_db _ _
                  (surjective_pairing _))).
  right. intros r Hr. vm_compute in Hr. injection Hr as <-. reflexivity.
Defined.

End ValidateSpec.

(* ===================================================================== *)
(** * Properties of the backfill tool *)
(* ===================================================================== *)

Module BackfillSpec.

Import Chunks Backfill.

Lemma foldl_delete_chunks (world : string) (chunks : list (list string)) :
  forall (cl : gset (string * string)) (a : Z),
    foldl (fun (st : gset (string * string) * Z) ch =>
             (st.1 ∖ list_to_set ((fun nm => (nm, world)) <$> ch),
              st.2 + Z.of_nat (length ch)))
          (cl, a) chunks
    = (cl ∖ list_to_set ((fun nm => (nm, world)) <$> concat chunks),
       a + Z.of_nat (length (concat chunks))).
Proof.
  induction chunks as [|ch chunks IH]; intros cl a; cbn [foldl concat].
  - f_equal; [|cbn; lia]. apply leibniz_equiv. intros p.
    rewrite elem_of_difference. split; [|tauto].
    intros H. split; [exact H|]. intros H'.
    apply elem_of_list_to_set in H'. inversion H'.
  - rewrite IH. cbn [fst snd]. f_equal.
    + apply leibniz_equiv. intros p.
      rewrite fmap_app, !elem_of_difference, !elem_of_list_to_set, elem_of_app.
      tauto.
    + rewrite length_app. lia.
Qed.

(** X22.  Deleting names from the character list removes exactly the
    entries of the given world under these names.  The count it returns
    is the number of names it was given, whether or not they were on the
    list. *)
Theorem delete_from_character_list_spec (world : string) (names : list string)
    (cl : gset (string * string)) :
  (delete_from_character_list world names cl).2 = Z.of_nat (length names)
  /\ (forall nm w,
        (nm, w) ∈ (delete_from_character_list world names cl).1
        <-> (nm, w) ∈ cl /\ ~ (w = world /\ nm ∈ names)).
Proof.
  unfold delete_from_character_list. destruct names as [|n0 names'] eqn:Hn.
  - split; [reflexivity|]. intros nm w. cbn [fst]. split; [|tauto].
    intros H. split; [exact H|]. intros [_ H']. inversion H'.
  - rewrite <- Hn. rewrite foldl_delete_chunks.
    rewrite (PurgeSpec.chunked_concat 500 names) by lia. cbn [fst snd].
    split; [lia|]. intros nm w.
    rewrite elem_of_difference, elem_of_list_to_set, list_elem_of_fmap.
    split; intros [H1 H2]; (split; [exact H1|]).
    + intros [-> Hin]. apply H2. exists nm. auto.
    + intros (y & [= -> ->] & Hin). apply H2. auto.
Qed.

End BackfillSpec.

(* ===================================================================== *)
(** * Properties of the pending list *)
(* ===================================================================== *)

Module PendingSpec.

Import PyStr Json Nexon Guilds Backfill.

#[local] Instance str_le_total : Total Purge.str_le.
Proof. intros a b. apply String.leb_total. Qed.

Lemma keyed_insert (m : gmap string entry) (nm : string) (e : entry) :
  keyed m -> e_name e = nm -> nm <> "" -> keyed (<[nm := e]> m).
Proof.
  intros Hm He Hne k e' Hk. destruct (decide (k = nm)) as [->|Hkn].
  - rewrite lookup_insert_eq in Hk. injection Hk as <-. auto.
  - rewrite lookup_insert_ne in Hk by congruence. apply Hm, Hk.
Qed.

Lemma fold_result_app {A S : Type} (f : S -> A -> result S) (l1 l2 : list A) :
  forall s,
    fold_result f s (l1 ++ l2)
    = bind (fold_result f s l1) (fun s' => fold_result f s' l2).
Proof.
  induction l1 as [|x l1 IH]; intros s; cbn; [reflexivity|].
  destruct (f s x); cbn; [apply IH|reflexivity].
Qed.

Lemma fold_result_inv {A S : Type} (f : S -> A -> result S) (P : S -> Prop)
    (l : list A) :
  (forall s x s', P s -> f s x = Ok s' -> P s') ->
  forall s s', P s -> fold_result f s l = Ok s' -> P s'.
Proof.
  intros Hf. induction l as [|x l IH]; intros s s' Hs Hrun; cbn in Hrun.
  - injection Hrun as <-. exact Hs.
  - destruct (f s x) as [s1|] eqn:E; [|discriminate]. cbn in Hrun. eauto.
Qed.

Section WithInt.

Variable int_of_str : string -> result Z.
Variable int_of_float : pyfloat -> result Z.

Local Abbreviation py_int := (Fetcher.py_int int_of_str int_of_float).
Local Abbreviation put_old := (put_old int_of_str int_of_float).
Local Abbreviation put_update := (put_update int_of_str int_of_float).
Local Abbreviation merge_pending := (merge_pending int_of_str int_of_float).

(** What a turn of the second loop that does not raise writes. *)
Lemma put_update_Ok (m m' : gmap string entry) (k : string) (u : Json.t) :
  put_update m (k, u) = Ok m' ->
  (strip k = "" /\ m' = m)
  \/ (strip k <> ""
      /\ exists i inc r er c,
           py_get u "attempts_inc" = Ok i
           /\ py_int (py_or i (JInt 0)) = Ok inc
           /\ py_get u "last_reason" = Ok r
           /\ py_get u "last_error" = Ok er
           /\ py_get u "last_checked_at" = Ok c
           /\ m' = <[strip k :=
                       mk_entry
                         (e_name (default (mk_entry (strip k) 0 JNull JNull JNull)
                                    (m !! strip k)))
                         (attempts (default (mk_entry (strip k) 0 JNull JNull JNull)
                                      (m !! strip k)) + inc)
                         r er c]> m).
Proof.
  unfold Backfill.put_update. cbn [fst snd]. intros H.
  destruct (decide (strip k = "")) as [E|E].
  - left. injection H as <-. auto.
  - right. split; [exact E|].
    destruct (py_get u "attempts_inc") as [i|] eqn:Hi; [|discriminate].
    cbn [bind] in H.
    destruct (py_int (py_or i (JInt 0))) as [inc|] eqn:Hinc; [|discriminate].
    cbn [bind] in H.
    destruct (py_get u "last_reason") as [r|] eqn:Hr; [|discriminate].
    destruct (py_get u "last_error") as [er|] eqn:Her; [|discriminate].
    destruct (py_get u "last_checked_at") as [c|] eqn:Hc; [|discriminate].
    cbn [bind] in H. injection H as <-.
    exists i, inc, r, er, c. auto 10.
Qed.

Lemma put_update_keyed (m m' : gmap string entry) (ku : string * Json.t) :
  keyed m -> put_update m ku = Ok m' -> keyed m'.
Proof.
  destruct ku as [k u]. intros Hm H.
  apply put_update_Ok in H
    as [[_ ->]|(Hne & i & inc & r & er & c & _ & _ & _ & _ & _ & ->)];
    [exact Hm|].
  apply keyed_insert; [exact Hm| |exact Hne].
  cbn [e_name]. destruct (m !! strip k) as [e|] eqn:E; [|reflexivity].
  cbn. apply (Hm _ _ E).
Qed.

Lemma put_old_keyed (m m' : gmap string entry) (it : Json.t) :
  keyed m -> put_old m it = Ok m' -> keyed m'.
Proof.
  unfold Backfill.put_old. intros Hm H.
  destruct (py_get it "character_name") as [v|]; [|discriminate].
  cbn [bind] in H.
  destruct (strip_or_empty v) as [nm|]; [|discriminate]. cbn [bind] in H.
  destruct (decide (nm = "")) as [E|E]; [injection H as <-; exact Hm|].
  destruct (py_get it "attempts") as [a|]; [|discriminate]. cbn [bind] in H.
  destruct (py_int (py_or a (JInt 0))) as [att|]; [|discriminate].
  cbn [bind] in H.
  destruct (py_get it "last_reason") as [r|]; [|discriminate].
  destruct (py_get it "last_error") as [er|]; [|discriminate].
  destruct (py_get it "last_checked_at") as [c|]; [|discriminate].
  cbn [bind] in H. injection H as <-.
  apply keyed_insert; [exact Hm|reflexivity|exact E].
Qed.

(** The second loop when no two keys strip to the same name. *)
Lemma fold_updates (updates : list (string * Json.t)) :
  NoDup (strip <$> updates.*1) ->
  forall m m',
    fold_result put_update m updates = Ok m' ->
    (forall k u, (k, u) ∈ updates -> strip k <> "" ->
       exists i inc r er c,
         py_get u "attempts_inc" = Ok i
         /\ py_int (py_or i (JInt 0)) = Ok inc
         /\ py_get u "last_reason" = Ok r
         /\ py_get u "last_error" = Ok er
         /\ py_get u "last_checked_at" = Ok c
         /\ m' !! strip k
            = Some (mk_entry
                      (e_name (default (mk_entry (strip k) 0 JNull JNull JNull)
                                 (m !! strip k)))
                      (attempts (default (mk_entry (strip k) 0 JNull JNull JNull)
                                   (m !! strip k)) + inc)
                      r er c))
    /\ (forall nm, (forall k u, (k, u) ∈ updates -> strip k <> nm) ->
          m' !! nm = m !! nm).
Proof.
  induction updates as [|[k0 u0] updates IH]; intros Hnd m m' Hrun.
  - cbn in Hrun. injection Hrun as <-. split; [|reflexivity].
    intros k u Hin. inversion Hin.
  - cbn [fold_result] in Hrun.
    destruct (put_update m (k0, u0)) as [m1|] eqn:Hstep; [|discriminate].
    cbn [bind] in Hrun.
    rewrite fmap_cons in Hnd. cbn [fmap list_fmap fst] in Hnd.
    apply NoDup_cons in Hnd as [Hfresh Hnd].
    destruct (IH Hnd m1 m' Hrun) as [Hupd Hkeep].
    assert (Hlater : forall k u, (k, u) ∈ updates -> strip k <> strip k0).
    { intros k u Hin E. apply Hfresh. rewrite <- E.
      apply list_elem_of_fmap. exists k. split; [reflexivity|].
      apply list_elem_of_fmap. exists (k, u). auto. }
    apply put_update_Ok in Hstep
      as [[He ->]|(Hne & i & inc & r & er & c & Hi & Hinc & Hr & Her & Hc & ->)].
    + split.
      * intros k u Hin Hk. apply elem_of_cons in Hin as [[= -> ->]|Hin];
          [contradiction|]. apply (Hupd k u Hin Hk).
      * intros nm Hnm. apply Hkeep. intros k u Hin.
        apply (Hnm k u). right. exact Hin.
    + split.
      * intros k u Hin Hk. apply elem_of_cons in Hin as [[= -> ->]|Hin].
        -- exists i, inc, r, er, c. repeat (split; [assumption|]).
           rewrite (Hkeep (strip k0)) by (intros k u Hin; apply (Hlater k u Hin)).
           apply lookup_insert_eq.
        -- destruct (Hupd k u Hin Hk)
             as (i' & inc' & r' & er' & c' & H1 & H2 & H3 & H4 & H5 & H6).
           exists i', inc', r', er', c'. repeat (split; [assumption|]).
           rewrite H6.
           rewrite lookup_insert_ne by (intros E; apply (Hlater k u Hin); auto).
           reflexivity.
      * intros nm Hnm. rewrite Hkeep.
        -- apply lookup_insert_ne. apply (Hnm k0 u0). left.
        -- intros k u Hin. apply (Hnm k u). right. exact Hin.
Qed.

(** The sorted values of a keyed dict. *)
Lemma elem_of_sorted_entries (m : gmap string entry) (e : entry) :
  keyed m -> e ∈ sorted_entries m <-> m !! e_name e = Some e.
Proof.
  intros Hm. unfold sorted_entries. rewrite list_elem_of_omap. split.
  - intros (k & _ & Hk). destruct (Hm _ _ Hk) as [<- _]. exact Hk.
  - intros He. exists (e_name e). split; [|exact He].
    apply PurgeSpec.elem_of_sorted_set, elem_of_dom. eauto.
Qed.

Lemma names_sorted_entries (m : gmap string entry) :
  keyed m -> e_name <$> sorted_entries m = Purge.sorted_set (dom m).
Proof.
  intros Hm. unfold sorted_entries.
  assert (Hall : Forall (fun k => k ∈ dom m) (Purge.sorted_set (dom m))).
  { apply Forall_forall. intros k Hk. apply PurgeSpec.elem_of_sorted_set. exact Hk. }
  induction Hall as [|k l Hk _ IH]; [reflexivity|].
  cbn [omap list_omap]. apply elem_of_dom in Hk as [e He]. rewrite He.
  rewrite fmap_cons. destruct (Hm _ _ He) as [-> _]. f_equal. exact IH.
Qed.

Lemma entry_of_unique (l : list entry) (e : entry) :
  NoDup (e_name <$> l) -> e ∈ l -> entry_of (e_name e) l = Some e.
Proof.
  induction l as [|x l IH]; intros Hnd Hin; [inversion Hin|].
  rewrite fmap_cons in Hnd. apply NoDup_cons in Hnd as [Hx Hnd].
  cbn [entry_of]. destruct (decide (e_name x = e_name e)) as [E|E].
  - apply elem_of_cons in Hin as [->|Hin]; [reflexivity|].
    exfalso. apply Hx. rewrite E. apply list_elem_of_fmap. eauto.
  - apply elem_of_cons in Hin as [->|Hin]; [congruence|]. auto.
Qed.

Lemma entry_of_none (l : list entry) (nm : string) :
  (forall e, e ∈ l -> e_name e <> nm) -> entry_of nm l = None.
Proof.
  induction l as [|x l IH]; intros Hno; [reflexivity|].
  cbn [entry_of]. rewrite decide_False by (apply Hno; left).
  apply IH. intros e He. apply Hno. right. exact He.
Qed.

Lemma entry_of_sorted_entries (m : gmap string entry) (nm : string) :
  keyed m -> entry_of nm (sorted_entries m) = m !! nm.
Proof.
  intros Hm. destruct (m !! nm) as [e|] eqn:E.
  - destruct (Hm _ _ E) as [<- _]. apply entry_of_unique.
    + rewrite names_sorted_entries by exact Hm. apply PurgeSpec.NoDup_sorted_set.
    + apply elem_of_sorted_entries; assumption.
  - apply entry_of_none. intros e He <-.
    apply elem_of_sorted_entries in He; [|exact Hm]. congruence.
Qed.

(** X23.  When no two keys of the updates strip to the same name and
    the merge returns, the merged list is the old list, taken alone,
    with each update applied to the entry of its stripped key: the
    attempts of that entry, or 0 when there is none, go up by the
    increment, and the reason, error and time of the update replace the
    old ones; entries without an update stay as they are.  The merged
    list is sorted by name, without an empty name and without a name
    twice. *)
Theorem merge_pending_applies_updates (old_items : list Json.t)
    (updates : list (string * Json.t)) (out : list entry) :
  NoDup (strip <$> updates.*1) ->
  merge_pending old_items updates = Ok out ->
  exists base,
    merge_pending old_items [] = Ok base
    /\ (forall k u, (k, u) ∈ updates -> strip k <> "" ->
          exists i inc r er c,
            py_get u "attempts_inc" = Ok i
            /\ py_int (py_or i (JInt 0)) = Ok inc
            /\ py_get u "last_reason" = Ok r
            /\ py_get u "last_error" = Ok er
            /\ py_get u "last_checked_at" = Ok c
            /\ entry_of (strip k) out
               = Some (mk_entry (strip k) (attempts_of (strip k) base + inc)
                         r er c))
    /\ (forall nm, (forall k u, (k, u) ∈ updates -> strip k <> nm) ->
          entry_of nm out = entry_of nm base)
    /\ Sorted Purge.str_le (e_name <$> out)
    /\ NoDup (e_name <$> out)
    /\ Forall (fun e => e_name e <> "") out.
Proof.
  intros Hnd Hrun. unfold Backfill.merge_pending in *.
  destruct (fold_result put_old ∅ old_items) as [m0|] eqn:Hold; [|discriminate].
  cbn [bind] in Hrun |- *.
  destruct (fold_result put_update m0 updates) as [m1|] eqn:Hupd;
    [|discriminate].
  cbn [bind] in Hrun. injection Hrun as <-.
  assert (Hk0 : keyed m0).
  { apply (fold_result_inv put_old keyed old_items
             (fun s x s' => put_old_keyed s s' x) ∅ m0);
      [|exact Hold].
    intros k e Hk. rewrite lookup_empty in Hk. discriminate. }
  assert (Hk1 : keyed m1)
    by (apply (fold_result_inv put_update keyed updates
                 (fun s x s' => put_update_keyed s s' x) m0 m1 Hk0 Hupd)).
  destruct (fold_updates updates Hnd m0 m1 Hupd) as [Happly Hkeep].
  exists (sorted_entries m0). split; [reflexivity|].
  split; [|split; [|split; [|split]]].
  - intros k u Hin Hne.
    destruct (Happly k u Hin Hne)
      as (i & inc & r & er & c & H1 & H2 & H3 & H4 & H5 & H6).
    exists i, inc, r, er, c. repeat (split; [assumption|]).
    rewrite entry_of_sorted_entries by exact Hk1. rewrite H6.
    unfold attempts_of. rewrite entry_of_sorted_entries by exact Hk0.
    destruct (m0 !! strip k) as [e|] eqn:E; cbn; [|reflexivity].
    destruct (Hk0 _ _ E) as [-> _]. reflexivity.
  - intros nm Hnm. rewrite !entry_of_sorted_entries by assumption.
    apply Hkeep, Hnm.
  - rewrite names_sorted_entries by exact Hk1. apply Sorted_merge_sort, _.
  - rewrite names_sorted_entries by exact Hk1. apply PurgeSpec.NoDup_sorted_set.
  - apply Forall_forall. intros e He.
    apply elem_of_sorted_entries in He; [|exact Hk1].
    destruct (Hk1 _ _ He) as [_ Hne]. exact Hne.
Qed.

End WithInt.

Import Samples Fixtures.

(** An old entry with two attempts and an update with one more. *)
Lemma merge_pending_applies_updates_witness :
  exists base,
    Backfill.merge_pending no_int no_int sample_pending [] = Nexon.Ok base
    /\ Backfill.entry_of "Bo"
         [Backfill.mk_entry "Bo" 3 (Json.JStr "ocid_not_found") Json.JNull
            Json.JNull]
       = Backfill.entry_of "Bo" base
         ≫= fun e =>
              Some (Backfill.mk_entry "Bo" (Backfill.attempts e + 1)
                      (Json.JStr "ocid_not_found") Json.JNull Json.JNull).
Proof.
  destruct (merge_pending_applies_updates no_int no_int
              sample_pending sample_updates
              [Backfill.mk_entry "Bo" 3 (Json.JStr "ocid_not_found") Json.JNull
                 Json.JNull])
    as (base & Hbase & _).
  - apply (bool_decide_unpack _). vm_compute. exact I.
  - vm_compute. reflexivity.
  - exists base. split; [exact Hbase|].
    vm_compute in Hbase. injection Hbase as <-. vm_compute. reflexivity.
Defined.

End PendingSpec.
